(** * airlink-panel: the client-side navigation layer

    A shallow embedding of [public/javascript/spa-router.js] (the classes
    [SPARouter] and [IntelligentPreloader]) and of the component
    persistence script ([ComponentPersistence]), with the properties the
    specification states about them.

    JavaScript's [async] functions are embedded as functions that run the
    call to completion against an explicit description of what the
    environment answers (the network, the clock); what a call does to the
    outside world is recorded as a list of events. Where calls overlap,
    a call is split at its [await] and the handlers that run in between
    are inputs of a step function. *)

From Stdlib Require Import ZArith String Ascii Bool Lia.
From Stdlib Require Import DecimalString.
From stdpp Require Import gmap strings list sorting.

Local Open Scope string_scope.
Local Open Scope Z_scope.
Local Open Scope list_scope.

(** ** JavaScript strings *)

Module Js.

(** [hay.startsWith(needle)] *)
Definition startsWith (needle hay : string) : bool := String.prefix needle hay.

(** [hay.includes(needle)]: some suffix of [hay] starts with [needle]. *)
Fixpoint includes (needle hay : string) : bool :=
  String.prefix needle hay ||
  match hay with
  | EmptyString => false
  | String _ rest => includes needle rest
  end.

(** A template literal's rendering of an integer. *)
Definition ofZ (z : Z) : string := NilZero.string_of_int (Z.to_int z).

(** A string in a boolean position: only the empty string is falsy. *)
Definition truthy (s : string) : bool := negb (String.eqb s "").

(** [array.sort((a, b) => key(a) - key(b))]: the sort is stable, elements
    with equal keys keep their order. *)
Fixpoint insertBy {A : Type} (key : A -> Z) (x : A) (l : list A) : list A :=
  match l with
  | [] => [x]
  | y :: rest => if key x <=? key y then x :: l else y :: insertBy key x rest
  end.

Definition sortBy {A : Type} (key : A -> Z) (l : list A) : list A :=
  foldr (insertBy key) [] l.

(** An object used as a dictionary, and a [Map]: the entries in insertion
    order, one per key; writing an existing key keeps its place. (For keys
    that are array indices an object enumerates them first; no key below is
    one where the order matters.) *)
Fixpoint objSet {V : Type} (k : string) (v : V) (o : list (string * V)) : list (string * V) :=
  match o with
  | [] => [(k, v)]
  | (k', v') :: rest =>
      if String.eqb k k' then (k, v) :: rest else (k', v') :: objSet k v rest
  end.

(** [Object.fromEntries(entries)] *)
Definition fromEntries {V : Type} (entries : list (string * V)) : list (string * V) :=
  fold_left (fun o kv => objSet (fst kv) (snd kv) o) entries [].

(** ASCII whitespace, which separates the tokens of a [class] attribute. *)
Definition isSpace (c : ascii) : bool :=
  let n := nat_of_ascii c in
  ((n =? 32) || (n =? 9) || (n =? 10) || (n =? 12) || (n =? 13))%nat.

Fixpoint noSpace (s : string) : bool :=
  match s with
  | EmptyString => true
  | String c rest => negb (isSpace c) && noSpace rest
  end.

(** A token of a class list: not empty, no white space. *)
Definition isToken (c : string) : bool := negb (String.eqb c "") && noSpace c.

(** The tokens of a string, [cur] being the token read so far. *)
Fixpoint tokensFrom (cur : string) (s : string) : list string :=
  match s with
  | EmptyString => if negb (String.eqb cur "") then [cur] else []
  | String c rest =>
      if isSpace c then
        (if negb (String.eqb cur "") then [cur] else []) ++ tokensFrom "" rest
      else tokensFrom (cur +:+ String c "") rest
  end.

(** An ordered set keeps the first occurrence of each token. *)
Fixpoint dedupe (seen l : list string) : list string :=
  match l with
  | [] => []
  | x :: rest =>
      if bool_decide (x ∈ seen) then dedupe seen rest else x :: dedupe (x :: seen) rest
  end.

(** The [classList] that the assignment [element.className = s] leaves. *)
Definition classTokens (s : string) : list string := dedupe [] (tokensFrom "" s).

(** [array.join(sep)] *)
Definition join (sep : string) (l : list string) : string := String.concat sep l.

(** What a call produces: a value, or an exception. *)
Inductive Outcome (A : Type) : Type :=
| Returned (a : A)
| Thrown (name message : string).
Arguments Returned {A} a.
Arguments Thrown {A} name message.

End Js.
Import Js.

(** ** Page fragments and the fragment endpoint *)

(** The JSON object the fragment endpoint answers with. *)
Record PageData := {
  pd_content : string;
  pd_title : string;
  pd_scripts : list string;
  pd_styles : list string
}.

(** A parsed JSON body as the router looks at it: a page fragment, or a
    value that is falsy in [if (pageData)] ([null], [0], [false], the empty
    string). *)
Inductive Json :=
| JFalsy
| JPage (page : PageData).

(** An exception object: its [name] and its [message]. *)
Record JsError := { err_name : string; err_message : string }.

(** [new Error(message)] *)
Definition Error (message : string) : JsError :=
  {| err_name := "Error"; err_message := message |}.

Record Response := {
  status : Z;
  statusText : string;
  (** [await response.json()]: the parsed body, or the exception of the parser *)
  json : JsError + Json
}.

(** [response.ok] *)
Definition ok (r : Response) : bool := (200 <=? status r) && (status r <=? 299).

(** How a [fetch] settles when nothing aborts it. *)
Inductive Settled :=
| Resolves (response : Response)
| Rejects (error : JsError).

(** One request as the environment answers it: after [latency] milliseconds
    the promise of [fetch] settles as [settles] says. *)
Record Attempt := { latency : Z; settles : Settled }.

(** What a run does to the outside world, in order. *)
Inductive Event :=
| EvFetch (url : string)
| EvSleep (ms : Z).

(** A run to completion: the events and the outcome; [None] only when the
    unrolling below is given too little fuel. *)
Definition Run : Type := option (list Event * Outcome Json).

Definition after (evs : list Event) (r : Run) : Run :=
  match r with
  | Some (evs', o) => Some (evs ++ evs', o)
  | None => None
  end.

Definition throw (evs : list Event) (e : JsError) : Run :=
  Some (evs, Thrown (err_name e) (err_message e)).

(** ** [SPARouter.fetchPageData] *)

Module Fetch.

Definition maxRetries : nat := 3.

(** [setTimeout(() => controller.abort(), 10000)] *)
Definition timeoutMs : Z := 10000.

(** The rejection of a [fetch] whose signal is aborted. *)
Definition abortError : JsError :=
  {| err_name := "AbortError"; err_message := "The operation was aborted." |}.

(** [fetch(url, {signal})] raced against the abort timer: a request that has
    not settled when the timer fires is aborted. *)
Definition fetch (a : Attempt) : Settled :=
  if timeoutMs <=? latency a then Rejects abortError else settles a.

Definition timeoutError : JsError :=
  Error "Request timeout - please check your connection".

(** [new Error(`HTTP ${response.status}: ${response.statusText}`)] *)
Definition httpError (r : Response) : JsError :=
  Error ("HTTP " +:+ ofZ (status r) +:+ ": " +:+ statusText r).

(** [1000 * Math.pow(2, retryCount)] *)
Definition retryDelay (retryCount : nat) : Z := 1000 * 2 ^ Z.of_nat retryCount.

Definition endpoint (path : string) : string := "/api/page-content" +:+ path.

(** The test of the [catch] block on the message of what it caught. *)
Definition looksLikeNetworkError (error : JsError) : bool :=
  includes "fetch" (err_message error) || includes "network" (err_message error).

(** The body of [fetchPageData(path, retryCount)], with the recursive call
    as [self]. [net k] is how the request of attempt [k] is answered. The
    [catch] block is [handler]: every exception raised inside the [try]
    reaches it, the [throw new Error(`HTTP ...`)] of the [try] included. A
    [return this.fetchPageData(...)] hands the promise of the inner call
    over without awaiting it, so what the inner call throws is not caught
    here. *)
Definition fetchPageData_body (self : nat -> Run)
    (net : nat -> Attempt) (path : string) (retryCount : nat) : Run :=
  let request := [EvFetch (endpoint path)] in
  let retry := after (request ++ [EvSleep (retryDelay retryCount)]) (self (S retryCount)) in
  let handler (error : JsError) : Run :=
    if String.eqb (err_name error) "AbortError" then
      throw request timeoutError
    else if (retryCount <? maxRetries)%nat && looksLikeNetworkError error then
      retry
    else
      throw request error in
  match fetch (net retryCount) with
  | Rejects error => handler error
  | Resolves response =>
      if negb (ok response) then
        if (500 <=? status response) && (retryCount <? maxRetries)%nat then retry
        else handler (httpError response)
      else
        match json response with
        | inl error => handler error
        | inr data => Some (request, Returned data)
        end
  end.

Fixpoint fetchPageData_fuel (fuel : nat) (net : nat -> Attempt) (path : string)
    (retryCount : nat) : Run :=
  match fuel with
  | O => None
  | S fuel' => fetchPageData_body (fetchPageData_fuel fuel' net path) net path retryCount
  end.

(** [fetchPageData(path, retryCount = 0)]: a call recurses only while
    [retryCount < maxRetries], so [maxRetries + 1] unrollings are enough
    (lemma [fetchPageData_total]). *)
Definition fetchPageData (net : nat -> Attempt) (path : string) (retryCount : nat) : Run :=
  fetchPageData_fuel (S maxRetries) net path retryCount.

End Fetch.

(** ** [SPARouter]: state, rendering and [navigate] *)

Module Router.

(** The object of [history.pushState] / [history.replaceState]. *)
Record HistoryEntry := { h_path : string; h_timestamp : Z; h_title : string }.

(** The fields of the router object. [None] stands for [null] and
    [undefined]. *)
Record Fields := {
  currentRoute : option string;
  cache : gmap string Json;
  preloadCache : gmap string Json;
  isNavigating : bool;
  lastFailedPath : option string
}.

(** The document and the session history. [content] stands for what
    [#spa-content] holds: the markup last assigned to its [innerHTML] (on
    the page as the server sent it, the markup it came with), [None] when
    the page has no such element. The elements the parser builds from the
    markup, and the script elements that [executePageScripts] puts in the
    place of the parsed ones, are a function of the markup and are not
    spelled out: reading [innerHTML] back need not give this string.
    [scriptSrcs] holds the [src] attributes of the [script] elements
    outside the container and [linkHrefs] the [href] attributes of the
    [link] elements outside it: those the page came with, then those
    appended to the head, in the order they were appended. The history is
    the stack of entries, the current one first. *)
Record Document := {
  content : option string;
  title : string;
  scriptSrcs : list string;
  linkHrefs : list string;
  history : list HistoryEntry
}.

(** The loading and error widgets. Each element of the DOM contract may be
    missing ([None]); for one that is there the boolean says whether it
    carries the class [hidden] (for a button: whether its [onclick] has been
    installed). *)
Record Widgets := {
  spaLoading : option bool;
  spaLoadingOverlay : option bool;
  loadingTimeout : bool;
  spaError : option bool;
  spaErrorMessage : option string;
  errorAutoHide : bool;
  retryButton : option bool;
  dismissButton : option bool
}.

Record World := {
  router : Fields;
  document : Document;
  widgets : Widgets;
  (** [window.componentPersistence] is defined *)
  hasPersistence : bool
}.

Definition with_router (f : Fields -> Fields) (w : World) : World :=
  {| router := f (router w); document := document w; widgets := widgets w;
     hasPersistence := hasPersistence w |}.

Definition with_document (f : Document -> Document) (w : World) : World :=
  {| router := router w; document := f (document w); widgets := widgets w;
     hasPersistence := hasPersistence w |}.

Definition with_widgets (f : Widgets -> Widgets) (w : World) : World :=
  {| router := router w; document := document w; widgets := f (widgets w);
     hasPersistence := hasPersistence w |}.

Definition set_isNavigating (b : bool) (r : Fields) : Fields :=
  {| currentRoute := currentRoute r; cache := cache r; preloadCache := preloadCache r;
     isNavigating := b; lastFailedPath := lastFailedPath r |}.

Definition set_lastFailedPath (p : option string) (r : Fields) : Fields :=
  {| currentRoute := currentRoute r; cache := cache r; preloadCache := preloadCache r;
     isNavigating := isNavigating r; lastFailedPath := p |}.

(** [this.cache.set(path, pageData); this.preloadCache.delete(path);
    this.currentRoute = path] *)
Definition commit (path : string) (pageData : Json) (r : Fields) : Fields :=
  {| currentRoute := Some path; cache := <[path := pageData]> (cache r);
     preloadCache := delete path (preloadCache r);
     isNavigating := isNavigating r; lastFailedPath := lastFailedPath r |}.

Definition showLoadingState (g : Widgets) : Widgets :=
  {| spaLoading := (fun _ => false) <$> spaLoading g;
     spaLoadingOverlay := spaLoadingOverlay g;
     loadingTimeout := true;
     spaError := spaError g; spaErrorMessage := spaErrorMessage g;
     errorAutoHide := errorAutoHide g;
     retryButton := retryButton g; dismissButton := dismissButton g |}.

(** At the end of a run the overlay is hidden whether or not its 500ms
    timer fired during the run. *)
Definition hideLoadingState (g : Widgets) : Widgets :=
  {| spaLoading := (fun _ => true) <$> spaLoading g;
     spaLoadingOverlay := (fun _ => true) <$> spaLoadingOverlay g;
     loadingTimeout := false;
     spaError := spaError g; spaErrorMessage := spaErrorMessage g;
     errorAutoHide := errorAutoHide g;
     retryButton := retryButton g; dismissButton := dismissButton g |}.

Definition hideErrorState (g : Widgets) : Widgets :=
  {| spaLoading := spaLoading g; spaLoadingOverlay := spaLoadingOverlay g;
     loadingTimeout := loadingTimeout g;
     spaError := (fun _ => true) <$> spaError g;
     spaErrorMessage := spaErrorMessage g;
     errorAutoHide := errorAutoHide g;
     retryButton := retryButton g; dismissButton := dismissButton g |}.

Definition defaultErrorText : string :=
  "An unexpected error occurred while loading the page.".

(** The widget part of [showErrorState(error)]. *)
Definition showErrorWidgets (message : string) (g : Widgets) : Widgets :=
  let shown :=
    match spaError g, spaErrorMessage g with
    | Some _, Some _ => true
    | _, _ => false
    end in
  {| spaLoading := spaLoading g; spaLoadingOverlay := spaLoadingOverlay g;
     loadingTimeout := loadingTimeout g;
     spaError := if shown then Some false else spaError g;
     spaErrorMessage :=
       if shown then Some (if truthy message then message else defaultErrorText)
       else spaErrorMessage g;
     errorAutoHide := if shown then true else errorAutoHide g;
     retryButton := (fun _ => true) <$> retryButton g;
     dismissButton := (fun _ => true) <$> dismissButton g |}.

(** [showErrorState(error)]: the first assignment is
    [this.lastFailedPath = this.currentRoute]. *)
Definition showErrorState (message : string) (w : World) : World :=
  with_widgets (showErrorWidgets message)
    (with_router (fun r => set_lastFailedPath (currentRoute r) r) w).

(** What the HTML parser makes of a fragment that is assigned to
    [innerHTML], as far as [renderPage] asks: the [src] attributes of its
    [script] elements and the [href] attributes of its [link] elements. *)
Record Parser := {
  scriptsIn : string -> list string;
  linksIn : string -> list string
}.

(** [loadScripts] / [loadStyles]. The test is a [document.querySelector]
    for an element with the URL as its [src] (or [href]), and it looks
    through the whole document: a URL is skipped when an element carries it
    [inside] the content container, which holds the fragment assigned just
    before, or outside it, be it from the start or appended by an earlier
    turn of the loop. The new elements go to the end of the head. (The URL
    stands between double quotes in the selector; the URLs are taken to be
    written without quotes, backslashes and line breaks.) *)
Definition loadUrls (inside urls outside : list string) : list string :=
  fold_left (fun acc url => if bool_decide (url ∈ inside ++ acc) then acc else acc ++ [url])
    urls outside.

(** [renderPage(pageData)]. [executePageScripts], its last statement,
    replaces the script elements inside the container after the two loops
    have run; the next call assigns [innerHTML] anew before it looks. *)
Definition renderPage (parser : Parser) (page : PageData) (d : Document) : Document :=
  match content d with
  | None => d
  | Some _ =>
      {| content := Some (pd_content page);
         title := if truthy (pd_title page) then pd_title page else title d;
         scriptSrcs :=
           loadUrls (scriptsIn parser (pd_content page)) (pd_scripts page) (scriptSrcs d);
         linkHrefs :=
           loadUrls (linksIn parser (pd_content page)) (pd_styles page) (linkHrefs d);
         history := history d |}
  end.

Definition entryFor (now : Z) (path : string) (page : PageData) (d : Document) : HistoryEntry :=
  {| h_path := path; h_timestamp := now;
     h_title := if truthy (pd_title page) then pd_title page else title d |}.

Definition pushState (e : HistoryEntry) (d : Document) : Document :=
  {| content := content d; title := title d; scriptSrcs := scriptSrcs d;
     linkHrefs := linkHrefs d; history := e :: history d |}.

Definition replaceState (e : HistoryEntry) (d : Document) : Document :=
  {| content := content d; title := title d; scriptSrcs := scriptSrcs d;
     linkHrefs := linkHrefs d; history := e :: tail (history d) |}.

(** What [navigate] does beside changing the world. *)
Inductive Effect :=
| Net (e : Event)
| BeforeNavigation
| AfterNavigationIn50ms.

(** [a || b] on two [Map.get] results. *)
Definition orElse (a b : option Json) : option Json :=
  match a with
  | Some (JPage _) => a
  | _ => b
  end.

(** The environment of one call: the answers of the network to the
    successive requests, the reading of [Date.now()], and the parser. *)
Record Env := { net : nat -> Attempt; now : Z; parser : Parser }.

(** The [if (pageData) { ... }] block of [navigate]. The highlighting of the
    matching [.nav-link] touches none of the fields modelled here. *)
Definition finish (env : Env) (path : string) (pushHistory isInitial : bool)
    (pageData : Json) (w : World) : World * list Effect :=
  match pageData with
  | JFalsy => (w, [])
  | JPage page =>
      let w := with_document (renderPage (parser env) page) w in
      let w := with_router (commit path pageData) w in
      let entry := entryFor (now env) path page (document w) in
      let w :=
        if pushHistory && negb isInitial then with_document (pushState entry) w
        else if isInitial then with_document (replaceState entry) w
        else w in
      (w, if hasPersistence w then [AfterNavigationIn50ms] else [])
  end.

(** [navigate(path, pushState = true, isInitial = false)], run to its end. *)
Definition navigate (env : Env) (path : string) (pushHistory isInitial : bool)
    (w : World) : option (World * list Effect) :=
  if isNavigating (router w) && negb isInitial then Some (w, [])
  else
    let w := with_router (set_isNavigating true) w in
    let w := with_widgets showLoadingState w in
    let before := if hasPersistence w && negb isInitial then [BeforeNavigation] else [] in
    let finally (r : World * list Effect) : World * list Effect :=
      (with_router (set_isNavigating false) (with_widgets hideLoadingState (fst r)),
       before ++ snd r) in
    match orElse (cache (router w) !! path) (preloadCache (router w) !! path) with
    | Some (JPage page) => Some (finally (finish env path pushHistory isInitial (JPage page) w))
    | _ =>
        match Fetch.fetchPageData (net env) path 0 with
        | None => None
        | Some (evs, Returned pageData) =>
            let r := finish env path pushHistory isInitial pageData w in
            Some (finally (fst r, map Net evs ++ snd r))
        | Some (evs, Thrown _ message) =>
            Some (finally (showErrorState message w, map Net evs))
        end
    end.

(** The path the retry button hands to [navigate]: the handler reads
    [this.lastFailedPath] when it runs and does nothing on a falsy one. *)
Definition retryTarget (w : World) : option string :=
  match retryButton (widgets w), lastFailedPath (router w) with
  | Some true, Some p => if truthy p then Some p else None
  | _, _ => None
  end.

(** A click on [#spa-error-retry]. *)
Definition clickRetry (env : Env) (w : World) : option (World * list Effect) :=
  match retryButton (widgets w) with
  | Some true =>
      let w := with_widgets hideErrorState w in
      match retryTarget w with
      | Some p => navigate env p true false w
      | None => Some (w, [])
      end
  | _ => Some (w, [])
  end.

(** [handlePopState(e)]: [statePath] is [e.state?.path] ([None] when the
    entry has no state object or the object no path) and [pathname] is
    [window.location.pathname]. *)
Definition handlePopState (env : Env) (statePath : option string) (pathname : string)
    (w : World) : option (World * list Effect) :=
  let path :=
    match statePath with
    | Some p => if truthy p then p else pathname
    | None => pathname
    end in
  if bool_decide (currentRoute (router w) = Some path) then Some (w, [])
  else
    let w :=
      if isNavigating (router w)
      then with_widgets hideLoadingState (with_router (set_isNavigating false) w)
      else w in
    navigate env path false false w.

(** The fields a constructor leaves. *)
Definition newFields : Fields :=
  {| currentRoute := None; cache := ∅; preloadCache := ∅;
     isNavigating := false; lastFailedPath := None |}.

(** [init()] on a page whose location is [pathname]: without the content
    container it logs an error and returns; otherwise it installs its
    listeners and makes the initial call of [navigate]. *)
Definition init (env : Env) (pathname : string) (w : World) : option (World * list Effect) :=
  match content (document w) with
  | None => Some (w, [])
  | Some _ => navigate env pathname false true w
  end.

(** *** Calls that overlap

    [navigate] is an [async] function. A call that finds its page in a
    cache runs to its end in one go; a call that has to fetch is suspended
    at [await this.fetchPageData(path)], and until the fetch settles other
    handlers run: clicks and retries that call [navigate], [popstate]
    events, and the rests of other suspended calls. *)

(** The arguments of a call of [navigate]. *)
Record Call := { c_path : string; c_pushState : bool; c_isInitial : bool }.

(** The page between two handlers: the world, and the calls of [navigate]
    that are suspended at their [await], the oldest first. *)
Record Session := { world : World; suspended : list Call }.

(** No call is under way. *)
Definition settledSession (w : World) : Session := {| world := w; suspended := [] |}.

(** The [finally] block of [navigate]. *)
Definition finallyBlock (w : World) : World :=
  with_router (set_isNavigating false) (with_widgets hideLoadingState w).

(** [navigate(path, pushState, isInitial)] up to its [await], or to its end
    when the guard stops it or a cache has the page. *)
Definition begin (env : Env) (c : Call) (s : Session) : Session * list Effect :=
  let w := world s in
  if isNavigating (router w) && negb (c_isInitial c) then (s, [])
  else
    let w := with_router (set_isNavigating true) w in
    let w := with_widgets showLoadingState w in
    let before := if hasPersistence w && negb (c_isInitial c) then [BeforeNavigation] else [] in
    match orElse (cache (router w) !! c_path c) (preloadCache (router w) !! c_path c) with
    | Some (JPage page) =>
        let r := finish env (c_path c) (c_pushState c) (c_isInitial c) (JPage page) w in
        ({| world := finallyBlock (fst r); suspended := suspended s |}, before ++ snd r)
    | _ => ({| world := w; suspended := suspended s ++ [c] |}, before)
    end.

(** The rest of the suspended call number [i], from the moment its
    [fetchPageData] settles the way the network of [env] makes it settle.
    It works on the world as it is by then. *)
Definition resume (env : Env) (i : nat) (s : Session) : option (Session * list Effect) :=
  match suspended s !! i with
  | None => Some (s, [])
  | Some c =>
      match Fetch.fetchPageData (net env) (c_path c) 0 with
      | None => None
      | Some (evs, outcome) =>
          let r :=
            match outcome with
            | Returned pageData =>
                finish env (c_path c) (c_pushState c) (c_isInitial c) pageData (world s)
            | Thrown _ message => (showErrorState message (world s), [])
            end in
          Some ({| world := finallyBlock (fst r); suspended := delete i (suspended s) |},
                map Net evs ++ snd r)
      end
  end.

(** [handlePopState(e)] up to the [await] of the call of [navigate] it
    makes. *)
Definition popstate (env : Env) (statePath : option string) (pathname : string)
    (s : Session) : Session * list Effect :=
  let path :=
    match statePath with
    | Some p => if truthy p then p else pathname
    | None => pathname
    end in
  if bool_decide (currentRoute (router (world s)) = Some path) then (s, [])
  else
    let w :=
      if isNavigating (router (world s))
      then with_widgets hideLoadingState (with_router (set_isNavigating false) (world s))
      else world s in
    begin env {| c_path := path; c_pushState := false; c_isInitial := false |}
      {| world := w; suspended := suspended s |}.

(** What runs next on the page. *)
Inductive Input :=
| Navigate (env : Env) (c : Call)
| PopState (env : Env) (statePath : option string) (pathname : string)
| Settle (env : Env) (i : nat).

Definition step (s : Session) (x : Input) : option (Session * list Effect) :=
  match x with
  | Navigate env c => Some (begin env c s)
  | PopState env statePath pathname => Some (popstate env statePath pathname s)
  | Settle env i => resume env i s
  end.

(** The handlers one after the other, with all their effects. *)
Fixpoint run (xs : list Input) (s : Session) : option (Session * list Effect) :=
  match xs with
  | [] => Some (s, [])
  | x :: rest =>
      match step s x with
      | None => None
      | Some (s', effects) =>
          match run rest s' with
          | None => None
          | Some (s'', effects') => Some (s'', effects ++ effects')
          end
      end
  end.

Definition set_preloadCache (m : gmap string Json) (r : Fields) : Fields :=
  {| currentRoute := currentRoute r; cache := cache r; preloadCache := m;
     isNavigating := isNavigating r; lastFailedPath := lastFailedPath r |}.

(** The router's own [preloadPage(path)], which the hover timer of
    [setupPreloading] calls. It asks only for a path neither cache has. *)
Definition known (path : string) (r : Fields) : bool :=
  bool_decide (is_Some (preloadCache r !! path)) ||
  bool_decide (is_Some (cache r !! path)).

(** What the call does once its request is answered: a plain [fetch] with
    no abort signal, so the answer counts however late it comes; whatever
    fails is logged and dropped. *)
Definition preloadAnswered (a : Attempt) (path : string) (r : Fields) : Fields :=
  match settles a with
  | Resolves response =>
      if ok response then
        match json response with
        | inr data => set_preloadCache (<[path := data]> (preloadCache r)) r
        | inl _ => r
        end
      else r
  | Rejects _ => r
  end.

(** The call run to its end, with no other code in between. *)
Definition preloadPage (a : Attempt) (path : string) (r : Fields) : Fields * list Event :=
  if known path r then (r, [])
  else (preloadAnswered a path r, [EvFetch (Fetch.endpoint path)]).

(** The hover listeners of [setupPreloading]. [preloadTimeout] is the one
    timer they share: the path it will preload and the time at which it
    fires, [None] when no timer is armed. *)
Definition preloadDelay : Z := 100.

(** The [mouseover] listener at time [t]; [closest] is the [href] of
    [e.target.closest('a[href]')]. The listener returns before
    [clearTimeout] when the link has no [href] or its fragment is known. *)
Definition mouseover (t : Z) (closest : option string) (r : Fields)
    (preloadTimeout : option (string * Z)) : option (string * Z) :=
  match closest with
  | None => preloadTimeout
  | Some href =>
      if negb (truthy href) || known href r then preloadTimeout
      else Some (href, t + preloadDelay)
  end.

(** The [mouseout] listener: [clearTimeout(preloadTimeout)]. *)
Definition mouseout (preloadTimeout : option (string * Z)) : option (string * Z) := None.

(** What happens on the page, and when: the pointer enters or leaves an
    element, or a preload request is answered. *)
Inductive Happening :=
| Over (t : Z) (closest : option string)
| Out (t : Z)
| Answer (t : Z) (path : string) (a : Attempt).

Definition timeOf (x : Happening) : Z :=
  match x with Over t _ => t | Out t => t | Answer t _ _ => t end.

(** The timer fires once its time has come; its callback is the first half
    of [preloadPage], up to the request. *)
Definition fireDue (t : Z) (st : Fields * option (string * Z))
    : (Fields * option (string * Z)) * list Event :=
  match snd st with
  | Some (href, due) =>
      if due <=? t
      then ((fst st, None),
            if known href (fst st) then [] else [EvFetch (Fetch.endpoint href)])
      else (st, [])
  | None => (st, [])
  end.

(** One happening: a timer that is due fires first. *)
Definition hoverStep (st : Fields * option (string * Z)) (x : Happening)
    : (Fields * option (string * Z)) * list Event :=
  let fired := fireDue (timeOf x) st in
  let st := fst fired in
  (match x with
   | Over t closest => (fst st, mouseover t closest (fst st) (snd st))
   | Out _ => (fst st, mouseout (snd st))
   | Answer _ path a => (preloadAnswered a path (fst st), snd st)
   end, snd fired).

(** A sequence of happenings, and then the time that passes until
    [finally]. *)
Fixpoint hover (xs : list Happening) (finally : Z) (st : Fields * option (string * Z))
    : (Fields * option (string * Z)) * list Event :=
  match xs with
  | [] => fireDue finally st
  | x :: rest =>
      let one := hoverStep st x in
      let more := hover rest finally (fst one) in
      (fst more, snd one ++ snd more)
  end.

End Router.

(** ** [SPARouter.setupNavigationInterception]: the click listener *)

Module Click.

(** What the listener reads of the [a[href]] element closest to the click
    target. *)
Record Link := {
  href : string;
  hasDownload : bool;
  target : string;
  classList : list string;
  hasDataNoSpa : bool
}.

Record Handled := { defaultPrevented : bool; navigateCalls : list string }.

Definition fallThrough : Handled := {| defaultPrevented := false; navigateCalls := [] |}.

(** The two early [return]s of the listener. *)
Definition skipped (l : Link) : bool :=
  (negb (truthy (href l)) || startsWith "#" (href l) || startsWith "mailto:" (href l) ||
   startsWith "tel:" (href l) || includes "://" (href l) ||
   hasDownload l || String.eqb (target l) "_blank")
  || (bool_decide ("external-link" ∈ classList l) || hasDataNoSpa l).

(** The listener, on a click whose target has [closest] as its nearest
    [a[href]] ancestor (if any). *)
Definition onClick (closest : option Link) : Handled :=
  match closest with
  | None => fallThrough
  | Some link =>
      if skipped link then fallThrough
      else {| defaultPrevented := true; navigateCalls := [href link] |}
  end.

(** The rule as the specification words it, for a page served from
    [origin]: a link is left to the browser exactly when it is an anchor, a
    [mailto:] or [tel:] link, an absolute URL of another origin, opens in
    a new context, carries an opt-out marker, or is a download link. *)
Definition spec_excluded (origin : string) (l : Link) : bool :=
  startsWith "#" (href l) || startsWith "mailto:" (href l) || startsWith "tel:" (href l) ||
  (includes "://" (href l) && negb (startsWith origin (href l))) ||
  String.eqb (target l) "_blank" ||
  (bool_decide ("external-link" ∈ classList l) || hasDataNoSpa l) ||
  hasDownload l.

End Click.

(** ** [IntelligentPreloader] *)

Module Preloader.

(** The defaults of [this.config]. *)
Definition hoverDelay : Z := 100.
Definition maxConcurrentPreloads : nat := 2.
Definition maxCacheSize : nat := 20.

(** An entry of [preloadQueue]: the object literal [{ href, priority, source }]. *)
Record Task := { t_href : string; t_priority : Z; t_source : string }.

(** A value of the preloader's own [preloadCache]. *)
Record Info := { i_data : Json; i_timestamp : Z; i_priority : Z; i_source : string }.

(** What [shouldPreload] reads of the link element it is given. *)
Record LinkElement := { hasDataNoPreload : bool; hasDownload : bool }.

(** The preloader object together with the router it holds (the router's two
    maps are shared, not copied) and the requests that are on the network.
    [preloadQueue] is a [Set] of object literals: every [add] makes a new
    member, in insertion order. The preloader's own [preloadCache] is a
    [Map], kept here in insertion order with one entry per key. [inFlight]
    lists the calls of [preloadPage] that are suspended at their
    [await fetch(...)]. *)
Record State := {
  router : Router.Fields;
  preloadQueue : list Task;
  preloadingInProgress : gset string;
  preloadCache : list (string * Info);
  inFlight : list Task
}.

Definition initial : State :=
  {| router := {| Router.currentRoute := None; Router.cache := ∅;
                  Router.preloadCache := ∅; Router.isNavigating := false;
                  Router.lastFailedPath := None |};
     preloadQueue := []; preloadingInProgress := ∅; preloadCache := [];
     inFlight := [] |}.

(** The exception of reading a property of [undefined]. *)
Definition undefinedHasAttribute : JsError :=
  {| err_name := "TypeError";
     err_message := "Cannot read properties of undefined (reading 'hasAttribute')" |}.

(** [shouldPreload(href, linkElement)]. [linkElement] is [None] when the
    caller passes no second argument: the parameter is then [undefined] and
    [linkElement.hasAttribute(...)] throws. *)
Definition shouldPreload (origin : string) (s : State) (href : string)
    (linkElement : option LinkElement) : JsError + bool :=
  if negb (truthy href) then inr false
  else if includes "://" href && negb (startsWith origin href) then inr false
  else if startsWith "#" href || startsWith "mailto:" href || startsWith "tel:" href
  then inr false
  else if bool_decide (is_Some (Router.cache (router s) !! href)) ||
          bool_decide (is_Some (Router.preloadCache (router s) !! href))
  then inr false
  else if bool_decide (href ∈ preloadingInProgress s) then inr false
  else
    match linkElement with
    | None => inl undefinedHasAttribute
    | Some element =>
        if hasDataNoPreload element then inr false
        else if hasDownload element then inr false
        else inr true
    end.

(** How a call of [preloadPage] goes on until it first suspends or ends. *)
Inductive Started :=
| NotEligible
| Rejected (error : JsError)
| Queued
| Fetching (url : string).

Definition enqueue (t : Task) (s : State) : State :=
  {| router := router s; preloadQueue := preloadQueue s ++ [t];
     preloadingInProgress := preloadingInProgress s; preloadCache := preloadCache s;
     inFlight := inFlight s |}.

Definition begin (t : Task) (s : State) : State :=
  {| router := router s; preloadQueue := preloadQueue s;
     preloadingInProgress := {[ t_href t ]} ∪ preloadingInProgress s;
     preloadCache := preloadCache s;
     inFlight := inFlight s ++ [t] |}.

(** [preloadPage(href, priority = 3, source = 'manual')] up to its
    [await fetch(...)]. Its first statement is
    [if (!this.shouldPreload(href)) return;] with one argument. *)
Definition preloadPage (origin : string) (t : Task) (s : State) : State * Started :=
  match shouldPreload origin s (t_href t) None with
  | inl error => (s, Rejected error)
  | inr false => (s, NotEligible)
  | inr true =>
      if (maxConcurrentPreloads <=? size (preloadingInProgress s))%nat then
        (enqueue t s, Queued)
      else
        (begin t s, Fetching (Fetch.endpoint (t_href t)))
  end.

(** [preloadNow(href)] *)
Definition preloadNow (origin : string) (href : string) (s : State) : State * Started :=
  preloadPage origin {| t_href := href; t_priority := 1; t_source := "manual" |} s.

Definition task_eqb (a b : Task) : bool :=
  String.eqb (t_href a) (t_href b) && (t_priority a =? t_priority b) &&
  String.eqb (t_source a) (t_source b).

(** [Set.delete] of the first member that looks like [t]. *)
Fixpoint removeFirst (t : Task) (q : list Task) : list Task :=
  match q with
  | [] => []
  | u :: rest => if task_eqb t u then rest else u :: removeFirst t rest
  end.

Definition dequeue (t : Task) (s : State) : State :=
  {| router := router s; preloadQueue := removeFirst t (preloadQueue s);
     preloadingInProgress := preloadingInProgress s; preloadCache := preloadCache s;
     inFlight := inFlight s |}.

(** [processPreloadQueue()]; the call of [preloadPage] it ends with is
    reported as [Some]. *)
Definition processPreloadQueue (origin : string) (s : State) : State * option (Task * Started) :=
  if (length (preloadQueue s) =? 0)%nat then (s, None)
  else if (maxConcurrentPreloads <=? size (preloadingInProgress s))%nat then (s, None)
  else
    match sortBy t_priority (preloadQueue s) with
    | [] => (s, None)
    | next :: _ =>
        let r := preloadPage origin next (dequeue next s) in
        (fst r, Some (next, snd r))
    end.

(** [Map.delete] *)
Definition mapDelete {V : Type} (k : string) (m : list (string * V)) : list (string * V) :=
  filter (fun kv => fst kv <> k) m.

Definition setRouterPreloadCache (m : gmap string Json) (r : Router.Fields) : Router.Fields :=
  {| Router.currentRoute := Router.currentRoute r; Router.cache := Router.cache r;
     Router.preloadCache := m; Router.isNavigating := Router.isNavigating r;
     Router.lastFailedPath := Router.lastFailedPath r |}.

(** The two [set]s after a successful answer. *)
Definition store (now : Z) (t : Task) (data : Json) (s : State) : State :=
  {| router := setRouterPreloadCache (<[t_href t := data]> (Router.preloadCache (router s)))
                 (router s);
     preloadQueue := preloadQueue s;
     preloadingInProgress := preloadingInProgress s;
     preloadCache :=
       objSet (t_href t)
         {| i_data := data; i_timestamp := now; i_priority := t_priority t;
            i_source := t_source t |} (preloadCache s);
     inFlight := inFlight s |}.

(** The [finally] block before it calls [processPreloadQueue]: the answered
    call [i] leaves the network and its path leaves the set. *)
Definition release (i : nat) (t : Task) (s : State) : State :=
  {| router := router s; preloadQueue := preloadQueue s;
     preloadingInProgress := preloadingInProgress s ∖ {[ t_href t ]};
     preloadCache := preloadCache s;
     inFlight := take i (inFlight s) ++ drop (S i) (inFlight s) |}.

(** The rest of the call of [preloadPage] that is suspended as [inFlight]
    number [i], once its request is answered with [answer] at time [now]. A
    response that is not [ok], a rejected [fetch] and a body that does not
    parse store nothing; the [finally] block runs in every case. *)
Definition settle (origin : string) (now : Z) (i : nat) (answer : Settled) (s : State)
    : State * option (Task * Started) :=
  match inFlight s !! i with
  | None => (s, None)
  | Some t =>
      let s :=
        match answer with
        | Resolves response =>
            if ok response then
              match json response with
              | inr data => store now t data s
              | inl _ => s
              end
            else s
        | Rejects _ => s
        end in
      processPreloadQueue origin (release i t s)
  end.

(** The callback of [setInterval] in [cleanupCache]. *)
Definition toRemove (s : State) : list (string * Info) :=
  let entries := sortBy (fun e => i_timestamp (snd e)) (preloadCache s) in
  take (length entries - maxCacheSize) entries.

Definition evict (href : string) (s : State) : State :=
  {| router := setRouterPreloadCache (delete href (Router.preloadCache (router s))) (router s);
     preloadQueue := preloadQueue s;
     preloadingInProgress := preloadingInProgress s;
     preloadCache := mapDelete href (preloadCache s);
     inFlight := inFlight s |}.

Definition cleanupCache (s : State) : State :=
  if (length (preloadCache s) <=? maxCacheSize)%nat then s
  else fold_left (fun s e => evict (fst e) s) (toRemove s) s.

(** What happens to a preloader: a hover or visibility timer (or a direct
    call) runs [preloadPage]; a request is answered; the cleanup interval
    fires. *)
Inductive Input :=
| Call (t : Task)
| Answer (i : nat) (answer : Settled) (now : Z)
| Cleanup.

Definition step (origin : string) (s : State) (x : Input) : State :=
  match x with
  | Call t => fst (preloadPage origin t s)
  | Answer i answer now => fst (settle origin now i answer s)
  | Cleanup => cleanupCache s
  end.

Definition run (origin : string) (xs : list Input) (s : State) : State :=
  fold_left (step origin) xs s.

(** The preloader holds the router of the page, and between its own steps
    the router runs code of its own on its fields: a navigation, a hover
    preload of [setupPreloading]. *)
Inductive Happening :=
| Own (x : Input)
| OfRouter (act : Router.Fields -> Router.Fields).

Definition setRouter (r : Router.Fields) (s : State) : State :=
  {| router := r; preloadQueue := preloadQueue s;
     preloadingInProgress := preloadingInProgress s; preloadCache := preloadCache s;
     inFlight := inFlight s |}.

Definition happen (origin : string) (s : State) (h : Happening) : State :=
  match h with
  | Own x => step origin s x
  | OfRouter act => setRouter (act (router s)) s
  end.

Definition session (origin : string) (hs : list Happening) (s : State) : State :=
  fold_left (happen origin) hs s.

(** The router's own [preloadPage(path)], from the call to the answer [a]
    of the request it makes. *)
Definition routerPreload (a : Attempt) (path : string) : Happening :=
  OfRouter (fun r => fst (Router.preloadPage a path r)).

End Preloader.

(** ** [ComponentPersistence]: snapshot and restore of a chrome region *)

Module Persistence.

(** What [FormData] and the [value] setter make of an element: no form
    control; a text field (an [input] of type [text], [search], [tel] or
    [password]), which has a current value of its own; a checkbox or radio
    button, whose value is its [value] attribute. A control may be
    disabled. The other controls ([select], [textarea], hidden and file
    inputs, buttons) are not among the elements of the model. *)
Inductive Control :=
| NotControl
| Field (disabled : bool)
| Checkable (checked disabled : bool).

#[global] Instance Control_eq_dec : EqDecision Control.
Proof. solve_decision. Defined.

(** An HTML element. [tag] is the tag name in lower case; [id] is empty
    when the attribute is absent; [className] is the text of the [class]
    attribute, empty when it is absent; [attributes] holds the attributes
    other than [id], [class] and [style], the [value] attribute of a
    control among them; [cssText] is the inline style and [value] the
    current value of a text field. *)
Record Element := {
  tag : string;
  id : string;
  className : string;
  attributes : list (string * string);
  cssText : string;
  value : string;
  control : Control
}.

#[global] Instance Element_eq_dec : EqDecision Element.
Proof. solve_decision. Defined.

(** [element.classList]: the tokens of the [class] attribute, each once. *)
Definition classList (e : Element) : list string := classTokens (className e).

#[warnings="-register-all"]
Inductive Tree := Node (element : Element) (children : list Tree).

Definition root (t : Tree) : Element := match t with Node e _ => e end.
Definition childrenOf (t : Tree) : list Tree := match t with Node _ ch => ch end.

(** A persistent region: the scroll offsets of the region element and the
    trees below it. *)
Record Region := { scrollTop : Z; scrollLeft : Z; below : list Tree }.

(** Every node below, in document order, with its own subtree. *)
Fixpoint subtrees (t : Tree) : list Tree :=
  match t with
  | Node e ch => t :: flat_map subtrees ch
  end.

Definition nodes (forest : list Tree) : list Tree := flat_map subtrees forest.
Definition descendants (forest : list Tree) : list Element := root <$> nodes forest.

Definition getAttribute (n : string) (e : Element) : option string :=
  snd <$> find (fun a => String.eqb n (fst a)) (attributes e).

Definition hasAttribute (n : string) (e : Element) : bool :=
  bool_decide (is_Some (getAttribute n e)).

Definition hasClass (c : string) (e : Element) : bool := bool_decide (c ∈ classList e).

(** ['.active, .nav-link.active, [aria-current="page"]'] *)
Definition isActive (e : Element) : bool :=
  hasClass "active" e || (hasClass "nav-link" e && hasClass "active" e) ||
  bool_decide (getAttribute "aria-current" e = Some "page").

(** ['form'] *)
Definition isForm (e : Element) : bool := String.eqb (tag e) "form".

(** ['[data-toggle], .collapsed, .expanded'] *)
Definition isToggle (e : Element) : bool :=
  hasAttribute "data-toggle" e || hasClass "collapsed" e || hasClass "expanded" e.

(** The selectors that are put together from strings at run time:
    [#i]; the tag [t] followed by a dot and a name for every member of
    [classes]; [[name="n"]]; and the two fixed ones. *)
Inductive Selector :=
| ById (i : string)
| ByTag (t : string) (classes : list string)
| ByName (n : string)
| DataToggle
| AnyForm.

Definition doubleQuote : string := String (ascii_of_nat 34) EmptyString.

(** The text of the selector, as the code writes it. *)
Definition text (sel : Selector) : string :=
  match sel with
  | ById i => "#" +:+ i
  | ByTag t classes => t +:+ String.concat "" ((fun c => "." +:+ c) <$> classes)
  | ByName n => "[name=" +:+ doubleQuote +:+ n +:+ doubleQuote +:+ "]"
  | DataToggle => "[data-toggle]"
  | AnyForm => "form"
  end.

Definition isLetter (c : ascii) : bool :=
  let n := nat_of_ascii c in
  (((65 <=? n) && (n <=? 90)) || ((97 <=? n) && (n <=? 122)) || (n =? 95))%nat.

Definition isIdentChar (c : ascii) : bool :=
  let n := nat_of_ascii c in
  (isLetter c || ((48 <=? n) && (n <=? 57)) || (n =? 45))%nat.

Fixpoint allChars (p : ascii -> bool) (s : string) : bool :=
  match s with
  | EmptyString => true
  | String c rest => p c && allChars p rest
  end.

(** A string that stands for itself as an identifier in a selector: a
    letter or underscore, then letters, digits, hyphens and underscores. *)
Definition plainIdent (s : string) : bool :=
  match s with
  | EmptyString => false
  | String c rest => isLetter c && allChars isIdentChar rest
  end.

(** A string that stands for itself between the quotes of [[name="..."]]. *)
Definition plainValue (s : string) : bool :=
  allChars (fun c => let n := nat_of_ascii c in
                     ((32 <=? n) && (n <? 127) && negb (n =? 34) && negb (n =? 92))%nat) s.

(** Whether the text of the selector is the selector it is meant to be.
    Text built from another string may be rejected by the browser (a
    [SyntaxError] for the class [font-[405]], and for a selector that ends
    in a dot) or read as another selector (the classes [a] and [b] for the
    token [a.b]); the model follows such a selector no further. *)
Definition parses (sel : Selector) : bool :=
  match sel with
  | ById i => plainIdent i
  | ByTag t classes => plainIdent t && forallb plainIdent classes
  | ByName n => plainValue n
  | DataToggle | AnyForm => true
  end.

Definition matches (sel : Selector) (e : Element) : bool :=
  match sel with
  | ById i => String.eqb (id e) i
  | ByTag t classes => String.eqb (tag e) t && forallb (fun c => hasClass c e) classes
  | ByName n => bool_decide (getAttribute "name" e = Some n)
  | DataToggle => hasAttribute "data-toggle" e
  | AnyForm => isForm e
  end.

(** [getElementSelector(element)]. The second test is on the text of the
    [class] attribute. When that text is white space only, the class list
    is empty, [Array.from(element.classList).join('.')] is the empty
    string and the selector is the tag followed by a dot: a dot with the
    empty name after it. *)
Definition getElementSelector (e : Element) : Selector :=
  if truthy (id e) then ById (id e)
  else if truthy (className e) then
    ByTag (tag e) (match classList e with [] => [""] | classes => classes end)
  else ByTag (tag e) [].

(** [getElementAttributes(element)] *)
Definition whitelisted (n : string) : bool :=
  startsWith "data-" n || String.eqb n "aria-current".

Definition getElementAttributes (e : Element) : list (string * string) :=
  fold_left (fun attrs a => if whitelisted (fst a) then objSet (fst a) (snd a) attrs else attrs)
    (attributes e) [].

(** [generateComponentId(selector)] for the two selectors it is called with
    in [captureComponentState], ['form'] and ['toggle'], neither of which
    has a character to replace; [now] is the reading of [Date.now()]. *)
Definition generateComponentId (selector : string) (now : Z) : string :=
  "component_" +:+ selector +:+ "_" +:+ ofZ now.

Record ActiveInfo := {
  a_selector : Selector;
  a_classes : list string;
  a_attributes : list (string * string)
}.

Record ToggleInfo := {
  g_classes : list string;
  g_attributes : list (string * string);
  g_style : string
}.

Record State := {
  scrollPosition : Z * Z;
  activeElements : list ActiveInfo;
  formData : list (string * list (string * string));
  customData : list (string * ToggleInfo)
}.

(** The entries of [new FormData(form)]: the named controls below the form
    that are successful, in document order. *)
Definition submits (e : Element) : option (string * string) :=
  match control e, getAttribute "name" e with
  | Field false, Some n => if truthy n then Some (n, value e) else None
  | Checkable true false, Some n =>
      if truthy n then Some (n, default "on" (getAttribute "value" e)) else None
  | _, _ => None
  end.

Definition formEntries (form : Tree) : list (string * string) :=
  omap submits (descendants (childrenOf form)).

(** The nodes of [l] whose element satisfies [p], in document order, each
    with the key it is stored under and its position in [l] (counted from
    [i]). The key is the element's [id], or for an element without one the
    generated id made from the next reading of the clock; [k] counts the
    readings made so far. *)
Fixpoint keyed (what : string) (clock : nat -> Z) (p : Element -> bool)
    (k i : nat) (l : list Tree) : list (string * (nat * Tree)) :=
  match l with
  | [] => []
  | t :: rest =>
      if p (root t) then
        if truthy (id (root t)) then
          (id (root t), (i, t)) :: keyed what clock p k (S i) rest
        else
          (generateComponentId what (clock k), (i, t)) :: keyed what clock p (S k) (S i) rest
      else keyed what clock p k (S i) rest
  end.

(** The readings of the clock that [keyed] makes. *)
Definition readings (p : Element -> bool) (l : list Tree) : nat :=
  length (filter (fun t => p (root t) && negb (truthy (id (root t)))) l).

Definition activeInfo (link : Element) : ActiveInfo :=
  {| a_selector := getElementSelector link;
     a_classes := classList link;
     a_attributes := getElementAttributes link |}.

Definition toggleInfo (toggle : Element) : ToggleInfo :=
  {| g_classes := classList toggle;
     g_attributes := getElementAttributes toggle;
     g_style := cssText toggle |}.

(** The assignments [state.formData[formId] = ...] and
    [state.customData[toggleId] = ...] of a capture, in order. *)
Definition formAssignments (clock : nat -> Z) (forest : list Tree)
    : list (string * list (string * string)) :=
  (fun x => (fst x, fromEntries (formEntries (snd (snd x))))) <$>
    keyed "form" clock isForm 0 0 (nodes forest).

Definition toggleAssignments (clock : nat -> Z) (forest : list Tree)
    : list (string * ToggleInfo) :=
  (fun x => (fst x, toggleInfo (root (snd (snd x))))) <$>
    keyed "toggle" clock isToggle (readings isForm (nodes forest)) 0 (nodes forest).

(** [captureComponentState(element)]; [clock k] is what the call number [k]
    of [Date.now()] returns. *)
Definition captureComponentState (clock : nat -> Z) (r : Region) : State :=
  {| scrollPosition := (scrollTop r, scrollLeft r);
     activeElements := activeInfo <$> filter isActive (descendants (below r));
     formData := fromEntries (formAssignments clock (below r));
     customData := fromEntries (toggleAssignments clock (below r)) |}.

(** *** Writes *)

Definition setClassName (s : string) (e : Element) : Element :=
  {| tag := tag e; id := id e; className := s; attributes := attributes e;
     cssText := cssText e; value := value e; control := control e |}.

(** [element.setAttribute(name, value)], for a name other than [id],
    [class] and [style]. *)
Definition setAttribute (n v : string) (e : Element) : Element :=
  {| tag := tag e; id := id e; className := className e;
     attributes := objSet n v (attributes e);
     cssText := cssText e; value := value e; control := control e |}.

Definition setCssText (s : string) (e : Element) : Element :=
  {| tag := tag e; id := id e; className := className e; attributes := attributes e;
     cssText := s; value := value e; control := control e |}.

(** The characters a text field drops from a value it is given. *)
Definition isLineBreak (c : ascii) : bool :=
  let n := nat_of_ascii c in ((n =? 10) || (n =? 13))%nat.

Fixpoint stripLineBreaks (s : string) : string :=
  match s with
  | EmptyString => EmptyString
  | String c rest =>
      if isLineBreak c then stripLineBreaks rest else String c (stripLineBreaks rest)
  end.

(** [input.value = v]. A text field, disabled or not, takes the value
    without its line breaks; on a checkbox or radio button the assignment
    writes the [value] attribute; on an element that is no control it
    makes a property of the script object and leaves the document alone. *)
Definition setValue (v : string) (e : Element) : Element :=
  match control e with
  | NotControl => e
  | Field _ =>
      {| tag := tag e; id := id e; className := className e; attributes := attributes e;
         cssText := cssText e; value := stripLineBreaks v; control := control e |}
  | Checkable _ _ => setAttribute "value" v e
  end.

Definition onRoot (f : Element -> Element) (t : Tree) : Tree :=
  match t with Node e ch => Node (f e) ch end.

(** Replace the first member that [f] changes. *)
Definition firstOf {A : Type} (f : A -> option A) : list A -> option (list A) :=
  fix go (l : list A) : option (list A) :=
    match l with
    | [] => None
    | x :: rest =>
        match f x with
        | Some x' => Some (x' :: rest)
        | None => cons x <$> go rest
        end
    end.

(** Apply [g] to the first node, in document order, whose element
    satisfies [p]. *)
Fixpoint updTree (p : Element -> bool) (g : Tree -> Tree) (t : Tree) : option Tree :=
  match t with
  | Node e ch => if p e then Some (g t) else Node e <$> firstOf (updTree p g) ch
  end.

Definition updForest (p : Element -> bool) (g : Tree -> Tree) (forest : list Tree)
    : option (list Tree) :=
  firstOf (updTree p g) forest.

(** [querySelector]: the first node, in document order, that matches. *)
Definition querySelector (p : Element -> bool) (forest : list Tree) : option Tree :=
  find (fun t => p (root t)) (nodes forest).

(** A write through [querySelector(sel)]: nothing happens when nothing
    matches. *)
Definition writeFirst (p : Element -> bool) (g : Tree -> Tree) (forest : list Tree) : list Tree :=
  default forest (updForest p g forest).

(** The result of a restore: the region it leaves, or the selector at which
    the model stops (see [parses]). *)
Inductive Restored (A : Type) : Type :=
| Done (a : A)
| NotModelled (sel : Selector).
Arguments Done {A} a.
Arguments NotModelled {A} sel.

Definition andThen {A B : Type} (x : Restored A) (f : A -> Restored B) : Restored B :=
  match x with
  | Done a => f a
  | NotModelled sel => NotModelled sel
  end.

(** [forEach] over the entries of a snapshot, each step a write. *)
Definition forEach {A X : Type} (f : X -> A -> Restored A) (xs : list X) (a : A) : Restored A :=
  fold_left (fun acc x => andThen acc (f x)) xs (Done a).

Definition setAttributes (attrs : list (string * string)) (e : Element) : Element :=
  fold_left (fun e a => setAttribute (fst a) (snd a) e) attrs e.

Definition restoreActive (info : ActiveInfo) (forest : list Tree) : Restored (list Tree) :=
  if parses (a_selector info) then
    Done (writeFirst (matches (a_selector info))
            (onRoot (fun e => setAttributes (a_attributes info)
                                (setClassName (join " " (a_classes info)) e)))
            forest)
  else NotModelled (a_selector info).

(** [form.querySelector(`[name="${name}"]`)] looks below the form. *)
Definition restoreField (field : string * string) (form : Tree) : Restored Tree :=
  if parses (ByName (fst field)) then
    Done (Node (root form)
            (writeFirst (matches (ByName (fst field))) (onRoot (setValue (snd field)))
               (childrenOf form)))
  else NotModelled (ByName (fst field)).

(** [querySelector(`#${key}`) || querySelector(fallback)] and a change [g]
    of the node found. *)
Definition restoreKeyed (key : string) (fallback : Selector)
    (g : Tree -> Restored Tree) (forest : list Tree) : Restored (list Tree) :=
  if parses (ById key) then
    let p := if bool_decide (is_Some (querySelector (matches (ById key)) forest))
             then matches (ById key) else matches fallback in
    match querySelector p forest with
    | None => Done forest
    | Some found => andThen (g found) (fun found' => Done (writeFirst p (fun _ => found') forest))
    end
  else NotModelled (ById key).

Definition restoreForm (entry : string * list (string * string)) (forest : list Tree)
    : Restored (list Tree) :=
  restoreKeyed (fst entry) AnyForm (forEach restoreField (snd entry)) forest.

Definition restoreToggle (entry : string * ToggleInfo) (forest : list Tree)
    : Restored (list Tree) :=
  restoreKeyed (fst entry) DataToggle
    (fun t =>
       let data := snd entry in
       let e := setAttributes (g_attributes data)
                  (setClassName (join " " (g_classes data)) (root t)) in
       Done (Node (if truthy (g_style data) then setCssText (g_style data) e else e)
               (childrenOf t)))
    forest.

(** [restoreComponentState(element, state)]; a region that stays as it is
    takes every scroll offset it had. *)
Definition restoreComponentState (r : Region) (state : State) : Restored Region :=
  andThen (forEach restoreActive (activeElements state) (below r)) (fun forest =>
  andThen (forEach restoreForm (formData state) forest) (fun forest =>
  andThen (forEach restoreToggle (customData state) forest) (fun forest =>
  Done {| scrollTop := fst (scrollPosition state);
          scrollLeft := snd (scrollPosition state);
          below := forest |}))).

(** *** Regions on which every re-query finds its element *)

(** The position of the first member that satisfies [p]. *)
Fixpoint indexOf {A : Type} (p : A -> bool) (l : list A) : option nat :=
  match l with
  | [] => None
  | x :: rest => if p x then Some O else S <$> indexOf p rest
  end.

(** The position, in document order, of the node [querySelector(sel)]
    returns. *)
Definition firstIndex (sel : Selector) (forest : list Tree) : option nat :=
  indexOf (fun t => matches sel (root t)) (nodes forest).

(** The same for [querySelector(`#${key}`) || querySelector(fallback)]. *)
Definition targetIndex (key : string) (fallback : Selector) (forest : list Tree) : option nat :=
  match firstIndex (ById key) forest with
  | Some i => Some i
  | None => firstIndex fallback forest
  end.

(** [f i x] for every member [x] of [l], [i] being its position counted
    from [k]. *)
Fixpoint allFrom {A : Type} (k : nat) (f : nat -> A -> bool) (l : list A) : bool :=
  match l with
  | [] => true
  | x :: rest => f k x && allFrom (S k) f rest
  end.

(** What the DOM guarantees of an element: no attribute occurs twice, and
    the value of a text field holds no line break. *)
Definition validElement (e : Element) : bool :=
  bool_decide (NoDup (fst <$> attributes e)) &&
  match control e with
  | Field _ => String.eqb (stripLineBreaks (value e)) (value e)
  | _ => true
  end.

Definition wellFormed (forest : list Tree) : bool :=
  forallb validElement (descendants forest).

(** The [class] attribute reads the way [className = classes.join(' ')]
    writes it: the tokens, each once, with one space between them. *)
Definition tidyClass (e : Element) : bool :=
  String.eqb (className e) (join " " (classList e)).

(** The selector recorded for an active element finds that element, or an
    earlier one that is its like in tag, id, class, attributes and the
    rest; and the class attribute of the element is tidy. *)
Definition activeFound (forest : list Tree) : bool :=
  forallb
    (fun t =>
       implb (isActive (root t))
         (parses (getElementSelector (root t)) && tidyClass (root t) &&
          bool_decide (root <$> querySelector (matches (getElementSelector (root t))) forest
                       = Some (root t))))
    (nodes forest).

(** Assigning to the control the value it submits writes nothing new: a
    checkbox or radio button without a [value] attribute submits [on] and
    would be given the attribute. *)
Definition keepsValue (e : Element) : bool :=
  match control e with
  | Checkable _ _ => hasAttribute "value" e
  | _ => true
  end.

(** The key of a form finds that form, and inside it the name of each
    successful control finds that control. *)
Definition fieldsFound (form : Tree) : bool :=
  allFrom 0
    (fun j t =>
       match submits (root t) with
       | Some (n, _) => parses (ByName n) &&
                        bool_decide (firstIndex (ByName n) (childrenOf form) = Some j) &&
                        keepsValue (root t)
       | None => true
       end)
    (nodes (childrenOf form)).

Definition formsFound (clock : nat -> Z) (forest : list Tree) : bool :=
  forallb (fun x => parses (ById (fst x)) &&
                    bool_decide (targetIndex (fst x) AnyForm forest = Some (fst (snd x))) &&
                    fieldsFound (snd (snd x)))
    (keyed "form" clock isForm 0 0 (nodes forest)).

(** The key of a toggle element finds that element, and the class
    attribute of the element is tidy. *)
Definition togglesFound (clock : nat -> Z) (forest : list Tree) : bool :=
  forallb (fun x => parses (ById (fst x)) &&
                    bool_decide (targetIndex (fst x) DataToggle forest = Some (fst (snd x))) &&
                    tidyClass (root (snd (snd x))))
    (keyed "toggle" clock isToggle (readings isForm (nodes forest)) 0 (nodes forest)).

(** Every selector, key and field name that a snapshot of the region
    records leads back, when it is queried again, to the node it was
    recorded for (for an active element: to that node or to its like), and
    what the snapshot holds of a node is what a write of it leaves. *)
Definition stable (clock : nat -> Z) (r : Region) : bool :=
  wellFormed (below r) && activeFound (below r) &&
  formsFound clock (below r) && togglesFound clock (below r).

End Persistence.

(** ** [SPARouter.normalizePath] and [SPARouter.updateActiveNavigation] *)

Module Nav.

(** [s.replace(/\/+$/, '')]: the string without the slashes it ends
    with. *)
Fixpoint stripSlashes (s : string) : string :=
  match s with
  | EmptyString => EmptyString
  | String c rest =>
      let rest' := stripSlashes rest in
      if Ascii.eqb c "/" && String.eqb rest' "" then EmptyString else String c rest'
  end.

(** [normalizePath(path)]. [pathnameOf path] is the [pathname] of
    [new URL(path, window.location.origin)], [None] when the constructor
    throws; the [catch] block then works on [path] itself. *)
Definition normalizePath (pathnameOf : string -> option string) (path : string) : string :=
  let stripped :=
    match pathnameOf path with
    | Some pathname => stripSlashes pathname
    | None => stripSlashes path
    end in
  if truthy stripped then stripped else "/".

(** What [updateActiveNavigation] reads and writes of an element of class
    [nav-link]: its [href] attribute ([None] when it has none), its class
    list, and whether it has a [ul] ancestor. *)
Record NavLink := { href : option string; classList : list string; insideList : bool }.

(** The navigation of the page: the elements of class [nav-link] in document
    order, and for [#active-background], when the page has it, the link on
    whose rectangle it was last placed. *)
Record Bar := { navLinks : list NavLink; activeBackground : option (option nat) }.

Definition activeClasses : list string :=
  ["active"; "text-neutral-950"; "font-[405]"; "dark:text-white"].

(** [classList.remove(...tokens)] *)
Definition removeClasses (tokens : list string) (l : NavLink) : NavLink :=
  {| href := href l;
     classList := List.filter (fun c => negb (bool_decide (c ∈ tokens))) (classList l);
     insideList := insideList l |}.

(** [classList.add(...tokens)]: a token the list has is not added again. *)
Definition addClasses (tokens : list string) (l : NavLink) : NavLink :=
  {| href := href l;
     classList :=
       fold_left (fun cs c => if bool_decide (c ∈ cs) then cs else cs ++ [c]) tokens (classList l);
     insideList := insideList l |}.

(** The test of [Array.from(navLinks).find(...)]. *)
Definition linksTo (pathnameOf : string -> option string) (path : string) (l : NavLink) : bool :=
  match href l with
  | Some h => truthy h && String.eqb (normalizePath pathnameOf h) (normalizePath pathnameOf path)
  | None => false
  end.

(** The position of the first member that satisfies [q]. *)
Fixpoint findIndex {A : Type} (q : A -> bool) (l : list A) : option nat :=
  match l with
  | [] => None
  | x :: rest => if q x then Some O else S <$> findIndex q rest
  end.

(** Reading [getBoundingClientRect] of the [null] that [closest('ul')]
    returned. *)
Definition noListAncestor : JsError :=
  {| err_name := "TypeError";
     err_message := "Cannot read properties of null (reading 'getBoundingClientRect')" |}.

(** [updateActiveNavigation(path)]: the navigation it leaves and the
    exception it ends with, if any. *)
Definition updateActiveNavigation (pathnameOf : string -> option string) (path : string)
    (b : Bar) : Bar * option JsError :=
  let cleared := removeClasses activeClasses <$> navLinks b in
  match findIndex (linksTo pathnameOf path) cleared, activeBackground b with
  | Some i, Some placed =>
      let marked := alter (addClasses activeClasses) i cleared in
      match insideList <$> cleared !! i with
      | Some true => ({| navLinks := marked; activeBackground := Some (Some i) |}, None)
      | _ => ({| navLinks := marked; activeBackground := Some placed |}, Some noListAncestor)
      end
  | _, _ => ({| navLinks := cleared; activeBackground := activeBackground b |}, None)
  end.

End Nav.

(** ** [SPARouter.navigate] with the highlighting of the navigation *)

Module Page.

(** The world of [Router] together with the navigation links. The links
    are those of the chrome: [querySelectorAll('.nav-link')] looks through
    the whole document, and the pages modelled here are those whose
    fragments hold no element of that class, so that rendering a page
    leaves the links as they are. *)
Record World := { base : Router.World; bar : Nav.Bar }.

(** [navigate(path, pushState, isInitial)] with its call of
    [updateActiveNavigation(path)], which comes after the page is rendered,
    cached and written to the history and before [afterNavigation] is
    scheduled. An exception of that call is caught by the [catch] block of
    [navigate] like any other. *)
Definition navigate (pathnameOf : string -> option string) (env : Router.Env) (path : string)
    (pushHistory isInitial : bool) (w : World) : option (World * list Router.Effect) :=
  if Router.isNavigating (Router.router (base w)) && negb isInitial then Some (w, [])
  else
    let w0 := Router.with_widgets Router.showLoadingState
                (Router.with_router (Router.set_isNavigating true) (base w)) in
    let before :=
      if Router.hasPersistence w0 && negb isInitial then [Router.BeforeNavigation] else [] in
    let finally (r : World * list Router.Effect) : World * list Router.Effect :=
      ({| base := Router.with_router (Router.set_isNavigating false)
                    (Router.with_widgets Router.hideLoadingState (base (fst r)));
          bar := bar (fst r) |},
       before ++ snd r) in
    let rendered (evs : list Event) (pageData : Json) : World * list Router.Effect :=
      match pageData with
      | JFalsy => ({| base := w0; bar := bar w |}, map Router.Net evs)
      | JPage page =>
          let done := Router.finish env path pushHistory isInitial pageData w0 in
          let marked := Nav.updateActiveNavigation pathnameOf path (bar w) in
          match snd marked with
          | None => ({| base := fst done; bar := fst marked |}, map Router.Net evs ++ snd done)
          | Some error =>
              ({| base := Router.showErrorState (err_message error) (fst done);
                  bar := fst marked |},
               map Router.Net evs)
          end
      end in
    match Router.orElse (Router.cache (Router.router w0) !! path)
            (Router.preloadCache (Router.router w0) !! path) with
    | Some (JPage page) => Some (finally (rendered [] (JPage page)))
    | _ =>
        match Fetch.fetchPageData (Router.net env) path 0 with
        | None => None
        | Some (evs, Returned pageData) => Some (finally (rendered evs pageData))
        | Some (evs, Thrown _ message) =>
            Some (finally ({| base := Router.showErrorState message w0; bar := bar w |},
                           map Router.Net evs))
        end
    end.

End Page.

(** ** [ComponentPersistence]: the registry of persistent components *)

Module Registry.

(** The seven selectors of [identifyStaticComponents]. *)
Inductive StaticSelector :=
| Id (i : string)
| Class (c : string)
| Persist.

Definition staticSelectors : list StaticSelector :=
  [Id "sidebar"; Id "topbar"; Id "footer";
   Class "sidebar"; Class "topbar"; Class "footer"; Persist].

Definition doubleQuote : string := String (ascii_of_nat 34) EmptyString.

(** The text of a selector. *)
Definition text (sel : StaticSelector) : string :=
  match sel with
  | Id i => "#" +:+ i
  | Class c => "." +:+ c
  | Persist => "[data-persist=" +:+ doubleQuote +:+ "true" +:+ doubleQuote +:+ "]"
  end.

Definition matchesStatic (sel : StaticSelector) (e : Persistence.Element) : bool :=
  match sel with
  | Id i => String.eqb (Persistence.id e) i
  | Class c => Persistence.hasClass c e
  | Persist => bool_decide (Persistence.getAttribute "data-persist" e = Some "true")
  end.

(** An element that one of the selectors may match: the element itself and
    the region it spans. *)
Record Node := { own : Persistence.Element; inner : Persistence.Region }.

(** The elements the registry can get hold of, each under its identity,
    and those of them that are in the document, in document order. An
    element that was taken out of the document is still there for whoever
    holds a reference to it. None of the elements lies inside another. *)
Record Dom := { elements : gmap nat Node; attached : list nat }.

(** A value of [staticComponents]; the [html] field, which is written and
    never read, is left out. *)
Record Component := {
  element : nat;
  selector : StaticSelector;
  state : Persistence.State
}.

(** The two maps of the object, in insertion order. *)
Record Fields := {
  staticComponents : list (string * Component);
  componentStates : list (string * Persistence.State)
}.

(** The constructor's maps. *)
Definition empty : Fields := {| staticComponents := []; componentStates := [] |}.

(** [Map.has] and [Map.get] *)
Definition has {V : Type} (k : string) (m : list (string * V)) : bool :=
  bool_decide (k ∈ fst <$> m).

Definition get {V : Type} (k : string) (m : list (string * V)) : option V :=
  snd <$> find (fun kv => String.eqb k (fst kv)) m.

Definition isAlnum (c : ascii) : bool :=
  let n := nat_of_ascii c in
  (((48 <=? n) && (n <=? 57)) || ((65 <=? n) && (n <=? 90)) || ((97 <=? n) && (n <=? 122)))%nat.

(** [selector.replace(/[^a-zA-Z0-9]/g, '_')], for a selector of ASCII
    characters. *)
Fixpoint sanitize (s : string) : string :=
  match s with
  | EmptyString => EmptyString
  | String c rest => String (if isAlnum c then c else "_"%char) (sanitize rest)
  end.

(** [generateComponentId(selector)]; [now] is the reading of [Date.now()]. *)
Definition generateComponentId (selector : string) (now : Z) : string :=
  "component_" +:+ sanitize selector +:+ "_" +:+ ofZ now.

(** The readings of the clock that one capture makes: one for each form
    and each toggle element without an id. *)
Definition clockReadings (r : Persistence.Region) : nat :=
  (Persistence.readings Persistence.isForm (Persistence.nodes (Persistence.below r)) +
   Persistence.readings Persistence.isToggle (Persistence.nodes (Persistence.below r)))%nat.

(** The clock from its reading number [k] on. *)
Definition later (clock : nat -> Z) (k : nat) : nat -> Z := fun j => clock (k + j)%nat.

(** [document.querySelectorAll(selector)] *)
Definition querySelectorAll (sel : StaticSelector) (d : Dom) : list (nat * Node) :=
  omap (fun ref =>
          match elements d !! ref with
          | Some node => if matchesStatic sel (own node) then Some (ref, node) else None
          | None => None
          end)
    (attached d).

(** The body of the inner loop of [identifyStaticComponents] for one
    element; [k] counts the readings of the clock made so far. *)
Definition register (clock : nat -> Z) (sel : StaticSelector)
    (acc : nat * list (string * Component)) (x : nat * Node)
    : nat * list (string * Component) :=
  let k := fst acc in
  let id := Persistence.id (own (snd x)) in
  if has (if truthy id then id else text sel) (snd acc) then acc
  else
    let componentId := if truthy id then id else generateComponentId (text sel) (clock k) in
    let k1 := if truthy id then k else S k in
    ((k1 + clockReadings (inner (snd x)))%nat,
     objSet componentId
       {| element := fst x; selector := sel;
          state := Persistence.captureComponentState (later clock k1) (inner (snd x)) |}
       (snd acc)).

(** [identifyStaticComponents()] *)
Definition identifyStaticComponents (clock : nat -> Z) (k : nat) (d : Dom) (f : Fields)
    : nat * Fields :=
  let r := fold_left
             (fun acc sel => fold_left (register clock sel) (querySelectorAll sel d) acc)
             staticSelectors (k, staticComponents f) in
  (fst r, {| staticComponents := snd r; componentStates := componentStates f |}).

(** [preserveComponentStates()] *)
Definition preserveComponentStates (f : Fields) : Fields :=
  {| staticComponents := staticComponents f;
     componentStates :=
       fold_left (fun states kc => objSet (fst kc) (state (snd kc)) states)
         (staticComponents f) (componentStates f) |}.

(** [init()], which the constructor calls on its empty maps. *)
Definition init (clock : nat -> Z) (k : nat) (d : Dom) : nat * Fields :=
  let r := identifyStaticComponents clock k d empty in
  (fst r, preserveComponentStates (snd r)).

(** The body of the loop of [restoreComponentStates] for one entry. An
    exception of [restoreComponentState] ends the loop. *)
Definition restoreEntry (f : Fields) (entry : string * Persistence.State) (d : Dom)
    : Persistence.Restored Dom :=
  match get (fst entry) (staticComponents f) with
  | Some component =>
      match elements d !! element component with
      | Some node =>
          Persistence.andThen (Persistence.restoreComponentState (inner node) (snd entry))
            (fun region =>
               Persistence.Done
                 {| elements := <[element component := {| own := own node; inner := region |}]>
                                  (elements d);
                    attached := attached d |})
      | None => Persistence.Done d
      end
  | None => Persistence.Done d
  end.

(** [restoreComponentStates()] *)
Definition restoreComponentStates (d : Dom) (f : Fields) : Persistence.Restored Dom :=
  Persistence.forEach (restoreEntry f) (componentStates f) d.

(** [beforeNavigation()] *)
Definition beforeNavigation (clock : nat -> Z) (k : nat) (d : Dom) (f : Fields) : nat * Fields :=
  let r := fold_left
             (fun acc kc =>
                match elements d !! element (snd kc) with
                | Some node =>
                    ((fst acc + clockReadings (inner node))%nat,
                     objSet (fst kc)
                       (Persistence.captureComponentState (later clock (fst acc)) (inner node))
                       (snd acc))
                | None => acc
                end)
             (staticComponents f) (k, componentStates f) in
  (fst r, {| staticComponents := staticComponents f; componentStates := snd r |}).

(** [afterNavigation()]: the registry it leaves and what it does to the
    elements. *)
Definition afterNavigation (clock : nat -> Z) (k : nat) (d : Dom) (f : Fields)
    : (nat * Fields) * Persistence.Restored Dom :=
  let r := identifyStaticComponents clock k d f in
  (r, restoreComponentStates d (snd r)).

(** [getStaticComponentIds()] and [getComponentState(componentId)] *)
Definition getStaticComponentIds (f : Fields) : list string := fst <$> staticComponents f.

Definition getComponentState (componentId : string) (f : Fields) : option Persistence.State :=
  get componentId (componentStates f).

End Registry.

(** * Auxiliary notions and example data *)

(** The request of one attempt and the pause before the next one. *)
Definition attemptThenPause (path : string) (retryCount : nat) : list Event :=
  [EvFetch (Fetch.endpoint path); EvSleep (Fetch.retryDelay retryCount)].

(** The environment itself never answers [net] with an abort or with the
    text of the timeout error: every request settles before the deadline,
    and no rejection and no parse error is named [AbortError] or carries
    that text. *)
Definition neverTimesOut (net : nat -> Attempt) : Prop :=
  forall k,
    latency (net k) < Fetch.timeoutMs /\
    forall e,
      (settles (net k) = Rejects e \/
       exists r, settles (net k) = Resolves r /\ json r = inl e) ->
      err_name e <> "AbortError" /\ err_message e <> err_message Fetch.timeoutError.

(** A page for [path] is at hand in one of the two caches. *)
Definition cachedPage (path : string) (w : Router.World) : option PageData :=
  match Router.orElse (Router.cache (Router.router w) !! path)
          (Router.preloadCache (Router.router w) !! path) with
  | Some (JPage page) => Some page
  | _ => None
  end.

(** The call goes past its first line. *)
Definition proceeds (isInitial : bool) (w : Router.World) : bool :=
  negb (Router.isNavigating (Router.router w) && negb isInitial).

(** The suspended calls are the paths of [preloadingInProgress], each
    once, and there are at most [maxConcurrentPreloads] of them. *)
Definition bounded (s : Preloader.State) : Prop :=
  NoDup (Preloader.t_href <$> Preloader.inFlight s) /\
  (forall h, h ∈ (Preloader.t_href <$> Preloader.inFlight s) <->
             h ∈ Preloader.preloadingInProgress s) /\
  (length (Preloader.inFlight s) <= Preloader.maxConcurrentPreloads)%nat.

(** The order of a sort by [key]. *)
Definition keyLe {A : Type} (key : A -> Z) (a b : A) : Prop := key a <= key b.

(** What a write through a query does to one tree: nothing when no node
    matches, and nothing either when the first match is given the content
    it has. *)
Definition writeSpec (p : Persistence.Element -> bool)
    (g : Persistence.Tree -> Persistence.Tree) (t : Persistence.Tree) : Prop :=
  (find (fun u => p (Persistence.root u)) (Persistence.subtrees t) = None ->
   Persistence.updTree p g t = None) /\
  (forall u, find (fun u => p (Persistence.root u)) (Persistence.subtrees t) = Some u ->
             g u = u -> Persistence.updTree p g t = Some t).

(** The fragment of the servers page. *)
Definition serversPage : PageData :=
  {| pd_content := "<h1>Servers</h1>"; pd_title := "Servers";
     pd_scripts := []; pd_styles := [] |}.

(** An answer after 40 ms with the given status line and the servers page
    as its body. *)
Definition answer (code : Z) (text : string) : Attempt :=
  {| latency := 40;
     settles := Resolves {| status := code; statusText := text;
                            json := inr (JPage serversPage) |} |}.

(** The fragment of the dashboard. *)
Definition dashboardPage : PageData :=
  {| pd_content := "<h1>Dashboard</h1>"; pd_title := "Dashboard";
     pd_scripts := []; pd_styles := [] |}.

(** A panel that shows [/dashboard], with every widget of the DOM contract
    in place; [busy] is the in-flight flag. *)
Definition atDashboard (busy : bool) : Router.World :=
  {| Router.router :=
       {| Router.currentRoute := Some "/dashboard";
          Router.cache := {[ "/dashboard" := JPage dashboardPage ]};
          Router.preloadCache := ∅;
          Router.isNavigating := busy;
          Router.lastFailedPath := None |};
     Router.document :=
       {| Router.content := Some "<h1>Dashboard</h1>";
          Router.title := "Dashboard";
          Router.scriptSrcs := []; Router.linkHrefs := [];
          Router.history :=
            [{| Router.h_path := "/dashboard"; Router.h_timestamp := 1700000000000;
                Router.h_title := "Dashboard" |}] |};
     Router.widgets :=
       {| Router.spaLoading := Some true; Router.spaLoadingOverlay := Some true;
          Router.loadingTimeout := false;
          Router.spaError := Some true; Router.spaErrorMessage := Some "";
          Router.errorAutoHide := false;
          Router.retryButton := Some false; Router.dismissButton := Some false |};
     Router.hasPersistence := true |}.

(** A parser for fragments without [script] and [link] elements. *)
Definition noTags : Router.Parser :=
  {| Router.scriptsIn := fun _ => []; Router.linksIn := fun _ => [] |}.

(** A network that answers every request with a 404. *)
Definition settingsMissing : Router.Env :=
  {| Router.net := fun _ => answer 404 "Not Found"; Router.now := 1700000060000;
     Router.parser := noTags |}.

(** The fragment of the settings page. *)
Definition settingsPage : PageData :=
  {| pd_content := "<h1>Settings</h1>"; pd_title := "Settings";
     pd_scripts := []; pd_styles := [] |}.

(** A network that answers every request with the settings page. *)
Definition settingsFound : Router.Env :=
  {| Router.net := fun _ =>
       {| latency := 40;
          settles := Resolves {| status := 200; statusText := "OK";
                                 json := inr (JPage settingsPage) |} |};
     Router.now := 1700000090000; Router.parser := noTags |}.

(** A click on the link to [path]: the listener calls [navigate(href)]. *)
Definition clicked (path : string) : Router.Call :=
  {| Router.c_path := path; Router.c_pushState := true; Router.c_isInitial := false |}.

(** The dashboard after a click on the link to [path], with the call of
    [navigate] suspended at its fetch. *)
Definition awaiting (path : string) : Router.Session :=
  {| Router.world :=
       Router.with_widgets Router.showLoadingState
         (Router.with_router (Router.set_isNavigating true) (atDashboard false));
     Router.suspended := [clicked path] |}.

(** Whenever the in-flight flag is set, some call is suspended. *)
Definition flagged (s : Router.Session) : Prop :=
  Router.isNavigating (Router.router (Router.world s)) = true -> Router.suspended s <> [].

(** Nothing of the preloader's own is pending, on the network or on
    file. *)
Definition dormant (s : Preloader.State) : Prop :=
  Preloader.preloadQueue s = [] /\ Preloader.preloadingInProgress s = ∅ /\
  Preloader.preloadCache s = [] /\ Preloader.inFlight s = [].

(** A request of the hover trigger. *)
Definition hovered (href : string) (priority : Z) : Preloader.Task :=
  {| Preloader.t_href := href; Preloader.t_priority := priority;
     Preloader.t_source := "hover" |}.

(** A preloader with two requests on the network. *)
Definition twoInFlight : Preloader.State :=
  {| Preloader.router := Preloader.router Preloader.initial;
     Preloader.preloadQueue := [];
     Preloader.preloadingInProgress := {[ "/admin/overview"; "/admin/servers" ]};
     Preloader.preloadCache := [];
     Preloader.inFlight := [hovered "/admin/overview" 1; hovered "/admin/servers" 3] |}.

(** A link of the panel written as an absolute URL of the panel itself. *)
Definition absoluteServersLink : Click.Link :=
  {| Click.href := "https://panel.example.com/admin/servers";
     Click.hasDownload := false; Click.target := "";
     Click.classList := ["nav-link"]; Click.hasDataNoSpa := false |}.

(** The path of page [i]. *)
Definition pagePath (i : nat) : string := "/page/" +:+ ofZ (Z.of_nat i).

(** A link without an id. *)
Definition anchor (classes : list string) (target : string) : Persistence.Tree :=
  Persistence.Node
    {| Persistence.tag := "a"; Persistence.id := "";
       Persistence.className := join " " classes;
       Persistence.attributes := [("href", target)];
       Persistence.cssText := ""; Persistence.value := "";
       Persistence.control := Persistence.NotControl |} [].

(** A sidebar with two links marked active, the first one featured as
    well. *)
Definition twoActive : Persistence.Region :=
  {| Persistence.scrollTop := 120; Persistence.scrollLeft := 0;
     Persistence.below :=
       [anchor ["nav-link"; "active"; "featured"] "/dashboard";
        anchor ["nav-link"; "active"] "/dashboard/overview"] |}.

(** The same sidebar with the first link no longer featured. *)
Definition twoActiveRestored : Persistence.Region :=
  {| Persistence.scrollTop := 120; Persistence.scrollLeft := 0;
     Persistence.below :=
       [anchor ["nav-link"; "active"] "/dashboard";
        anchor ["nav-link"; "active"] "/dashboard/overview"] |}.

(** A clock that advances by one millisecond per reading. *)
Definition wallClock (k : nat) : Z := 1700000000000 + Z.of_nat k.

(** An element that is no form control and has no inline style. *)
Definition plain (tag id : string) (classes : list string)
    (attributes : list (string * string)) : Persistence.Element :=
  {| Persistence.tag := tag; Persistence.id := id;
     Persistence.className := join " " classes; Persistence.attributes := attributes;
     Persistence.cssText := ""; Persistence.value := "";
     Persistence.control := Persistence.NotControl |}.

(** The sidebar of the panel: scrolled by 120, with the link of the current
    page marked, a search form without an id and a collapsible menu. *)
Definition sidebar : Persistence.Region :=
  {| Persistence.scrollTop := 120; Persistence.scrollLeft := 0;
     Persistence.below :=
       [Persistence.Node (plain "ul" "" ["nav"] [])
          [Persistence.Node (plain "li" "" [] [])
             [anchor ["nav-link"; "active"] "/dashboard"];
           Persistence.Node (plain "li" "" [] [])
             [anchor ["nav-link"] "/settings"]];
        Persistence.Node (plain "form" "" ["search"] [("action", "/search")])
          [Persistence.Node
             {| Persistence.tag := "input"; Persistence.id := "";
                Persistence.className := "";
                Persistence.attributes := [("type", "text"); ("name", "q")];
                Persistence.cssText := ""; Persistence.value := "minecraft";
                Persistence.control := Persistence.Field false |} []];
        Persistence.Node
          {| Persistence.tag := "div"; Persistence.id := "server-menu";
             Persistence.className := "menu collapsed";
             Persistence.attributes := [("data-toggle", "collapse")];
             Persistence.cssText := "height: 0px;"; Persistence.value := "";
             Persistence.control := Persistence.NotControl |} []] |}.

(** A region whose only element is a link marked as the current page,
    without an id and with a class attribute of one space. *)
Definition blankLink : Persistence.Region :=
  {| Persistence.scrollTop := 0; Persistence.scrollLeft := 0;
     Persistence.below :=
       [Persistence.Node
          {| Persistence.tag := "a"; Persistence.id := "";
             Persistence.className := " ";
             Persistence.attributes := [("href", "/dashboard"); ("aria-current", "page")];
             Persistence.cssText := ""; Persistence.value := "";
             Persistence.control := Persistence.NotControl |} []] |}.

(** A checked checkbox named [name], with the given attributes beside. *)
Definition checkbox (name : string) (more : list (string * string)) : Persistence.Tree :=
  Persistence.Node
    {| Persistence.tag := "input"; Persistence.id := "";
       Persistence.className := "";
       Persistence.attributes := [("type", "checkbox"); ("name", name)] ++ more;
       Persistence.cssText := ""; Persistence.value := "";
       Persistence.control := Persistence.Checkable true false |} [].

(** A region with a form that holds a checked checkbox without a [value]
    attribute. *)
Definition bareCheckbox : Persistence.Region :=
  {| Persistence.scrollTop := 0; Persistence.scrollLeft := 0;
     Persistence.below :=
       [Persistence.Node (plain "form" "filters" [] []) [checkbox "online" []]] |}.

(** The sidebar with the active link twice, once in each of two lists, and
    with a checked checkbox that has a [value] attribute in its form. *)
Definition sidebarTwins : Persistence.Region :=
  {| Persistence.scrollTop := 120; Persistence.scrollLeft := 0;
     Persistence.below :=
       [Persistence.Node (plain "ul" "" ["nav"] [])
          [Persistence.Node (plain "li" "" [] [])
             [anchor ["nav-link"; "active"] "/dashboard"];
           Persistence.Node (plain "li" "" [] [])
             [anchor ["nav-link"] "/settings"]];
        Persistence.Node (plain "ul" "" ["nav"; "mobile"] [])
          [Persistence.Node (plain "li" "" [] [])
             [anchor ["nav-link"; "active"] "/dashboard"]];
        Persistence.Node (plain "form" "" ["search"] [("action", "/search")])
          [Persistence.Node
             {| Persistence.tag := "input"; Persistence.id := "";
                Persistence.className := "";
                Persistence.attributes := [("type", "text"); ("name", "q")];
                Persistence.cssText := ""; Persistence.value := "minecraft";
                Persistence.control := Persistence.Field false |} [];
           checkbox "online" [("value", "yes")]];
        Persistence.Node
          {| Persistence.tag := "div"; Persistence.id := "server-menu";
             Persistence.className := "menu collapsed";
             Persistence.attributes := [("data-toggle", "collapse")];
             Persistence.cssText := "height: 0px;"; Persistence.value := "";
             Persistence.control := Persistence.NotControl |} []] |}.

(** ** Runs of [fetchPageData] *)

(** The events of a run that retries [n] times from [retryCount] on: each
    attempt but the last is followed by its pause. *)
Fixpoint schedule (path : string) (retryCount n : nat) : list Event :=
  match n with
  | O => [EvFetch (Fetch.endpoint path)]
  | S n' => attemptThenPause path retryCount ++ schedule path (S retryCount) n'
  end.

(** The number of requests among the events. *)
Definition requests (evs : list Event) : nat :=
  length (List.filter (fun e => match e with EvFetch _ => true | EvSleep _ => false end) evs).

(** The time spent in pauses. *)
Definition slept (evs : list Event) : Z :=
  foldr (fun e acc => match e with EvSleep ms => ms + acc | EvFetch _ => acc end) 0 evs.

(** The exception that reaches the [catch] block in attempt [k]: the
    rejection of [fetch], the [HTTP ...] error thrown for a response that
    is not ok, or the exception of the JSON parser. *)
Definition caught (net : nat -> Attempt) (k : nat) (e : JsError) : Prop :=
  Fetch.fetch (net k) = Rejects e \/
  exists r, Fetch.fetch (net k) = Resolves r /\
            (ok r = false /\ e = Fetch.httpError r \/ ok r = true /\ json r = inl e).

(** What the [catch] block throws for an exception it does not retry. *)
Definition surfaced (e : JsError) : JsError :=
  if String.eqb (err_name e) "AbortError" then Fetch.timeoutError else e.

(** Attempt [k] is the last one and ends the call with [o]. *)
Definition endsWith (net : nat -> Attempt) (k : nat) (o : Outcome Json) : Prop :=
  match o with
  | Returned data =>
      exists r, Fetch.fetch (net k) = Resolves r /\ ok r = true /\ json r = inr data
  | Thrown name message =>
      exists e, caught net k e /\
                name = err_name (surfaced e) /\ message = err_message (surfaced e) /\
                ((k < Fetch.maxRetries)%nat ->
                 err_name e = "AbortError" \/ Fetch.looksLikeNetworkError e = false)
  end.

(** A network whose every answer is [a]. *)
Definition always (a : Attempt) : nat -> Attempt := fun _ => a.

(** ** Calls of [navigate] that reach a page *)

(** The page a call of [navigate] gets hold of: the cached one, or else the
    one [fetchPageData] returns. *)
Definition resolved (env : Router.Env) (path : string) (w : Router.World) : option PageData :=
  match cachedPage path w with
  | Some page => Some page
  | None =>
      match Fetch.fetchPageData (Router.net env) path 0 with
      | Some (_, Returned (JPage page)) => Some page
      | _ => None
      end
  end.

(** The effect is a request or a pause of [fetchPageData]. *)
Definition isNet (e : Router.Effect) : bool :=
  match e with Router.Net _ => true | _ => false end.

(** A network that answers every request with the servers page. *)
Definition serversFound : Router.Env :=
  {| Router.net := always (answer 200 "OK"); Router.now := 1700000060000;
     Router.parser := noTags |}.

(** ** What a restore leaves alone *)

(** An element without what a restore may write: its tag, its id and the
    kind of control it is. *)
Definition bare (e : Persistence.Element) : Persistence.Element :=
  {| Persistence.tag := Persistence.tag e; Persistence.id := Persistence.id e;
     Persistence.className := ""; Persistence.attributes := [];
     Persistence.cssText := ""; Persistence.value := "";
     Persistence.control := Persistence.control e |}.

(** The shape of a tree: the same nodes in the same places, each reduced
    to its bare element. *)
Fixpoint skeleton (t : Persistence.Tree) : Persistence.Tree :=
  match t with
  | Persistence.Node e ch => Persistence.Node (bare e) (map skeleton ch)
  end.

(** A write through a query does nothing when no node matches, and changes
    the shape only if it changes the shape of the first match. *)
Definition keepsShape (p : Persistence.Element -> bool)
    (g : Persistence.Tree -> Persistence.Tree) (t : Persistence.Tree) : Prop :=
  match find (fun u => p (Persistence.root u)) (Persistence.subtrees t) with
  | None => Persistence.updTree p g t = None
  | Some u =>
      exists t', Persistence.updTree p g t = Some t' /\
                 (skeleton (g u) = skeleton u -> skeleton t' = skeleton t)
  end.

(** A write through a query lands on the first match, and when what is
    written still matches, the same query finds it there afterwards. *)
Definition landsOn (p : Persistence.Element -> bool)
    (g : Persistence.Tree -> Persistence.Tree) (t : Persistence.Tree) : Prop :=
  match find (fun u => p (Persistence.root u)) (Persistence.subtrees t) with
  | None => Persistence.updTree p g t = None
  | Some u =>
      p (Persistence.root (g u)) = true ->
      exists t', Persistence.updTree p g t = Some t' /\
                 find (fun u => p (Persistence.root u)) (Persistence.subtrees t') = Some (g u)
  end.

(** The sidebar after the page has expanded its menu and emptied the
    search field. *)
Definition sidebarChanged : Persistence.Region :=
  {| Persistence.scrollTop := 0; Persistence.scrollLeft := 0;
     Persistence.below :=
       [Persistence.Node (plain "ul" "" ["nav"] [])
          [Persistence.Node (plain "li" "" [] [])
             [anchor ["nav-link"; "active"] "/dashboard"];
           Persistence.Node (plain "li" "" [] [])
             [anchor ["nav-link"] "/settings"]];
        Persistence.Node (plain "form" "" ["search"] [("action", "/search")])
          [Persistence.Node
             {| Persistence.tag := "input"; Persistence.id := "";
                Persistence.className := "";
                Persistence.attributes := [("type", "text"); ("name", "q")];
                Persistence.cssText := ""; Persistence.value := "";
                Persistence.control := Persistence.Field false |} []];
        Persistence.Node
          {| Persistence.tag := "div"; Persistence.id := "server-menu";
             Persistence.className := "menu expanded";
             Persistence.attributes := [("data-toggle", "collapse")];
             Persistence.cssText := "height: 96px;"; Persistence.value := "";
             Persistence.control := Persistence.NotControl |} []] |}.

(** ** Paths and navigation links *)

(** The string ends with a slash. *)
Fixpoint endsInSlash (s : string) : bool :=
  match s with
  | EmptyString => false
  | String c EmptyString => Ascii.eqb c "/"
  | String _ rest => endsInSlash rest
  end.

(** [k] slashes. *)
Fixpoint slashes (k : nat) : string :=
  match k with
  | O => EmptyString
  | S k' => String "/" (slashes k')
  end.

(** The link the indicator is to be placed on: the first one that leads to
    [path], on a page that has the indicator. *)
Definition activeTarget (pathnameOf : string -> option string) (path : string) (b : Nav.Bar)
    : option nat :=
  match Nav.activeBackground b with
  | Some _ => Nav.findIndex (Nav.linksTo pathnameOf path) (Nav.navLinks b)
  | None => None
  end.

(** The navigation of the panel: two links in a list and the indicator,
    not placed yet; [listed] says whether the links have a [ul] ancestor. *)
Definition panelBar (listed : bool) : Nav.Bar :=
  {| Nav.navLinks :=
       [{| Nav.href := Some "/dashboard";
           Nav.classList := ["nav-link"; "active"; "text-neutral-950"; "font-[405]";
                             "dark:text-white"];
           Nav.insideList := listed |};
        {| Nav.href := Some "/servers/"; Nav.classList := ["nav-link"];
           Nav.insideList := listed |}];
     Nav.activeBackground := Some None |}.

(** A URL parser that gives every path back as its path name. *)
Definition verbatim (path : string) : option string := Some path.

(** ** Captures within one millisecond *)

(** A clock that does not advance while it is read. *)
Definition frozen (now : Z) : nat -> Z := fun _ => now.

(** The forms below a region, in document order. *)
Definition formsOf (r : Persistence.Region) : list Persistence.Tree :=
  List.filter (fun t => Persistence.isForm (Persistence.root t))
    (Persistence.nodes (Persistence.below r)).

(** A form without an id that holds one text field. *)
Definition searchForm (name text : string) : Persistence.Tree :=
  Persistence.Node (plain "form" "" [] [])
    [Persistence.Node
       {| Persistence.tag := "input"; Persistence.id := "";
          Persistence.className := "";
          Persistence.attributes := [("type", "text"); ("name", name)];
          Persistence.cssText := ""; Persistence.value := text;
          Persistence.control := Persistence.Field false |} []].

(** A footer with two such forms. *)
Definition twoForms : Persistence.Region :=
  {| Persistence.scrollTop := 0; Persistence.scrollLeft := 0;
     Persistence.below := [searchForm "q" "minecraft"; searchForm "email" "a@b.example"] |}.

(** ** Registries and pages *)

(** The keys of a map. *)
Definition keysOf {V : Type} (m : list (string * V)) : list string := fst <$> m.

(** No entry of the registry holds the element [ref]. *)
Definition unregistered (ref : nat) (f : Registry.Fields) : Prop :=
  Forall (fun kc => Registry.element (snd kc) <> ref) (Registry.staticComponents f).

(** One scan leads from [acc] to [acc']: the clock has not gone back, no
    key is lost, and an entry is replaced only under an id that this scan
    generated. *)
Definition scanned (clock : nat -> Z)
    (acc acc' : nat * list (string * Registry.Component)) : Prop :=
  (fst acc <= fst acc')%nat /\
  (forall key, key ∈ keysOf (snd acc) -> key ∈ keysOf (snd acc')) /\
  (forall key c, (key, c) ∈ snd acc ->
                 (key, c) ∈ snd acc' \/
                 exists sel j, (fst acc <= j)%nat /\
                               key = Registry.generateComponentId (Registry.text sel) (clock j)).

(** The texts of the seven selectors. *)
Definition selectorTexts : list string := Registry.text <$> Registry.staticSelectors.

(** No key of the registry and no id of an element of the document is,
    letter for letter, the text of one of the seven selectors. *)
Definition noSelectorKeys (d : Registry.Dom) (f : Registry.Fields) : bool :=
  forallb (fun key => negb (bool_decide (key ∈ selectorTexts)))
    (keysOf (Registry.staticComponents f)) &&
  forallb (fun ref =>
             match Registry.elements d !! ref with
             | Some node =>
                 negb (bool_decide (Persistence.id (Registry.own node) ∈ selectorTexts))
             | None => true
             end)
    (Registry.attached d).

(** The two maps as the methods keep them: one entry per key, and a
    snapshot only under the key of a component. *)
Definition wellKept (f : Registry.Fields) : Prop :=
  NoDup (keysOf (Registry.staticComponents f)) /\
  NoDup (keysOf (Registry.componentStates f)) /\
  forall key, key ∈ keysOf (Registry.componentStates f) ->
              key ∈ keysOf (Registry.staticComponents f).

(** Every region of the page is [stable], whenever it is captured. *)
Definition stablePage (clock : nat -> Z) (d : Registry.Dom) : Prop :=
  forall ref node j,
    Registry.elements d !! ref = Some node ->
    Persistence.stable (Registry.later clock j) (Registry.inner node) = true.

(** The snapshots are captures of the elements they are filed for. *)
Definition capturedFrom (clock : nat -> Z) (d : Registry.Dom)
    (comps : list (string * Registry.Component))
    (states : list (string * Persistence.State)) : Prop :=
  forall key st c node,
    (key, st) ∈ states -> (key, c) ∈ comps ->
    Registry.elements d !! Registry.element c = Some node ->
    exists j, st = Persistence.captureComponentState (Registry.later clock j)
                     (Registry.inner node).

(** A sidebar element with the given id, spanning the region [r]. *)
Definition sidebarNode (id : string) (r : Persistence.Region) : Registry.Node :=
  {| Registry.own := plain "nav" id ["sidebar"] []; Registry.inner := r |}.

(** A page whose sidebar is element 0. *)
Definition firstPage : Registry.Dom :=
  {| Registry.elements := {[ 0%nat := sidebarNode "sidebar" sidebar ]};
     Registry.attached := [0%nat] |}.

(** The same page after the sidebar was replaced by a new element with the
    same id; the old one is still referenced. *)
Definition secondPage : Registry.Dom :=
  {| Registry.elements := {[ 0%nat := sidebarNode "sidebar" sidebar;
                             1%nat := sidebarNode "sidebar" sidebarChanged ]};
     Registry.attached := [1%nat] |}.

(** The last character of the string is [c]. *)
Fixpoint endsIn (c : ascii) (s : string) : bool :=
  match s with
  | EmptyString => false
  | String x EmptyString => Ascii.eqb x c
  | String _ rest => endsIn c rest
  end.

(** A clock for two visits a minute apart: the first [n] readings are made
    at the first visit, one millisecond after the other, and all later
    ones within one millisecond of the second visit. *)
Definition aMinuteLater (n : nat) (k : nat) : Z :=
  if (k <? n)%nat then wallClock k else 1700000060001.

(** A page whose sidebar has a class but no id. *)
Definition anonymousPage : Registry.Dom :=
  {| Registry.elements := {[ 0%nat := sidebarNode "" sidebar ]};
     Registry.attached := [0%nat] |}.

(** A network whose every answer is a 200 with the body [null]. *)
Definition nullBody : Router.Env :=
  {| Router.net := always {| latency := 40;
                             settles := Resolves {| status := 200; statusText := "OK";
                                                    json := inr JFalsy |} |};
     Router.now := 1700000060000; Router.parser := noTags |}.

(** * Properties *)

(** ** [fetchPageData]: termination and the retry equation *)

Section FetchProperties.

Import Fetch.

Variable net : nat -> Attempt.
Variable path : string.

Lemma after_is_Some (evs : list Event) (r : Run) : is_Some r -> is_Some (after evs r).
Proof. intros [[evs' o] ->]. simpl. eauto. Qed.

(** A call with some fuel that covers the retries still allowed ends. *)
Lemma fetchPageData_fuel_enough (fuel retryCount : nat) :
  (0 < fuel)%nat -> (maxRetries < fuel + retryCount)%nat ->
  is_Some (fetchPageData_fuel fuel net path retryCount).
Proof.
  revert retryCount. induction fuel as [|fuel IH]; intros retryCount Hpos Hlt; [lia|].
  assert (Hrec : (retryCount <? maxRetries)%nat = true ->
                 is_Some (fetchPageData_fuel fuel net path (S retryCount))).
  { intros Hr%Nat.ltb_lt. apply IH; unfold maxRetries in *; lia. }
  simpl. unfold fetchPageData_body, throw.
  destruct (fetch (net retryCount)) as [response|error].
  - destruct (negb (ok response)).
    + destruct (500 <=? status response); simpl.
      * destruct (retryCount <? maxRetries)%nat eqn:Hr; simpl.
        -- apply after_is_Some; auto.
        -- eauto.
      * destruct (retryCount <? maxRetries)%nat eqn:Hr; simpl;
           [destruct (looksLikeNetworkError _); [apply after_is_Some; auto | eauto] | eauto].
    + destruct (json response) as [error|data]; [|eauto].
      destruct (String.eqb _ _); [eauto|].
      destruct (retryCount <? maxRetries)%nat eqn:Hr; simpl;
        [destruct (looksLikeNetworkError _); [apply after_is_Some; auto | eauto] | eauto].
  - destruct (String.eqb _ _); [eauto|].
    destruct (retryCount <? maxRetries)%nat eqn:Hr; simpl;
      [destruct (looksLikeNetworkError _); [apply after_is_Some; auto | eauto] | eauto].
Qed.

(** More fuel does not change a call that ends. *)
Lemma fetchPageData_fuel_mono (fuel retryCount : nat) (r : list Event * Outcome Json) :
  fetchPageData_fuel fuel net path retryCount = Some r ->
  fetchPageData_fuel (S fuel) net path retryCount = Some r.
Proof.
  revert retryCount r. induction fuel as [|fuel IH]; intros retryCount r; [discriminate|].
  assert (Hrec : forall evs,
            after evs (fetchPageData_fuel fuel net path (S retryCount)) = Some r ->
            after evs (fetchPageData_fuel (S fuel) net path (S retryCount)) = Some r).
  { intros evs. destruct (fetchPageData_fuel fuel net path (S retryCount)) as [r'|] eqn:E;
      [|discriminate]. now rewrite (IH _ _ E). }
  change (fetchPageData_fuel (S (S fuel)) net path retryCount)
    with (fetchPageData_body (fetchPageData_fuel (S fuel) net path) net path retryCount).
  change (fetchPageData_fuel (S fuel) net path retryCount)
    with (fetchPageData_body (fetchPageData_fuel fuel net path) net path retryCount).
  unfold fetchPageData_body.
  destruct (fetch (net retryCount)) as [response|error].
  - destruct (negb (ok response)).
    + destruct ((500 <=? status response) && (retryCount <? maxRetries)%nat); [apply Hrec|].
      destruct (String.eqb _ _); [auto|].
      destruct ((retryCount <? maxRetries)%nat && looksLikeNetworkError _); [apply Hrec|auto].
    + destruct (json response) as [error|data]; [|auto].
      destruct (String.eqb _ _); [auto|].
      destruct ((retryCount <? maxRetries)%nat && looksLikeNetworkError _); [apply Hrec|auto].
  - destruct (String.eqb _ _); [auto|].
    destruct ((retryCount <? maxRetries)%nat && looksLikeNetworkError _); [apply Hrec|auto].
Qed.

(** [fetchPageData] always ends: with a value or with an exception. *)
Lemma fetchPageData_total (retryCount : nat) :
  exists evs outcome, fetchPageData net path retryCount = Some (evs, outcome).
Proof.
  destruct (fetchPageData_fuel_enough (S maxRetries) retryCount) as [[evs o] E].
  - lia.
  - unfold maxRetries. lia.
  - exists evs, o. exact E.
Qed.

(** [fetchPageData] is the function its source text defines: it satisfies
    the recursive equation of the body. *)
Lemma fetchPageData_unfold (retryCount : nat) :
  fetchPageData net path retryCount =
  fetchPageData_body (fetchPageData net path) net path retryCount.
Proof.
  assert (Hrec : (retryCount <? maxRetries)%nat = true ->
                 fetchPageData_fuel maxRetries net path (S retryCount) =
                 fetchPageData net path (S retryCount)).
  { intros Hr%Nat.ltb_lt.
    destruct (fetchPageData_fuel_enough maxRetries (S retryCount)) as [r E];
      [unfold maxRetries; lia | unfold maxRetries in *; lia |].
    rewrite E. symmetry. now apply fetchPageData_fuel_mono. }
  unfold fetchPageData at 1.
  change (fetchPageData_fuel (S maxRetries) net path retryCount)
    with (fetchPageData_body (fetchPageData_fuel maxRetries net path) net path retryCount).
  unfold fetchPageData_body.
  destruct (fetch (net retryCount)) as [response|error].
  - destruct (negb (ok response)).
    + destruct (retryCount <? maxRetries)%nat eqn:Hr.
      * rewrite Hrec by reflexivity. reflexivity.
      * rewrite !andb_false_r. simpl. reflexivity.
    + destruct (json response) as [error|data]; [|reflexivity].
      destruct (retryCount <? maxRetries)%nat eqn:Hr;
        [rewrite Hrec by reflexivity|]; reflexivity.
  - destruct (retryCount <? maxRetries)%nat eqn:Hr;
      [rewrite Hrec by reflexivity|]; reflexivity.
Qed.

End FetchProperties.

(** ** [fetchPageData]: retries, back-off and terminal failures *)

Section FetchRetries.

Import Fetch.

Variable net : nat -> Attempt.
Variable path : string.

Lemma server_error_not_ok (r : Response) : 500 <= status r -> ok r = false.
Proof. intros H. unfold ok. apply andb_false_iff. right. lia. Qed.

(** A 5xx answer with retries left: pause [1000 * 2^retryCount] ms, then
    attempt number [retryCount + 1]. *)
Lemma fetchPageData_retries_server_error (retryCount : nat) (r : Response) :
  (retryCount < maxRetries)%nat ->
  fetch (net retryCount) = Resolves r ->
  500 <= status r ->
  fetchPageData net path retryCount =
  after (attemptThenPause path retryCount) (fetchPageData net path (S retryCount)).
Proof.
  intros Hlt Hfetch Hst. rewrite fetchPageData_unfold. unfold fetchPageData_body.
  rewrite Hfetch, (server_error_not_ok r Hst). simpl negb. cbv iota.
  apply Nat.ltb_lt in Hlt. rewrite Hlt.
  apply Z.leb_le in Hst. rewrite Hst. reflexivity.
Qed.

(** A rejected request that the [catch] block takes for a network failure,
    with retries left, is retried in the same way. *)
Lemma fetchPageData_retries_network_error (retryCount : nat) (e : JsError) :
  (retryCount < maxRetries)%nat ->
  fetch (net retryCount) = Rejects e ->
  err_name e <> "AbortError" ->
  looksLikeNetworkError e = true ->
  fetchPageData net path retryCount =
  after (attemptThenPause path retryCount) (fetchPageData net path (S retryCount)).
Proof.
  intros Hlt Hfetch Hname Hnet. rewrite fetchPageData_unfold. unfold fetchPageData_body.
  rewrite Hfetch. apply String.eqb_neq in Hname. rewrite Hname.
  apply Nat.ltb_lt in Hlt. rewrite Hlt, Hnet. reflexivity.
Qed.

(** With the retries used up a 5xx answer is thrown as it is. *)
Lemma fetchPageData_gives_up (retryCount : nat) (r : Response) :
  (maxRetries <= retryCount)%nat ->
  fetch (net retryCount) = Resolves r ->
  500 <= status r ->
  fetchPageData net path retryCount = throw [EvFetch (endpoint path)] (httpError r).
Proof.
  intros Hge Hfetch Hst. rewrite fetchPageData_unfold. unfold fetchPageData_body.
  rewrite Hfetch, (server_error_not_ok r Hst). simpl negb. cbv iota.
  apply Nat.ltb_ge in Hge. rewrite Hge, andb_false_r. reflexivity.
Qed.

(** Only 5xx answers: three retries after 1000, 2000 and 4000 ms, then the
    error of the fourth answer. *)
Lemma fetchPageData_exhausts_retries :
  (forall k, exists r, fetch (net k) = Resolves r /\ 500 <= status r) ->
  exists r, fetch (net 3%nat) = Resolves r /\
    fetchPageData net path 0 =
    throw [EvFetch (endpoint path); EvSleep 1000;
           EvFetch (endpoint path); EvSleep 2000;
           EvFetch (endpoint path); EvSleep 4000;
           EvFetch (endpoint path)] (httpError r).
Proof.
  intros Hall.
  destruct (Hall 0%nat) as (r0 & F0 & S0), (Hall 1%nat) as (r1 & F1 & S1),
    (Hall 2%nat) as (r2 & F2 & S2), (Hall 3%nat) as (r3 & F3 & S3).
  exists r3. split; [exact F3|].
  rewrite (fetchPageData_retries_server_error 0 r0), (fetchPageData_retries_server_error 1 r1),
    (fetchPageData_retries_server_error 2 r2), (fetchPageData_gives_up 3 r3);
    unfold maxRetries; auto with lia.
Qed.

(** A 5xx answer and then a good one: the payload of the second, after one
    retry that waited 1000 ms. *)
Lemma fetchPageData_recovers (r0 r1 : Response) (data : Json) :
  fetch (net 0%nat) = Resolves r0 -> 500 <= status r0 ->
  fetch (net 1%nat) = Resolves r1 -> ok r1 = true -> json r1 = inr data ->
  fetchPageData net path 0 =
  Some ([EvFetch (endpoint path); EvSleep 1000; EvFetch (endpoint path)], Returned data).
Proof.
  intros F0 S0 F1 Hok Hjson.
  rewrite (fetchPageData_retries_server_error 0 r0) by (unfold maxRetries; auto with lia).
  rewrite fetchPageData_unfold. unfold fetchPageData_body. rewrite F1, Hok, Hjson. reflexivity.
Qed.

(** An answer below 500 that is not [ok] is thrown at once when its status
    text has neither of the two words the [catch] block looks for. *)
Lemma fetchPageData_client_error (retryCount : nat) (r : Response) :
  fetch (net retryCount) = Resolves r ->
  ok r = false -> status r < 500 ->
  looksLikeNetworkError (httpError r) = false ->
  fetchPageData net path retryCount = throw [EvFetch (endpoint path)] (httpError r).
Proof.
  intros Hfetch Hok Hst Hmsg. rewrite fetchPageData_unfold. unfold fetchPageData_body.
  rewrite Hfetch, Hok. simpl negb. cbv iota.
  apply Z.leb_gt in Hst. rewrite Hst. simpl andb. cbv iota.
  change (String.eqb (err_name (httpError r)) "AbortError") with false. cbv iota.
  rewrite Hmsg, andb_false_r. reflexivity.
Qed.

Lemma after_Some (evs : list Event) (r : Run) (x : list Event * Outcome Json) :
  after evs r = Some x -> exists evs', r = Some (evs', snd x).
Proof.
  destruct r as [[evs' o]|]; simpl; [|discriminate]. intros [= <-]. eauto.
Qed.

(** Without a timeout the timeout error is never what a call throws. *)
Lemma fetchPageData_fuel_no_timeout (fuel retryCount : nat) (evs : list Event)
    (name message : string) :
  neverTimesOut net ->
  fetchPageData_fuel fuel net path retryCount = Some (evs, Thrown name message) ->
  message <> err_message timeoutError.
Proof.
  intros Hnever. revert retryCount evs.
  induction fuel as [|fuel IH]; intros retryCount evs; [discriminate|].
  assert (Hretry : forall pre,
            after pre (fetchPageData_fuel fuel net path (S retryCount)) =
              Some (evs, Thrown name message) ->
            message <> err_message timeoutError).
  { intros pre H. apply after_Some in H as [evs' H]. exact (IH _ _ H). }
  assert (Hhandler : forall e,
            err_name e <> "AbortError" -> err_message e <> err_message timeoutError ->
            (if String.eqb (err_name e) "AbortError"
             then throw [EvFetch (endpoint path)] timeoutError
             else if (retryCount <? maxRetries)%nat && looksLikeNetworkError e
                  then after ([EvFetch (endpoint path)] ++ [EvSleep (retryDelay retryCount)])
                         (fetchPageData_fuel fuel net path (S retryCount))
                  else throw [EvFetch (endpoint path)] e) = Some (evs, Thrown name message) ->
            message <> err_message timeoutError).
  { intros e Hname Hmsg. apply String.eqb_neq in Hname. rewrite Hname.
    destruct ((retryCount <? maxRetries)%nat && looksLikeNetworkError e); [apply Hretry|].
    unfold throw. now intros [= _ _ <-]. }
  destruct (Hnever retryCount) as [Hlat Henv]. apply Z.leb_gt in Hlat.
  simpl. unfold fetchPageData_body, fetch. rewrite Hlat.
  destruct (settles (net retryCount)) as [response|error] eqn:Hs.
  - destruct (negb (ok response)).
    + destruct ((500 <=? status response) && (retryCount <? maxRetries)%nat); [apply Hretry|].
      apply Hhandler; [discriminate | unfold httpError; simpl; discriminate].
    + destruct (json response) as [error|data] eqn:Hj; [|discriminate].
      apply Hhandler; apply (Henv error); right; eauto.
  - apply Hhandler; apply (Henv error); now left.
Qed.

End FetchRetries.

(** C1 (the code departs from it). [fetchPageData] retries 5xx answers and
    network failures with pauses of 1000, 2000 and 4000 ms
    ([fetchPageData_retries_server_error], [fetchPageData_retries_network_error],
    [fetchPageData_exhausts_retries], [fetchPageData_recovers]), but a 4xx
    answer is not always thrown at once: the [throw] of the HTTP error
    stands inside the [try], the [catch] block retries whatever has "fetch"
    or "network" in its message, and the message holds the status text. A
    404 whose status text is "Blocked by network policy" is retried after
    1000 ms, and the second answer is returned. *)
Theorem fetchPageData_retries_a_404 :
  Fetch.fetchPageData
    (fun k => match k with
              | O => answer 404 "Blocked by network policy"
              | _ => answer 200 "OK"
              end) "/admin/servers" 0 =
  Some ([EvFetch "/api/page-content/admin/servers"; EvSleep 1000;
         EvFetch "/api/page-content/admin/servers"], Returned (JPage serversPage)).
Proof. vm_compute. reflexivity. Qed.

(** C6. A request that has not settled after 10000 ms is aborted, and the
    call ends there whatever [retryCount] is: one request, no pause, no
    further attempt, and the exception is the [Error] with the timeout
    message. No HTTP failure carries that message, and a call none of
    whose requests times out never throws it. *)
Theorem fetchPageData_timeout_is_terminal (net : nat -> Attempt) (path : string)
    (retryCount : nat) :
  Fetch.timeoutMs <= latency (net retryCount) ->
  Fetch.fetchPageData net path retryCount =
    Some ([EvFetch (Fetch.endpoint path)],
          Thrown "Error" "Request timeout - please check your connection") /\
  (forall r : Response,
     err_message (Fetch.httpError r) <> "Request timeout - please check your connection") /\
  (forall (net' : nat -> Attempt) evs name message,
     neverTimesOut net' ->
     Fetch.fetchPageData net' path retryCount = Some (evs, Thrown name message) ->
     message <> "Request timeout - please check your connection").
Proof.
  intros Hlate. split_and!.
  - rewrite fetchPageData_unfold. unfold Fetch.fetchPageData_body, Fetch.fetch.
    apply Z.leb_le in Hlate. rewrite Hlate. reflexivity.
  - intros r. unfold Fetch.httpError. simpl. discriminate.
  - intros net' evs name message Hnever Hrun.
    exact (fetchPageData_fuel_no_timeout net' path _ _ _ _ _ Hnever Hrun).
Qed.

(** C6 at a request that hangs for 10 s on the third attempt. *)
Lemma fetchPageData_timeout_is_terminal_witness :
  Fetch.fetchPageData
    (fun _ => {| latency := 10000; settles := Rejects (Error "Failed to fetch") |})
    "/admin/servers" 2 =
    Some ([EvFetch (Fetch.endpoint "/admin/servers")],
          Thrown "Error" "Request timeout - please check your connection") /\
  (forall r : Response,
     err_message (Fetch.httpError r) <> "Request timeout - please check your connection") /\
  (forall (net' : nat -> Attempt) evs name message,
     neverTimesOut net' ->
     Fetch.fetchPageData net' "/admin/servers" 2 = Some (evs, Thrown name message) ->
     message <> "Request timeout - please check your connection").
Proof.
  apply (fetchPageData_timeout_is_terminal
           (fun _ => {| latency := 10000; settles := Rejects (Error "Failed to fetch") |})
           "/admin/servers" 2).
  vm_compute. discriminate.
Defined.

(** ** [navigate] *)

Section NavigateProperties.

Import Router.

Variable env : Env.
Variable path : string.
Variable pushHistory : bool.

(** Every run of [fetchPageData] starts with the request for the path. *)
Lemma fetchPageData_first_request (retryCount : nat) (evs : list Event) (o : Outcome Json) :
  Fetch.fetchPageData (net env) path retryCount = Some (evs, o) ->
  exists rest, evs = EvFetch (Fetch.endpoint path) :: rest.
Proof.
  rewrite fetchPageData_unfold. unfold Fetch.fetchPageData_body, throw, after.
  intros H.
  repeat match type of H with
         | context [match ?x with _ => _ end] => destruct x
         | context [if ?b then _ else _] => destruct b
         end;
    simplify_eq; simpl; eauto.
Qed.

(** What a call whose fragment cannot be fetched leaves: the world it
    found, with the loading widgets hidden again, the error widgets set and
    [lastFailedPath] written; no cache, route, title, content or history
    entry is touched. *)
Lemma navigate_failure (isInitial : bool) (w : World) (evs : list Event) (name message : string) :
  proceeds isInitial w = true ->
  cachedPage path w = None ->
  Fetch.fetchPageData (net env) path 0 = Some (evs, Thrown name message) ->
  navigate env path pushHistory isInitial w =
  Some ({| router := {| currentRoute := currentRoute (router w);
                        cache := cache (router w);
                        preloadCache := preloadCache (router w);
                        isNavigating := false;
                        lastFailedPath := currentRoute (router w) |};
           document := document w;
           widgets := hideLoadingState (showErrorWidgets message (showLoadingState (widgets w)));
           hasPersistence := hasPersistence w |},
        (if hasPersistence w && negb isInitial then [BeforeNavigation] else []) ++ map Net evs).
Proof.
  unfold proceeds, cachedPage, navigate. intros Hgo Hmiss Hfetch.
  apply negb_true_iff in Hgo. rewrite Hgo. simpl.
  destruct (orElse _ _) as [[|page]|]; try discriminate; rewrite Hfetch; reflexivity.
Qed.

End NavigateProperties.

(** ** Calls of [navigate] that overlap *)

Section Overlap.

Import Router.

Lemma finallyBlock_idle (w : World) : isNavigating (router (finallyBlock w)) = false.
Proof. reflexivity. Qed.

(** The guard: with the flag set, a call without the initial-load flag
    ends at its first line. *)
Lemma begin_suppressed (env : Env) (c : Call) (s : Session) :
  isNavigating (router (world s)) = true -> c_isInitial c = false ->
  begin env c s = (s, []).
Proof. intros Hbusy Hc. unfold begin. now rewrite Hbusy, Hc. Qed.

(** A call that is let through and finds no page in the caches sets the
    flag, shows the loading state and is suspended. *)
Lemma begin_suspends (env : Env) (c : Call) (s : Session) :
  proceeds (c_isInitial c) (world s) = true ->
  cachedPage (c_path c) (world s) = None ->
  begin env c s =
  ({| world := with_widgets showLoadingState (with_router (set_isNavigating true) (world s));
      suspended := suspended s ++ [c] |},
   if hasPersistence (world s) && negb (c_isInitial c) then [BeforeNavigation] else []).
Proof.
  unfold proceeds, cachedPage, begin. intros Hgo%negb_true_iff Hmiss. rewrite Hgo.
  cbn [with_router with_widgets router hasPersistence].
  change (cache (set_isNavigating true (router (world s)))) with (cache (router (world s))).
  change (preloadCache (set_isNavigating true (router (world s))))
    with (preloadCache (router (world s))).
  destruct (orElse _ _) as [[|page]|]; try discriminate; reflexivity.
Qed.

(** A call that is let through and finds its page ends with that page as
    the current route and with the flag cleared. *)
Lemma begin_lands (env : Env) (c : Call) (s : Session) (page : PageData) :
  proceeds (c_isInitial c) (world s) = true ->
  cachedPage (c_path c) (world s) = Some page ->
  let s' := fst (begin env c s) in
  suspended s' = suspended s /\
  isNavigating (router (world s')) = false /\
  currentRoute (router (world s')) = Some (c_path c).
Proof.
  unfold proceeds, cachedPage, begin. intros Hgo%negb_true_iff Hhit. rewrite Hgo.
  cbn [with_router with_widgets router hasPersistence].
  change (cache (set_isNavigating true (router (world s)))) with (cache (router (world s))).
  change (preloadCache (set_isNavigating true (router (world s))))
    with (preloadCache (router (world s))).
  destruct (orElse _ _) as [[|page']|]; try discriminate.
  cbn [fst world suspended]. split_and!; [reflexivity|reflexivity|].
  unfold finish, finallyBlock.
  destruct (c_pushState c && negb (c_isInitial c)); [|destruct (c_isInitial c)]; reflexivity.
Qed.

Lemma begin_flagged (env : Env) (c : Call) (s : Session) :
  flagged s -> flagged (fst (begin env c s)).
Proof.
  intros Hs. destruct (proceeds (c_isInitial c) (world s)) eqn:Hgo.
  - destruct (cachedPage (c_path c) (world s)) as [page|] eqn:Hc.
    + destruct (begin_lands env c s page Hgo Hc) as (_ & Hidle & _).
      intros Hbusy. cbn zeta in Hidle. congruence.
    + rewrite (begin_suspends env c s Hgo Hc). intros _. cbn [fst suspended].
      now destruct (suspended s).
  - unfold proceeds in Hgo. apply negb_false_iff, andb_true_iff in Hgo as [Hbusy Hc].
    apply negb_true_iff in Hc. now rewrite (begin_suppressed env c s Hbusy Hc).
Qed.

Lemma popstate_flagged (env : Env) (statePath : option string) (pathname : string)
    (s : Session) :
  flagged s -> flagged (fst (popstate env statePath pathname s)).
Proof.
  intros Hs. unfold popstate. case_bool_decide; [exact Hs|].
  apply begin_flagged. unfold flagged. cbn [world suspended].
  destruct (isNavigating (router (world s))) eqn:Hbusy; [discriminate | exact Hs].
Qed.

Lemma resume_flagged (env : Env) (i : nat) (s s' : Session) (effects : list Effect) :
  flagged s -> resume env i s = Some (s', effects) -> flagged s'.
Proof.
  intros Hs. unfold resume. destruct (suspended s !! i) as [c|]; [|now intros [= <- _]].
  destruct (Fetch.fetchPageData (net env) (c_path c) 0) as [[evs o]|]; [|discriminate].
  intros [= <- _]. intros Hbusy. cbn [world] in Hbusy.
  rewrite finallyBlock_idle in Hbusy. discriminate.
Qed.

Lemma step_flagged (x : Input) (s s' : Session) (effects : list Effect) :
  flagged s -> step s x = Some (s', effects) -> flagged s'.
Proof.
  intros Hs. destruct x as [env c|env statePath pathname|env i]; cbn [step].
  - intros [= H]. apply (f_equal fst) in H. cbn [fst] in H. subst s'.
    now apply begin_flagged.
  - intros [= H]. apply (f_equal fst) in H. cbn [fst] in H. subst s'.
    now apply (popstate_flagged env statePath pathname s).
  - now apply resume_flagged.
Qed.

Lemma run_flagged (xs : list Input) (s s' : Session) (effects : list Effect) :
  flagged s -> run xs s = Some (s', effects) -> flagged s'.
Proof.
  revert s effects. induction xs as [|x xs IH]; intros s effects Hs; cbn [run].
  - now intros [= <- _].
  - destruct (step s x) as [[s1 e1]|] eqn:Hstep; [|discriminate].
    destruct (run xs s1) as [[s2 e2]|] eqn:Hrun; [|discriminate].
    intros [= <- _]. exact (IH s1 e2 (step_flagged x s s1 e1 Hs Hstep) Hrun).
Qed.

(** Every handler ends. *)
Lemma run_total (xs : list Input) (s : Session) :
  exists s' effects, run xs s = Some (s', effects).
Proof.
  revert s. induction xs as [|x xs IH]; intros s; [now do 2 eexists|].
  assert (Hstep : exists s1 e1, step s x = Some (s1, e1)).
  { destruct x as [env c|env statePath pathname|env i]; cbn [step].
    - destruct (begin env c s). eauto.
    - destruct (popstate env statePath pathname s). eauto.
    - unfold resume. destruct (suspended s !! i) as [c|]; [|eauto].
      destruct (fetchPageData_total (net env) (c_path c) 0) as (evs & o & ->). eauto. }
  destruct Hstep as (s1 & e1 & Hstep). destruct (IH s1) as (s2 & e2 & Hrun).
  cbn [run]. rewrite Hstep, Hrun. eauto.
Qed.

(** While the flag stays set, calls without the initial-load flag change
    nothing, however many there are. *)
Lemma run_suppressed (calls : list (Env * Call)) (s : Session) :
  isNavigating (router (world s)) = true ->
  Forall (fun x => c_isInitial (snd x) = false) calls ->
  run ((fun x => Navigate (fst x) (snd x)) <$> calls) s = Some (s, []).
Proof.
  intros Hbusy. induction 1 as [|[env c] calls Hc _ IH]; [reflexivity|].
  rewrite fmap_cons. cbn [run step fst snd].
  rewrite (begin_suppressed env c s Hbusy Hc). now rewrite IH.
Qed.

(** The two halves put together are [navigate] run to its end: a call
    that is suspended and resumed at once, with nothing in between, does
    what the call of [navigate] does. *)
Lemma navigate_in_one_go (env : Env) (c : Call) (w : World) :
  navigate env (c_path c) (c_pushState c) (c_isInitial c) w =
  match begin env c (settledSession w) with
  | (s, effects) =>
      match suspended s with
      | [] => Some (world s, effects)
      | _ => (fun r => (world (fst r), effects ++ snd r)) <$> resume env 0 s
      end
  end.
Proof.
  unfold navigate, begin, settledSession. cbn [world suspended].
  destruct (isNavigating (router w) && negb (c_isInitial c)); [reflexivity|].
  destruct (orElse _ _) as [[|page]|]; cbn [suspended app world]; [|reflexivity|];
    unfold resume; cbn [suspended lookup list_lookup world];
    (destruct (Fetch.fetchPageData (net env) (c_path c) 0) as [[evs [data|name message]]|];
     [reflexivity| |reflexivity]);
    cbn [fmap option_fmap option_map fst snd world]; now rewrite app_nil_r.
Qed.

(** The same for a [popstate] event and [handlePopState]. *)
Lemma handlePopState_in_one_go (env : Env) (statePath : option string) (pathname : string)
    (w : World) :
  handlePopState env statePath pathname w =
  match popstate env statePath pathname (settledSession w) with
  | (s, effects) =>
      match suspended s with
      | [] => Some (world s, effects)
      | _ => (fun r => (world (fst r), effects ++ snd r)) <$> resume env 0 s
      end
  end.
Proof.
  unfold handlePopState, popstate. cbn [world suspended settledSession].
  case_bool_decide; [reflexivity|].
  match goal with
  | |- navigate env ?p false false ?w0 = _ =>
      exact (navigate_in_one_go env {| c_path := p; c_pushState := false;
                                       c_isInitial := false |} w0)
  end.
Qed.

End Overlap.




(** C10. A call of [navigate] without the initial-load flag that gets past
    its first line, finds no fragment for [path] in either cache and whose
    [fetchPageData] throws, ends: both caches, the current route and the
    whole document (content, title, head, history) are as before, the
    in-flight flag is [false], and the widgets are the ones it found with
    the loading state shown and hidden again and the error shown. Beside
    that the call has written [lastFailedPath], asked the persistence
    layer for its snapshot and made the requests of [fetchPageData]. *)
Theorem navigate_failure_is_atomic (env : Router.Env) (path : string) (pushHistory : bool)
    (w : Router.World) (evs : list Event) (name message : string) :
  Router.isNavigating (Router.router w) = false ->
  cachedPage path w = None ->
  Fetch.fetchPageData (Router.net env) path 0 = Some (evs, Thrown name message) ->
  exists w' effects,
    Router.navigate env path pushHistory false w = Some (w', effects) /\
    Router.cache (Router.router w') = Router.cache (Router.router w) /\
    Router.preloadCache (Router.router w') = Router.preloadCache (Router.router w) /\
    Router.currentRoute (Router.router w') = Router.currentRoute (Router.router w) /\
    Router.document w' = Router.document w /\
    Router.isNavigating (Router.router w') = false /\
    Router.widgets w' =
      Router.hideLoadingState
        (Router.showErrorWidgets message (Router.showLoadingState (Router.widgets w))) /\
    Router.lastFailedPath (Router.router w') = Router.currentRoute (Router.router w) /\
    effects = (if Router.hasPersistence w then [Router.BeforeNavigation] else []) ++
              map Router.Net evs.
Proof.
  intros Hidle Hmiss Hfetch. eexists _, _. split.
  - apply (navigate_failure env path pushHistory false w evs name message);
      [unfold proceeds; rewrite Hidle; reflexivity | exact Hmiss | exact Hfetch].
  - simpl. rewrite andb_true_r. split_and!; reflexivity.
Qed.

(** C10 on the dashboard, for a navigation to [/settings] that gets a 404. *)
Lemma navigate_failure_is_atomic_witness :
  exists w' effects,
    Router.navigate settingsMissing "/settings" true false (atDashboard false) =
      Some (w', effects) /\
    Router.cache (Router.router w') = Router.cache (Router.router (atDashboard false)) /\
    Router.preloadCache (Router.router w') =
      Router.preloadCache (Router.router (atDashboard false)) /\
    Router.currentRoute (Router.router w') =
      Router.currentRoute (Router.router (atDashboard false)) /\
    Router.document w' = Router.document (atDashboard false) /\
    Router.isNavigating (Router.router w') = false /\
    Router.widgets w' =
      Router.hideLoadingState
        (Router.showErrorWidgets "HTTP 404: Not Found"
           (Router.showLoadingState (Router.widgets (atDashboard false)))) /\
    Router.lastFailedPath (Router.router w') =
      Router.currentRoute (Router.router (atDashboard false)) /\
    effects = (if Router.hasPersistence (atDashboard false)
               then [Router.BeforeNavigation] else []) ++
              map Router.Net [EvFetch "/api/page-content/settings"].
Proof.
  apply (navigate_failure_is_atomic settingsMissing "/settings" true (atDashboard false)
           [EvFetch "/api/page-content/settings"] "Error" "HTTP 404: Not Found").
  - reflexivity.
  - vm_compute. reflexivity.
  - vm_compute. reflexivity.
Defined.

(** [showErrorState] records the route that is on display, not the path
    that was asked for. *)
Lemma navigate_failure_records_current_route (env : Router.Env) (path : string)
    (pushHistory isInitial : bool) (w : Router.World) (evs : list Event)
    (name message : string) :
  proceeds isInitial w = true ->
  cachedPage path w = None ->
  Fetch.fetchPageData (Router.net env) path 0 = Some (evs, Thrown name message) ->
  (fun r => Router.lastFailedPath (Router.router (fst r))) <$>
    Router.navigate env path pushHistory isInitial w =
  Some (Router.currentRoute (Router.router w)).
Proof.
  intros Hgo Hmiss Hfetch.
  rewrite (navigate_failure env path pushHistory isInitial w evs name message) by assumption.
  reflexivity.
Qed.

(** C8 (the code departs from it). On [/dashboard], a navigation to
    [/settings] fails with a 404. The retry button then hands [/dashboard]
    to [navigate], the route still on display, because [showErrorState]
    sets [lastFailedPath] from [currentRoute]; a click on it requests
    nothing and shows the dashboard again. *)
Theorem retry_goes_to_displayed_route :
  (fun r => Router.retryTarget (fst r)) <$>
    Router.navigate settingsMissing "/settings" true false (atDashboard false) =
    Some (Some "/dashboard") /\
  (fun r => (Router.currentRoute (Router.router (fst r)), snd r)) <$>
    (Router.navigate settingsMissing "/settings" true false (atDashboard false)
       ≫= fun r => Router.clickRetry settingsMissing (fst r)) =
    Some (Some "/dashboard", [Router.BeforeNavigation; Router.AfterNavigationIn50ms]).
Proof. split; vm_compute; reflexivity. Qed.

(** ** The click listener *)

Section ClickProperties.

Import Click.

(** The listener either lets the click through untouched or prevents the
    default action and calls [navigate] once, with the [href] as written. *)
Lemma onClick_cases (closest : option Link) :
  onClick closest = fallThrough \/
  exists link, closest = Some link /\
    onClick closest = {| defaultPrevented := true; navigateCalls := [href link] |}.
Proof.
  destruct closest as [link|]; [|now left]. simpl.
  destruct (skipped link); [now left | right; eauto].
Qed.

Lemma skipped_false_iff (l : Link) :
  skipped l = false <->
  href l <> "" /\
  startsWith "#" (href l) = false /\
  startsWith "mailto:" (href l) = false /\
  startsWith "tel:" (href l) = false /\
  includes "://" (href l) = false /\
  hasDownload l = false /\
  target l <> "_blank" /\
  ("external-link" ∉ classList l) /\
  hasDataNoSpa l = false.
Proof.
  unfold skipped, truthy.
  rewrite !orb_false_iff, negb_false_iff, negb_true_iff, bool_decide_eq_false.
  rewrite !String.eqb_neq. tauto.
Qed.

End ClickProperties.

(** C3, as stated, fails: a same-origin absolute URL is none of the
    exclusions the claim lists, and the listener leaves the click to the
    browser. *)
Lemma same_origin_absolute_url_falls_through :
  Click.spec_excluded "https://panel.example.com" absoluteServersLink = false /\
  Click.onClick (Some absoluteServersLink) = Click.fallThrough /\
  ~ (Click.defaultPrevented (Click.onClick (Some absoluteServersLink)) = true <->
     Click.spec_excluded "https://panel.example.com" absoluteServersLink = false).
Proof.
  split; [vm_compute; reflexivity|]. split; [vm_compute; reflexivity|].
  vm_compute. intros [_ H]. specialize (H eq_refl). discriminate.
Qed.

(** C3, amended. A click on a link is taken over (default action
    prevented, [navigate] called exactly once, with the link's [href])
    exactly when the [href] is not empty, starts with none of [#],
    [mailto:] and [tel:], does not contain [://] anywhere (so every
    absolute URL, of the panel's own origin or not, is left to the
    browser), and the link has no [download] attribute, no target
    [_blank], no class [external-link] and no [data-no-spa] attribute. In
    every other case, and when the click is on no link, nothing is
    prevented and [navigate] is not called. *)
Theorem click_interception_rule (link : Click.Link) :
  let eligible :=
    Click.href link <> "" /\
    startsWith "#" (Click.href link) = false /\
    startsWith "mailto:" (Click.href link) = false /\
    startsWith "tel:" (Click.href link) = false /\
    includes "://" (Click.href link) = false /\
    Click.hasDownload link = false /\
    Click.target link <> "_blank" /\
    ("external-link" ∉ Click.classList link) /\
    Click.hasDataNoSpa link = false in
  (Click.onClick (Some link) =
     {| Click.defaultPrevented := true; Click.navigateCalls := [Click.href link] |}
   <-> eligible) /\
  (Click.onClick (Some link) = Click.fallThrough <-> ~ eligible) /\
  Click.onClick None = Click.fallThrough.
Proof.
  intros eligible. subst eligible. rewrite <- skipped_false_iff. simpl.
  destruct (Click.skipped link); repeat split; try congruence; try discriminate.
Qed.

(** ** The preloader: what a call of [preloadPage] can do *)

Section PreloaderCalls.

Import Preloader.

Variable origin : string.

(** Without a link element [shouldPreload] never answers [true]: it
    answers [false] at one of its first five tests or throws at the
    sixth. *)
Lemma shouldPreload_without_element (s : State) (href : string) :
  shouldPreload origin s href None = inr false \/
  shouldPreload origin s href None = inl undefinedHasAttribute.
Proof.
  unfold shouldPreload.
  repeat match goal with
         | |- context [if ?b then _ else _] => destruct b; [now left|]
         end.
  now right.
Qed.

(** So a call of [preloadPage] leaves the preloader as it found it and
    requests nothing. *)
Lemma preloadPage_changes_nothing (t : Task) (s : State) :
  preloadPage origin t s = (s, NotEligible) \/
  preloadPage origin t s = (s, Rejected undefinedHasAttribute).
Proof.
  unfold preloadPage.
  destruct (shouldPreload_without_element s (t_href t)) as [-> | ->]; auto.
Qed.

(** A path that passes the first five tests makes the call throw. *)
Lemma preloadPage_rejects_eligible (t : Task) (s : State) :
  truthy (t_href t) = true ->
  (includes "://" (t_href t) && negb (startsWith origin (t_href t))) = false ->
  (startsWith "#" (t_href t) || startsWith "mailto:" (t_href t) ||
   startsWith "tel:" (t_href t)) = false ->
  Router.cache (router s) !! t_href t = None ->
  Router.preloadCache (router s) !! t_href t = None ->
  t_href t ∉ preloadingInProgress s ->
  preloadPage origin t s = (s, Rejected undefinedHasAttribute).
Proof.
  intros H1 H2 H3 H4 H5 H6. unfold preloadPage, shouldPreload.
  rewrite H1, H2, H3, H4, H5. simpl.
  rewrite bool_decide_eq_false_2 by assumption. reflexivity.
Qed.

Lemma step_initial (x : Input) : step origin initial x = initial.
Proof.
  destruct x as [t|i answer now|]; simpl.
  - now destruct (preloadPage_changes_nothing t initial) as [-> | ->].
  - reflexivity.
  - reflexivity.
Qed.

End PreloaderCalls.

(** ** The preloader: the bound on concurrent requests *)

Section PreloaderBound.

Import Preloader.

Variable origin : string.

Lemma bounded_size (s : State) :
  bounded s -> size (preloadingInProgress s) = length (inFlight s).
Proof.
  intros (Hnd & Hmem & _).
  rewrite <- (length_fmap t_href (inFlight s)).
  unfold size, set_size. simpl. apply Permutation_length.
  apply NoDup_Permutation; [apply NoDup_elements | exact Hnd |].
  intros h. rewrite elem_of_elements. symmetry. apply Hmem.
Qed.

Lemma shouldPreload_true_fresh (s : State) (href : string) (el : option LinkElement) :
  shouldPreload origin s href el = inr true -> href ∉ preloadingInProgress s.
Proof.
  unfold shouldPreload.
  repeat match goal with
         | |- context [if negb ?b then _ else _] => destruct b; simpl; [|discriminate]
         | |- context [if bool_decide (?x ∈ ?X) then _ else _] =>
             destruct (bool_decide_reflect (x ∈ X)); [discriminate | intros _; assumption]
         | |- context [if ?b then _ else _] => destruct b; [discriminate|]
         end.
Qed.

Lemma begin_bounded (t : Task) (s : State) :
  bounded s ->
  t_href t ∉ preloadingInProgress s ->
  (size (preloadingInProgress s) < maxConcurrentPreloads)%nat ->
  bounded (begin t s).
Proof.
  intros Hb Hfresh Hroom. pose proof (bounded_size s Hb) as Hsize.
  destruct Hb as (Hnd & Hmem & Hlen). unfold bounded, begin. simpl.
  rewrite fmap_app. simpl. repeat split.
  - apply NoDup_app. split; [exact Hnd|]. split; [|apply NoDup_singleton].
    intros h Hin Hh. apply list_elem_of_singleton in Hh. subst h.
    apply Hfresh. apply Hmem. exact Hin.
  - intros Hin. apply elem_of_app in Hin as [Hin|Hin].
    + apply elem_of_union_r, Hmem, Hin.
    + apply list_elem_of_singleton in Hin. subst h.
      apply elem_of_union_l, elem_of_singleton. reflexivity.
  - intros Hin. apply elem_of_app. apply elem_of_union in Hin as [Hin|Hin].
    + right. apply elem_of_singleton in Hin. subst h. apply list_elem_of_singleton. reflexivity.
    + left. apply Hmem, Hin.
  - rewrite length_app. simpl. lia.
Qed.

Lemma preloadPage_bounded (t : Task) (s : State) :
  bounded s -> bounded (fst (preloadPage origin t s)).
Proof.
  intros Hb. unfold preloadPage.
  destruct (shouldPreload origin s (t_href t) None) as [e|[|]] eqn:Hsp; try exact Hb.
  destruct (maxConcurrentPreloads <=? size (preloadingInProgress s))%nat eqn:Hfull.
  - exact Hb.
  - apply Nat.leb_gt in Hfull.
    apply begin_bounded; [exact Hb | eapply shouldPreload_true_fresh; exact Hsp | exact Hfull].
Qed.

Lemma release_bounded (i : nat) (t : Task) (s : State) :
  bounded s -> inFlight s !! i = Some t -> bounded (release i t s).
Proof.
  intros (Hnd & Hmem & Hlen) Hi. unfold bounded, release. simpl.
  pose proof (take_drop_middle (inFlight s) i t Hi) as Hsplit.
  rewrite <- Hsplit in Hnd, Hmem, Hlen.
  rewrite fmap_app in Hnd, Hmem. simpl in Hnd, Hmem.
  rewrite fmap_app.
  apply NoDup_app in Hnd as (Hnd1 & Hdisj & Hnd2).
  apply NoDup_cons in Hnd2 as (Hnot2 & Hnd2).
  assert (Hnot1 : t_href t ∉ t_href <$> take i (inFlight s)).
  { intros Hin. apply (Hdisj _ Hin). left. }
  repeat split.
  - apply NoDup_app. split; [exact Hnd1|]. split; [|exact Hnd2].
    intros h Hin Hin2. apply (Hdisj _ Hin). right. exact Hin2.
  - intros Hin. apply elem_of_difference. split.
    + apply Hmem. apply elem_of_app in Hin as [Hin|Hin]; apply elem_of_app;
        [left; exact Hin | right; right; exact Hin].
    + intros Heq. apply elem_of_singleton in Heq. subst h.
      apply elem_of_app in Hin as [Hin|Hin]; contradiction.
  - intros Hin. apply elem_of_difference in Hin as [Hin Hne].
    apply Hmem in Hin. apply elem_of_app in Hin as [Hin|Hin]; apply elem_of_app.
    + left. exact Hin.
    + right. apply elem_of_cons in Hin as [->|Hin]; [|exact Hin].
      exfalso. apply Hne. apply elem_of_singleton. reflexivity.
  - rewrite length_app in *. simpl in Hlen. lia.
Qed.

Lemma processPreloadQueue_bounded (s : State) :
  bounded s -> bounded (fst (processPreloadQueue origin s)).
Proof.
  intros Hb. unfold processPreloadQueue.
  destruct (length (preloadQueue s) =? 0)%nat; [exact Hb|].
  destruct (maxConcurrentPreloads <=? size (preloadingInProgress s))%nat; [exact Hb|].
  destruct (sortBy t_priority (preloadQueue s)) as [|next rest]; [exact Hb|].
  simpl. apply preloadPage_bounded. exact Hb.
Qed.

Lemma cleanupCache_keeps_flights (s : State) :
  inFlight (cleanupCache s) = inFlight s /\
  preloadingInProgress (cleanupCache s) = preloadingInProgress s.
Proof.
  unfold cleanupCache. destruct (length (preloadCache s) <=? maxCacheSize)%nat; [easy|].
  generalize (toRemove s). intros l. revert s.
  induction l as [|e l IH]; intros s; [easy|]. simpl.
  destruct (IH (evict (fst e) s)) as [-> ->]. easy.
Qed.

(** Every step keeps the bound: a request starts only below the guard
    [preloadingInProgress.size >= maxConcurrentPreloads]. *)
Lemma step_keeps_bound (s : State) (x : Input) : bounded s -> bounded (step origin s x).
Proof.
  intros Hb. destruct x as [t|i answer now|]; simpl.
  - apply preloadPage_bounded, Hb.
  - unfold settle. destruct (inFlight s !! i) as [t|] eqn:Hi; [|exact Hb].
    apply processPreloadQueue_bounded.
    match goal with |- bounded (release i t ?s') => assert (Hs : bounded s' /\ inFlight s' = inFlight s) end.
    { destruct answer as [response|e]; [|easy].
      destruct (ok response); [|easy]. destruct (json response); easy. }
    destruct Hs as [Hb' Hfl]. apply release_bounded; [exact Hb' | now rewrite Hfl].
  - destruct (cleanupCache_keeps_flights s) as [Hf Hp].
    unfold bounded. rewrite Hf, Hp. exact Hb.
Qed.

Lemma initial_bounded : bounded initial.
Proof.
  unfold bounded, initial. simpl. repeat split.
  - apply NoDup_nil_2.
  - intros H. inversion H.
  - intros H. set_solver.
  - lia.
Qed.

(** At most two preload requests are in flight at any point of any run. *)
Lemma in_flight_at_most_two (inputs : list Input) :
  (length (inFlight (run origin inputs initial)) <= 2)%nat.
Proof.
  assert (Hb : bounded (run origin inputs initial)).
  { unfold run. generalize initial, initial_bounded.
    induction inputs as [|x xs IH]; intros s Hs; [exact Hs|].
    simpl. apply IH, step_keeps_bound, Hs. }
  apply Hb.
Qed.

End PreloaderBound.

(** C9 (the code departs from it). [preloadNow(href)] is
    [preloadPage(href, 1, 'manual')], and [preloadPage] starts with
    [this.shouldPreload(href)], a call without the link element: for a
    path that is not cached and not being preloaded [shouldPreload] reaches
    [linkElement.hasAttribute] with [linkElement] undefined. Whatever the
    state and the path, [preloadNow] changes nothing and requests nothing;
    on a fresh preloader, [preloadNow('/admin/servers')] is rejected with
    the [TypeError]. *)
Theorem preloadNow_never_fetches (origin href : string) (s : Preloader.State) :
  (exists started,
     Preloader.preloadNow origin href s = (s, started) /\
     forall url, started <> Preloader.Fetching url) /\
  Preloader.preloadNow "https://panel.example.com" "/admin/servers" Preloader.initial =
    (Preloader.initial, Preloader.Rejected Preloader.undefinedHasAttribute).
Proof.
  split.
  - unfold Preloader.preloadNow.
    destruct (preloadPage_changes_nothing origin
                {| Preloader.t_href := href; Preloader.t_priority := 1;
                   Preloader.t_source := "manual" |} s) as [-> | ->];
      eexists; (split; [reflexivity | discriminate]).
  - apply preloadPage_rejects_eligible; try reflexivity. simpl. set_solver.
Qed.

(** ** The stable sort *)

Section SortBy.

Context {A : Type} (key : A -> Z).

Lemma insertBy_Permutation (x : A) (l : list A) : insertBy key x l ≡ₚ x :: l.
Proof.
  induction l as [|y l IH]; simpl; [reflexivity|].
  destruct (key x <=? key y); [reflexivity|].
  rewrite IH. apply Permutation_swap.
Qed.

Lemma sortBy_Permutation (l : list A) : sortBy key l ≡ₚ l.
Proof.
  induction l as [|x l IH]; simpl; [reflexivity|].
  unfold sortBy in *. simpl. rewrite insertBy_Permutation, IH. reflexivity.
Qed.

Lemma insertBy_sorted (x : A) (l : list A) :
  StronglySorted (keyLe key) l -> StronglySorted (keyLe key) (insertBy key x l).
Proof.
  induction 1 as [|y l Hs IH Hall]; simpl.
  - repeat constructor.
  - destruct (key x <=? key y) eqn:Hle.
    + apply Z.leb_le in Hle. constructor; [constructor; assumption|].
      constructor; [exact Hle|].
      eapply Forall_impl; [exact Hall|]. unfold keyLe. intros z Hz. lia.
    + apply Z.leb_gt in Hle. constructor; [exact IH|].
      rewrite insertBy_Permutation. constructor; [unfold keyLe; lia | exact Hall].
Qed.

Lemma sortBy_sorted (l : list A) : StronglySorted (keyLe key) (sortBy key l).
Proof.
  induction l as [|x l IH]; [constructor|].
  unfold sortBy in *. simpl. apply insertBy_sorted, IH.
Qed.

End SortBy.

(** ** The preloader: the order in which the queue is drained *)

Section PreloaderQueue.

Import Preloader.

Variable origin : string.

(** When [processPreloadQueue] takes a request from the queue it takes one
    of the lowest priority number, removes it and hands it to
    [preloadPage]. *)
Lemma processPreloadQueue_picks_most_urgent (s s' : State) (next : Task) (started : Started) :
  processPreloadQueue origin s = (s', Some (next, started)) ->
  next ∈ preloadQueue s /\
  (forall t, t ∈ preloadQueue s -> t_priority next <= t_priority t) /\
  (size (preloadingInProgress s) < maxConcurrentPreloads)%nat /\
  (s', started) = preloadPage origin next (dequeue next s).
Proof.
  unfold processPreloadQueue.
  destruct (length (preloadQueue s) =? 0)%nat; [discriminate|].
  destruct (maxConcurrentPreloads <=? size (preloadingInProgress s))%nat eqn:Hfull;
    [discriminate|].
  pose proof (sortBy_Permutation t_priority (preloadQueue s)) as Hperm.
  pose proof (sortBy_sorted t_priority (preloadQueue s)) as Hsorted.
  destruct (sortBy t_priority (preloadQueue s)) as [|first rest]; [discriminate|].
  intros [= <- <- <-]. apply Nat.leb_gt in Hfull.
  apply StronglySorted_inv in Hsorted as [_ Hall]. rewrite Forall_forall in Hall.
  split_and!.
  - rewrite <- Hperm. left.
  - intros t Ht. rewrite <- Hperm in Ht. apply elem_of_cons in Ht as [->|Ht].
    + lia.
    + apply Hall, Ht.
  - exact Hfull.
  - now destruct (preloadPage origin first (dequeue first s)).
Qed.

End PreloaderQueue.

(** ** The preloader on a page with a router *)

Section PreloaderSessions.

Import Preloader.

Variable origin : string.

Lemma cleanupCache_empty (s : State) : preloadCache s = [] -> cleanupCache s = s.
Proof. unfold cleanupCache. now intros ->. Qed.

(** Nothing of the preloader's own gets under way: a call of [preloadPage]
    ends at its first statement, so there is no answer to wait for and
    nothing to file or to evict. *)
Lemma happen_dormant (s : State) (h : Happening) : dormant s -> dormant (happen origin s h).
Proof.
  intros (Hq & Hp & Hc & Hf). destruct h as [[t|i a now|]|act]; cbn [happen step].
  - destruct (preloadPage_changes_nothing origin t s) as [-> | ->]; now split_and!.
  - unfold settle. rewrite Hf. cbn. now split_and!.
  - rewrite cleanupCache_empty by exact Hc. now split_and!.
  - now split_and!.
Qed.

Lemma session_dormant (hs : list Happening) (s : State) :
  dormant s -> dormant (session origin hs s).
Proof.
  unfold session. revert s. induction hs as [|h hs IH]; intros s Hs; [exact Hs|].
  cbn [fold_left]. apply IH, happen_dormant, Hs.
Qed.

Lemma initial_dormant : dormant initial.
Proof. now split_and!. Qed.

(** Every step keeps the bound, those of the router included. *)
Lemma happen_bounded (s : State) (h : Happening) : bounded s -> bounded (happen origin s h).
Proof.
  intros Hb. destruct h as [x|act]; [now apply step_keeps_bound | exact Hb].
Qed.

Lemma session_app (hs hs' : list Happening) (s : State) :
  session origin (hs ++ hs') s = session origin hs' (session origin hs s).
Proof. unfold session. apply fold_left_app. Qed.

End PreloaderSessions.


(** C5 (the code departs from it). The cleanup tests the size of the
    preloader's own [preloadCache], a map that only [preloadPage] of the
    preloader fills, after a request that no call ever makes (see C9). At
    every point of every execution that map is empty, and the cleanup
    returns at its first line whatever the speculative cache of the router
    holds. The router fills that cache by its own hover preloading: after
    the hover preloads of twenty-five pages it holds twenty-five entries,
    five more than [maxCacheSize], and the cleanup leaves all of them. *)
Theorem cleanupCache_never_evicts (origin : string) (hs : list Preloader.Happening) :
  let s := Preloader.session origin hs Preloader.initial in
  Preloader.preloadCache s = [] /\
  Preloader.cleanupCache s = s /\
  let hovers := (fun i => Preloader.routerPreload (answer 200 "OK") (pagePath i)) <$> seq 1 25 in
  let s25 := Preloader.session origin hovers Preloader.initial in
  size (Router.preloadCache (Preloader.router s25)) = 25%nat /\
  (Preloader.maxCacheSize < size (Router.preloadCache (Preloader.router s25)))%nat /\
  Preloader.session origin (hovers ++ [Preloader.Own Preloader.Cleanup]) Preloader.initial
    = s25.
Proof.
  intros s.
  destruct (session_dormant origin hs Preloader.initial initial_dormant)
    as (_ & _ & Hc & _).
  fold s in Hc. split; [exact Hc|]. split; [now apply cleanupCache_empty|].
  intros hovers s25.
  assert (Hsize : size (Router.preloadCache (Preloader.router s25)) = 25%nat)
    by (vm_compute; reflexivity).
  split_and!.
  - exact Hsize.
  - rewrite Hsize. unfold Preloader.maxCacheSize. lia.
  - rewrite session_app. fold s25. cbn [Preloader.session fold_left Preloader.happen
      Preloader.step].
    apply cleanupCache_empty.
    now destruct (session_dormant origin hovers Preloader.initial initial_dormant)
      as (_ & _ & Hc' & _).
Qed.

(** ** Class tokens and objects *)

Section Tokens.

Lemma append_cons (c : ascii) (s t : string) : String c s +:+ t = String c (s +:+ t).
Proof. reflexivity. Qed.

Lemma append_empty_r (s : string) : s +:+ "" = s.
Proof. induction s as [|c s IH]; [reflexivity | now rewrite append_cons, IH]. Qed.

Lemma append_assoc (a b c : string) : (a +:+ b) +:+ c = a +:+ (b +:+ c).
Proof. induction a as [|x a IH]; [reflexivity | now rewrite !append_cons, IH]. Qed.

Lemma tokensFrom_cons (cur : string) (c : ascii) (rest : string) :
  tokensFrom cur (String c rest) =
  if isSpace c then (if negb (String.eqb cur "") then [cur] else []) ++ tokensFrom "" rest
  else tokensFrom (cur +:+ String c "") rest.
Proof. reflexivity. Qed.

(** Reading a token without white space moves it into the token read so
    far. *)
Lemma tokensFrom_token (cur t rest : string) :
  noSpace t = true -> tokensFrom cur (t +:+ rest) = tokensFrom (cur +:+ t) rest.
Proof.
  revert cur. induction t as [|c t IH]; intros cur Hns.
  - change ("" +:+ rest) with rest. now rewrite append_empty_r.
  - simpl in Hns. apply andb_true_iff in Hns as [Hc Ht].
    apply negb_true_iff in Hc.
    rewrite append_cons, tokensFrom_cons, Hc, IH by exact Ht.
    now rewrite append_assoc.
Qed.

Lemma tokensFrom_join (l : list string) :
  forallb isToken l = true -> tokensFrom "" (join " " l) = l.
Proof.
  induction l as [|x l IH]; intros Hall; [reflexivity|].
  simpl in Hall. apply andb_true_iff in Hall as [Hx Hl].
  apply andb_true_iff in Hx as [Hne Hns].
  destruct l as [|y l].
  - change (join " " [x]) with x. rewrite <- (append_empty_r x) at 1.
    rewrite tokensFrom_token by exact Hns.
    change ("" +:+ x) with x. simpl. now rewrite Hne.
  - change (join " " (x :: y :: l)) with (x +:+ String " " (join " " (y :: l))).
    rewrite tokensFrom_token by exact Hns.
    change ("" +:+ x) with x.
    rewrite tokensFrom_cons. change (isSpace " ") with true. cbv iota.
    rewrite Hne, IH by exact Hl. reflexivity.
Qed.

Lemma dedupe_NoDup (seen l : list string) :
  NoDup l -> (forall x, x ∈ l -> x ∉ seen) -> dedupe seen l = l.
Proof.
  revert seen. induction l as [|x l IH]; intros seen Hnd Hfresh; [reflexivity|].
  apply NoDup_cons in Hnd as [Hx Hnd]. simpl.
  rewrite bool_decide_eq_false_2 by (apply Hfresh; left).
  f_equal. apply IH; [exact Hnd|].
  intros y Hy Hin. apply elem_of_cons in Hin as [->|Hin]; [contradiction|].
  apply (Hfresh y); [now right | exact Hin].
Qed.

(** Assigning to [className] the class list joined by spaces gives the
    class list back. *)
Lemma classTokens_join (l : list string) :
  forallb isToken l = true -> NoDup l -> classTokens (join " " l) = l.
Proof.
  intros Htok Hnd. unfold classTokens. rewrite tokensFrom_join by exact Htok.
  apply dedupe_NoDup; [exact Hnd|]. intros x _ Hin. inversion Hin.
Qed.

Context {V : Type}.

Lemma elem_of_objSet (k k' : string) (v v' : V) (o : list (string * V)) :
  (k, v) ∈ objSet k' v' o -> (k, v) = (k', v') \/ (k, v) ∈ o.
Proof.
  induction o as [|[k0 v0] o IH]; simpl.
  - intros H. apply list_elem_of_singleton in H. now left.
  - destruct (String.eqb k' k0).
    + intros H. apply elem_of_cons in H as [H|H]; [now left | right; now right].
    + intros H. apply elem_of_cons in H as [H|H]; [right; rewrite H; left|].
      destruct (IH H) as [?|?]; [now left | right; now right].
Qed.

(** An entry of an object was assigned to it at some point. *)
Lemma elem_of_fromEntries (k : string) (v : V) (entries : list (string * V)) :
  (k, v) ∈ fromEntries entries -> (k, v) ∈ entries.
Proof.
  unfold fromEntries.
  assert (H : forall o, (k, v) ∈ fold_left (fun o kv => objSet (fst kv) (snd kv) o) entries o ->
                        (k, v) ∈ o \/ (k, v) ∈ entries).
  { induction entries as [|[k' v'] entries IH]; intros o Hin; simpl in Hin; [now left|].
    destruct (IH _ Hin) as [Ho|He]; [|right; now right].
    destruct (elem_of_objSet _ _ _ _ _ Ho) as [Heq|Ho']; [|now left].
    right. rewrite Heq. left. }
  intros Hin. destruct (H [] Hin) as [Hnil|He]; [inversion Hnil | exact He].
Qed.

(** Writing to a key the value it already has changes nothing. *)
Lemma objSet_same (k : string) (v : V) (o : list (string * V)) :
  NoDup (fst <$> o) -> (k, v) ∈ o -> objSet k v o = o.
Proof.
  induction o as [|[k0 v0] o IH]; intros Hnd Hin; [inversion Hin|].
  simpl in Hnd. apply NoDup_cons in Hnd as [Hk0 Hnd]. simpl.
  destruct (String.eqb_spec k k0) as [->|Hne].
  - apply elem_of_cons in Hin as [Heq|Hin]; [congruence|].
    exfalso. apply Hk0. apply list_elem_of_fmap. exists (k0, v). auto.
  - apply elem_of_cons in Hin as [Heq|Hin]; [congruence|].
    f_equal. apply IH; assumption.
Qed.

End Tokens.

(** ** Queries and writes on trees *)

Section TreeQueries.

Import Persistence.

(** Induction on trees, with the property for every child. *)
Lemma Tree_forall_ind (P : Tree -> Prop) :
  (forall e ch, Forall P ch -> P (Node e ch)) -> forall t, P t.
Proof.
  intros Hnode. fix IH 1. intros [e ch]. apply Hnode.
  induction ch as [|c ch IHch]; constructor; [apply IH | exact IHch].
Qed.

Lemma find_app {A : Type} (q : A -> bool) (l k : list A) :
  find q (l ++ k) = match find q l with Some x => Some x | None => find q k end.
Proof. induction l as [|x l IH]; simpl; [reflexivity|]. now destruct (q x). Qed.

Variable p : Element -> bool.
Variable g : Tree -> Tree.

Lemma writeSpec_forest (l : list Tree) :
  Forall (writeSpec p g) l ->
  (find (fun t => p (root t)) (nodes l) = None -> updForest p g l = None) /\
  (forall u, find (fun t => p (root t)) (nodes l) = Some u -> g u = u ->
             updForest p g l = Some l).
Proof.
  unfold nodes, updForest. induction 1 as [|c l [Hnone Hsome] _ [IHnone IHsome]];
    [split; [reflexivity | discriminate]|].
  simpl. rewrite find_app.
  destruct (find (fun t => p (root t)) (subtrees c)) as [u'|] eqn:Hc.
  - split; [discriminate|]. intros u [= <-] Hu. now rewrite (Hsome u').
  - rewrite Hnone by reflexivity. split.
    + intros Hl. now rewrite IHnone.
    + intros u Hl Hu. now rewrite (IHsome u).
Qed.

Lemma writeSpec_tree (t : Tree) : writeSpec p g t.
Proof.
  induction t as [e ch IH] using Tree_forall_ind.
  destruct (writeSpec_forest ch IH) as [Hnone Hsome].
  unfold writeSpec. simpl. destruct (p e).
  - split; [discriminate|]. intros u [= <-] Hu. now rewrite Hu.
  - split.
    + intros Hch. fold (updForest p g ch). now rewrite Hnone.
    + intros u Hch Hu. fold (updForest p g ch). now rewrite (Hsome u).
Qed.

(** A write that gives the node found the content it has leaves the
    forest as it is. *)
Lemma writeFirst_same (forest : list Tree) (u : Tree) :
  querySelector p forest = Some u -> g u = u -> writeFirst p g forest = forest.
Proof.
  intros Hfind Hu. unfold writeFirst.
  destruct (writeSpec_forest forest) as [_ Hsome].
  - apply Forall_forall. intros t _. apply writeSpec_tree.
  - now rewrite (Hsome u).
Qed.

End TreeQueries.

Section Positions.

Import Persistence.

Lemma indexOf_find {A : Type} (q : A -> bool) (l : list A) (i : nat) (x : A) :
  indexOf q l = Some i -> l !! i = Some x -> find q l = Some x.
Proof.
  revert i. induction l as [|y l IH]; intros i; simpl; [discriminate|].
  destruct (q y).
  - intros [= <-]. simpl. congruence.
  - destruct (indexOf q l) as [j|]; [|discriminate].
    simpl. intros [= <-]. simpl. apply IH. reflexivity.
Qed.

Lemma indexOf_none {A : Type} (q : A -> bool) (l : list A) :
  indexOf q l = None -> find q l = None.
Proof.
  induction l as [|y l IH]; simpl; [reflexivity|].
  destruct (q y); [discriminate|].
  destruct (indexOf q l); [discriminate|]. intros _. now apply IH.
Qed.

Lemma allFrom_lookup {A : Type} (f : nat -> A -> bool) (l : list A) (k i : nat) (x : A) :
  allFrom k f l = true -> l !! i = Some x -> f (k + i)%nat x = true.
Proof.
  revert k i. induction l as [|y l IH]; intros k i Hall Hi; [discriminate|].
  simpl in Hall. apply andb_true_iff in Hall as [Hy Hl].
  destruct i as [|i]; simpl in Hi.
  - injection Hi as ->. now rewrite Nat.add_0_r.
  - replace (k + S i)%nat with (S k + i)%nat by lia. now apply IH.
Qed.

(** A member of [keyed] is a node of the list, at the position recorded. *)
Lemma elem_of_keyed (what : string) (clock : nat -> Z) (pr : Element -> bool)
    (l : list Tree) (k i0 : nat) (key : string) (i : nat) (t : Tree) :
  (key, (i, t)) ∈ keyed what clock pr k i0 l ->
  exists j, i = (i0 + j)%nat /\ l !! j = Some t.
Proof.
  revert k i0. induction l as [|x l IH]; intros k i0 Hin; simpl in Hin; [inversion Hin|].
  assert (Hrest : forall k', (key, (i, t)) ∈ keyed what clock pr k' (S i0) l ->
                             exists j, i = (i0 + j)%nat /\ (x :: l) !! j = Some t).
  { intros k' H. destruct (IH _ _ H) as (j & -> & Hj). exists (S j). split; [lia | exact Hj]. }
  destruct (pr (root x)); [|eauto].
  destruct (truthy (id (root x)));
    (apply elem_of_cons in Hin as [[= -> -> ->]|Hin];
     [exists 0%nat; split; [lia | reflexivity] | eauto]).
Qed.

End Positions.

(** ** Restoring a snapshot onto the region it was taken from *)

Section RestoreProperties.

Import Persistence.

Lemma validElement_spec (e : Element) :
  validElement e = true ->
  NoDup (fst <$> attributes e) /\
  forall disabled, control e = Field disabled -> stripLineBreaks (value e) = value e.
Proof.
  unfold validElement. rewrite andb_true_iff, bool_decide_eq_true.
  intros [Hnd Hv]. split; [exact Hnd|]. intros disabled Hc. rewrite Hc in Hv.
  now apply String.eqb_eq.
Qed.

Lemma setClassName_same (e : Element) :
  tidyClass e = true -> setClassName (join " " (classList e)) e = e.
Proof.
  unfold tidyClass, setClassName. intros <-%String.eqb_eq. now destruct e.
Qed.

Lemma elem_of_getElementAttributes (e : Element) (a : string * string) :
  a ∈ getElementAttributes e -> a ∈ attributes e.
Proof.
  unfold getElementAttributes.
  assert (H : forall acc,
            a ∈ fold_left (fun attrs a => if whitelisted (fst a)
                                          then objSet (fst a) (snd a) attrs else attrs)
                  (attributes e) acc ->
            a ∈ acc \/ a ∈ attributes e).
  { induction (attributes e) as [|[n v] l IH]; intros acc Hin; simpl in Hin; [now left|].
    destruct (IH _ Hin) as [Hacc|Hl]; [|right; now right].
    destruct (whitelisted n); [|now left].
    destruct a as [n' v']. destruct (elem_of_objSet _ _ _ _ _ Hacc) as [Heq|Hacc'];
      [right; rewrite Heq; left | now left]. }
  intros Hin. destruct (H [] Hin) as [Hnil|Hl]; [inversion Hnil | exact Hl].
Qed.

Lemma setAttribute_same (e : Element) (a : string * string) :
  validElement e = true -> a ∈ attributes e -> setAttribute (fst a) (snd a) e = e.
Proof.
  intros [Hnd _]%validElement_spec Hin. unfold setAttribute.
  destruct a as [n v]. rewrite objSet_same by assumption. now destruct e.
Qed.

Lemma setAttributes_same (e : Element) (attrs : list (string * string)) :
  validElement e = true -> (forall a, a ∈ attrs -> a ∈ attributes e) ->
  setAttributes attrs e = e.
Proof.
  intros Hv. unfold setAttributes. induction attrs as [|a attrs IH]; intros Hall; [reflexivity|].
  simpl. rewrite setAttribute_same by (auto; apply Hall; left).
  apply IH. intros b Hb. apply Hall. now right.
Qed.

(** Writing back the classes and attributes read from an element. *)
Lemma rewrite_same (e : Element) :
  validElement e = true -> tidyClass e = true ->
  setAttributes (getElementAttributes e) (setClassName (join " " (classList e)) e) = e.
Proof.
  intros Hv Htidy. rewrite setClassName_same by exact Htidy.
  apply setAttributes_same; [exact Hv | apply elem_of_getElementAttributes].
Qed.

(** An attribute that [getAttribute] reads is among the attributes. *)
Lemma getAttribute_elem_of (n v : string) (e : Element) :
  getAttribute n e = Some v -> (n, v) ∈ attributes e.
Proof.
  unfold getAttribute. destruct (find _ (attributes e)) as [[n' v']|] eqn:Hfind; [|discriminate].
  intros [= <-]. apply find_some in Hfind as [Hin Heq]. simpl in *.
  apply String.eqb_eq in Heq. subst n'. now apply list_elem_of_In.
Qed.

(** Writing back the value a control submits. *)
Lemma setValue_same (c : Element) (n v : string) :
  validElement c = true -> keepsValue c = true ->
  submits c = Some (n, v) -> setValue v c = c.
Proof.
  intros Hv Hkeeps. pose proof (validElement_spec c Hv) as [_ Hvalue].
  unfold submits, setValue, keepsValue, hasAttribute in *.
  destruct (control c) as [|[|]|[|] [|]] eqn:Hc; try discriminate;
    destruct (getAttribute "name" c) as [n'|]; try discriminate;
    destruct (truthy n'); try discriminate; intros [= _ <-].
  - rewrite (Hvalue false eq_refl). destruct c. simpl in *. now rewrite Hc.
  - apply bool_decide_eq_true in Hkeeps as [x Hx]. rewrite Hx. simpl.
    exact (setAttribute_same c ("value", x) Hv (getAttribute_elem_of _ _ _ Hx)).
Qed.

Lemma forEach_same {A X : Type} (f : X -> A -> Restored A) (xs : list X) (a : A) :
  (forall x, x ∈ xs -> f x a = Done a) -> forEach f xs a = Done a.
Proof.
  unfold forEach. induction xs as [|x xs IH]; intros Hall; [reflexivity|].
  simpl. rewrite Hall by left. apply IH. intros y Hy. apply Hall. now right.
Qed.

(** The nodes below a node are nodes of every tree the node is in. *)
Lemma subtrees_trans (t u v : Tree) : u ∈ subtrees t -> v ∈ subtrees u -> v ∈ subtrees t.
Proof.
  revert u v. induction t as [e ch IH] using Tree_forall_ind. intros u v Hu Hv.
  cbn [subtrees] in Hu. apply elem_of_cons in Hu as [->|Hu]; [exact Hv|].
  cbn [subtrees]. right.
  apply list_elem_of_In, in_flat_map in Hu as (c & Hc & Hu).
  apply list_elem_of_In, in_flat_map. exists c. split; [exact Hc|].
  apply list_elem_of_In. rewrite Forall_forall in IH.
  apply (IH c (proj2 (list_elem_of_In _ _) Hc) u v); [now apply list_elem_of_In | exact Hv].
Qed.

Lemma nodes_below (l : list Tree) (t u : Tree) :
  t ∈ nodes l -> u ∈ nodes (childrenOf t) -> u ∈ nodes l.
Proof.
  unfold nodes. intros Ht Hu.
  apply list_elem_of_In, in_flat_map in Ht as (c & Hc & Ht).
  apply list_elem_of_In, in_flat_map. exists c. split; [exact Hc|].
  apply list_elem_of_In. apply (subtrees_trans c t u); [now apply list_elem_of_In|].
  destruct t as [e ch]. cbn [subtrees]. right. exact Hu.
Qed.

Variable forest : list Tree.
Hypothesis Hwf : wellFormed forest = true.

Lemma member_valid (t : Tree) : t ∈ nodes forest -> validElement (root t) = true.
Proof.
  intros Hin. unfold wellFormed in Hwf. rewrite forallb_forall in Hwf.
  apply Hwf, list_elem_of_In. unfold descendants.
  apply list_elem_of_fmap. exists t. split; [reflexivity | exact Hin].
Qed.

Lemma node_valid (i : nat) (t : Tree) : nodes forest !! i = Some t -> validElement (root t) = true.
Proof. intros Hi. apply member_valid. apply list_elem_of_lookup. eauto. Qed.

Lemma query_at (sel : Selector) (i : nat) (t : Tree) :
  firstIndex sel forest = Some i -> nodes forest !! i = Some t ->
  querySelector (matches sel) forest = Some t.
Proof. intros Hfirst Hi. unfold querySelector. eapply indexOf_find; eassumption. Qed.

(** The active elements. *)
Lemma restoreActive_same (info : ActiveInfo) :
  activeFound forest = true ->
  info ∈ activeInfo <$> filter isActive (descendants forest) ->
  restoreActive info forest = Done forest.
Proof.
  intros Hfound Hin.
  apply list_elem_of_fmap in Hin as (e & -> & He).
  apply list_elem_of_filter in He as [Hact He].
  apply list_elem_of_fmap in He as (t & -> & Ht).
  unfold activeFound in Hfound. rewrite forallb_forall in Hfound.
  pose proof (Hfound t (proj1 (list_elem_of_In _ _) Ht)) as Hf.
  apply Is_true_true in Hact. rewrite Hact in Hf. simpl in Hf.
  apply andb_true_iff in Hf as [Hf Hlike]. apply andb_true_iff in Hf as [Hparse Htidy].
  apply bool_decide_eq_true in Hlike.
  unfold restoreActive, activeInfo. simpl. rewrite Hparse. f_equal.
  destruct (querySelector (matches (getElementSelector (root t))) forest) as [u|] eqn:Hq;
    [|discriminate].
  injection Hlike as Hlike.
  apply (writeFirst_same _ _ _ u); [exact Hq|].
  destruct u as [e ch]. simpl in *. rewrite Hlike. f_equal.
  apply rewrite_same; [exact (member_valid t Ht) | exact Htidy].
Qed.

(** A lookup by key and fallback that lands on position [i]. *)
Lemma keyed_target (key : string) (fallback : Selector) (i : nat) (t : Tree)
    (g : Tree -> Restored Tree) :
  parses (ById key) = true ->
  targetIndex key fallback forest = Some i ->
  nodes forest !! i = Some t ->
  g t = Done t ->
  restoreKeyed key fallback g forest = Done forest.
Proof.
  intros Hparse Htarget Hi Hg. unfold restoreKeyed. rewrite Hparse.
  assert (Hq : querySelector
                 (if bool_decide (is_Some (querySelector (matches (ById key)) forest))
                  then matches (ById key) else matches fallback) forest = Some t).
  { unfold targetIndex in Htarget.
    destruct (firstIndex (ById key) forest) as [j|] eqn:Hfirst.
    - injection Htarget as ->. rewrite (query_at _ _ _ Hfirst Hi).
      rewrite bool_decide_eq_true_2 by eauto. exact (query_at _ _ _ Hfirst Hi).
    - assert (Hnone : querySelector (matches (ById key)) forest = None)
        by (apply indexOf_none; exact Hfirst).
      rewrite Hnone, bool_decide_eq_false_2 by (apply is_Some_None).
      exact (query_at _ _ _ Htarget Hi). }
  rewrite Hq, Hg. simpl. f_equal. now apply (writeFirst_same _ _ _ t).
Qed.

End RestoreProperties.

Section RestoreEntries.

Import Persistence.

Variable clock : nat -> Z.
Variable forest : list Tree.

(** The fields of a form. *)
Lemma restoreFields_same (form : Tree) :
  (forall u, u ∈ nodes (childrenOf form) -> validElement (root u) = true) ->
  fieldsFound form = true ->
  forEach restoreField (fromEntries (formEntries form)) form = Done form.
Proof.
  intros Hvalid Hfound. apply forEach_same. intros [n v] Hin.
  apply elem_of_fromEntries in Hin. unfold formEntries in Hin.
  apply list_elem_of_omap in Hin as (c & Hc & Hsub).
  apply list_elem_of_fmap in Hc as (u & -> & Hu).
  pose proof (Hvalid u Hu) as Hv.
  apply list_elem_of_lookup in Hu as [j Hj].
  pose proof (allFrom_lookup _ _ 0 j u Hfound Hj) as Hf. simpl in Hf.
  rewrite Hsub in Hf. apply andb_true_iff in Hf as [Hf Hkeeps].
  apply andb_true_iff in Hf as [Hparse Hidx].
  apply bool_decide_eq_true in Hidx.
  unfold restoreField. cbn [fst snd parses]. cbn [parses] in Hparse. rewrite Hparse. f_equal.
  rewrite (writeFirst_same _ _ _ u).
  - now destruct form.
  - unfold querySelector. eapply indexOf_find; eassumption.
  - destruct u as [c ch]. simpl. f_equal. eapply setValue_same; eassumption.
Qed.

Lemma restoreForm_same (entry : string * list (string * string)) :
  wellFormed forest = true ->
  formsFound clock forest = true ->
  entry ∈ fromEntries (formAssignments clock forest) ->
  restoreForm entry forest = Done forest.
Proof.
  intros Hwf Hfound Hin. destruct entry as [key data].
  apply elem_of_fromEntries in Hin. unfold formAssignments in Hin.
  apply list_elem_of_fmap in Hin as ([key' [i t]] & [= -> ->] & Hx).
  unfold formsFound in Hfound. rewrite forallb_forall in Hfound.
  pose proof (Hfound _ (proj1 (list_elem_of_In _ _) Hx)) as Hf. cbn [fst snd] in Hf.
  apply andb_true_iff in Hf as [Hf Hfields]. apply andb_true_iff in Hf as [Hparse Hidx].
  apply bool_decide_eq_true in Hidx.
  apply elem_of_keyed in Hx as (j & -> & Hj).
  unfold restoreForm. cbn [fst snd].
  apply (keyed_target forest key' AnyForm (0 + j) t); auto.
  apply restoreFields_same; [|exact Hfields].
  intros u Hu. apply (member_valid forest Hwf).
  apply (nodes_below forest t u); [|exact Hu].
  apply list_elem_of_lookup. eauto.
Qed.

Lemma restoreToggle_same (entry : string * ToggleInfo) :
  wellFormed forest = true ->
  togglesFound clock forest = true ->
  entry ∈ fromEntries (toggleAssignments clock forest) ->
  restoreToggle entry forest = Done forest.
Proof.
  intros Hwf Hfound Hin. destruct entry as [key data].
  apply elem_of_fromEntries in Hin. unfold toggleAssignments in Hin.
  apply list_elem_of_fmap in Hin as ([key' [i t]] & [= -> ->] & Hx).
  unfold togglesFound in Hfound. rewrite forallb_forall in Hfound.
  pose proof (Hfound _ (proj1 (list_elem_of_In _ _) Hx)) as Hf. cbn [fst snd] in Hf.
  apply andb_true_iff in Hf as [Hf Htidy].
  apply andb_true_iff in Hf as [Hparse Hidx]. apply bool_decide_eq_true in Hidx.
  apply elem_of_keyed in Hx as (j & -> & Hj).
  unfold restoreToggle. cbn [fst snd].
  apply (keyed_target forest key' DataToggle (0 + j) t); auto.
  unfold toggleInfo. cbn [g_classes g_attributes g_style].
  rewrite rewrite_same by (try exact (node_valid forest Hwf _ _ Hj); exact Htidy).
  f_equal. destruct t as [e ch]. simpl. f_equal.
  destruct (truthy (cssText e)); [now destruct e | reflexivity].
Qed.

End RestoreEntries.


(** Two more regions on which the round trip fails. A link without an id
    whose class attribute is a single space is recorded under the selector
    [a.], which is no selector: the restore throws at its query. A checked
    checkbox without a [value] attribute submits [on], and the restore,
    assigning [on] to its [value], gives it the attribute. *)
Lemma restore_fails_on_blank_class_and_bare_checkbox :
  Persistence.restoreComponentState blankLink
    (Persistence.captureComponentState wallClock blankLink) =
    Persistence.NotModelled (Persistence.ByTag "a" [""]) /\
  Persistence.text (Persistence.ByTag "a" [""]) = "a." /\
  exists r,
    Persistence.restoreComponentState bareCheckbox
      (Persistence.captureComponentState wallClock bareCheckbox) = Persistence.Done r /\
    r <> bareCheckbox /\
    (Persistence.getAttribute "value" <$> Persistence.descendants (Persistence.below r)) =
      [None; Some "on"].
Proof.
  split; [vm_compute; reflexivity|]. split; [reflexivity|].
  eexists. split; [vm_compute; reflexivity|]. split; [vm_compute; discriminate|].
  vm_compute. reflexivity.
Qed.



(** ** [fetchPageData]: the shape of every run *)

Section FetchRuns.

Import Fetch.

Variable net : nat -> Attempt.
Variable path : string.

(** One unfolding: the attempt is the last one, or it is followed by its
    pause and the rest of the run is the call for the next attempt. *)
Lemma fetchPageData_step (retryCount : nat) (evs : list Event) (o : Outcome Json) :
  fetchPageData net path retryCount = Some (evs, o) ->
  evs = [EvFetch (endpoint path)] /\ endsWith net retryCount o \/
  (retryCount < maxRetries)%nat /\
  exists evs', evs = attemptThenPause path retryCount ++ evs' /\
               fetchPageData net path (S retryCount) = Some (evs', o).
Proof.
  rewrite fetchPageData_unfold. unfold fetchPageData_body.
  assert (Hretry : forall b,
            (retryCount <? maxRetries)%nat && b = true ->
            after ([EvFetch (endpoint path)] ++ [EvSleep (retryDelay retryCount)])
              (fetchPageData net path (S retryCount)) = Some (evs, o) ->
            (retryCount < maxRetries)%nat /\
            exists evs', evs = attemptThenPause path retryCount ++ evs' /\
                         fetchPageData net path (S retryCount) = Some (evs', o)).
  { intros b [Hr _]%andb_true_iff H. apply Nat.ltb_lt in Hr. split; [exact Hr|].
    destruct (fetchPageData net path (S retryCount)) as [[evs' o']|]; [|discriminate].
    simpl in H. simplify_eq. exists evs'. split; reflexivity. }
  assert (Hhandler : forall e,
            caught net retryCount e ->
            (if String.eqb (err_name e) "AbortError" then throw [EvFetch (endpoint path)] timeoutError
             else if (retryCount <? maxRetries)%nat && looksLikeNetworkError e
                  then after ([EvFetch (endpoint path)] ++ [EvSleep (retryDelay retryCount)])
                         (fetchPageData net path (S retryCount))
                  else throw [EvFetch (endpoint path)] e) = Some (evs, o) ->
            evs = [EvFetch (endpoint path)] /\ endsWith net retryCount o \/
            (retryCount < maxRetries)%nat /\
            exists evs', evs = attemptThenPause path retryCount ++ evs' /\
                         fetchPageData net path (S retryCount) = Some (evs', o)).
  { intros e Hc. destruct (String.eqb (err_name e) "AbortError") eqn:Ha.
    - unfold throw. intros H. simplify_eq. left. split; [reflexivity|].
      exists e. unfold surfaced. rewrite Ha. split_and!; auto.
      intros _. left. now apply String.eqb_eq.
    - destruct ((retryCount <? maxRetries)%nat && looksLikeNetworkError e) eqn:Hb.
      + intros H. right. exact (Hretry _ Hb H).
      + unfold throw. intros H. simplify_eq. left. split; [reflexivity|].
        exists e. unfold surfaced. rewrite Ha. split_and!; auto.
        intros Hlt%Nat.ltb_lt. rewrite Hlt in Hb. right. exact Hb. }
  destruct (fetch (net retryCount)) as [response|error] eqn:Hf.
  - destruct (ok response) eqn:Hok; cbn [negb].
    + destruct (json response) as [error|data] eqn:Hj.
      * apply Hhandler. right. exists response. split; [exact Hf|]. right. now split.
      * intros H. simplify_eq. left. split; [reflexivity|]. exists response. split_and!; auto.
    + destruct ((500 <=? status response) && (retryCount <? maxRetries)%nat) eqn:Hb.
      * intros H. right. apply (Hretry (500 <=? status response)); [|exact H].
        now rewrite andb_comm.
      * apply Hhandler. right. exists response. split; [exact Hf|]. left. now split.
  - apply Hhandler. left. exact Hf.
Qed.

(** The whole run: [n] retries, each after its pause, and the outcome is
    that of the last attempt. *)
Lemma fetchPageData_run (retryCount : nat) (evs : list Event) (o : Outcome Json) :
  fetchPageData net path retryCount = Some (evs, o) ->
  exists n, (n <= maxRetries - retryCount)%nat /\
            evs = schedule path retryCount n /\ endsWith net (retryCount + n) o.
Proof.
  remember (maxRetries - retryCount)%nat as d eqn:Hd.
  revert retryCount evs Hd. induction d as [|d IH]; intros retryCount evs Hd Hrun.
  - destruct (fetchPageData_step _ _ _ Hrun) as [[-> Hend]|[Hlt _]]; [|lia].
    exists 0%nat. rewrite Nat.add_0_r. split_and!; [lia|reflexivity|exact Hend].
  - destruct (fetchPageData_step _ _ _ Hrun) as [[-> Hend]|[Hlt (evs' & -> & Hrest)]].
    + exists 0%nat. rewrite Nat.add_0_r. split_and!; [lia|reflexivity|exact Hend].
    + destruct (IH (S retryCount) evs') as (n & Hn & -> & Hend); [lia|exact Hrest|].
      exists (S n). split_and!; [lia|reflexivity|].
      now replace (retryCount + S n)%nat with (S retryCount + n)%nat by lia.
Qed.

Lemma requests_schedule (retryCount n : nat) :
  requests (schedule path retryCount n) = S n.
Proof.
  revert retryCount. induction n as [|n IH]; intros retryCount; [reflexivity|].
  unfold requests in *. simpl. f_equal. apply IH.
Qed.

Lemma slept_schedule (retryCount n : nat) :
  slept (schedule path retryCount n) = retryDelay retryCount * (2 ^ Z.of_nat n - 1).
Proof.
  revert retryCount. induction n as [|n IH]; intros retryCount.
  - simpl. lia.
  - change (slept (schedule path retryCount (S n)))
      with (retryDelay retryCount + slept (schedule path (S retryCount) n)).
    rewrite IH. unfold retryDelay.
    rewrite !Nat2Z.inj_succ, !Z.pow_succ_r by lia. ring.
Qed.

End FetchRuns.

(** X1. Whatever the network does, a call of [fetchPageData(path)] ends
    after at most four requests, which are separated by pauses of 1000,
    2000 and 4000 ms in that order and by nothing else: it never waits more
    than 7000 ms in all. *)
Theorem fetchPageData_schedule (net : nat -> Attempt) (path : string) :
  exists n evs outcome,
    Fetch.fetchPageData net path 0 = Some (evs, outcome) /\
    (n <= 3)%nat /\
    evs = schedule path 0 n /\
    (requests evs <= 4)%nat /\
    slept evs = 1000 * (2 ^ Z.of_nat n - 1) /\
    slept evs <= 7000.
Proof.
  destruct (fetchPageData_total net path 0) as (evs & o & Hrun).
  destruct (fetchPageData_run net path 0 evs o Hrun) as (n & Hn & -> & _).
  exists n, (schedule path 0 n), o. unfold Fetch.maxRetries in Hn.
  assert (Hs := slept_schedule path 0 n). change (Fetch.retryDelay 0) with 1000 in Hs.
  rewrite requests_schedule, Hs.
  split_and!; [exact Hrun|lia|reflexivity|lia|reflexivity|].
  assert (2 ^ Z.of_nat n <= 2 ^ 3) by (apply Z.pow_le_mono_r; lia). lia.
Qed.

(** X2. A value that [fetchPageData] returns is the parsed body of a
    response with a status from 200 to 299 that arrived before the
    ten-second deadline, and that response answered the last request of the
    run: the body of an error response is never returned. *)
Theorem fetchPageData_returns_ok_body (net : nat -> Attempt) (path : string)
    (evs : list Event) (data : Json) :
  Fetch.fetchPageData net path 0 = Some (evs, Returned data) ->
  exists k response,
    (k <= 3)%nat /\ evs = schedule path 0 k /\
    latency (net k) < Fetch.timeoutMs /\
    settles (net k) = Resolves response /\
    200 <= status response <= 299 /\
    json response = inr data.
Proof.
  intros Hrun.
  destruct (fetchPageData_run net path 0 evs _ Hrun) as (n & Hn & -> & r & Hf & Hok & Hj).
  exists n, r. simpl in Hf. unfold Fetch.fetch in Hf.
  destruct (Fetch.timeoutMs <=? latency (net n)) eqn:Hl; [discriminate|].
  apply Z.leb_gt in Hl. unfold ok in Hok. apply andb_true_iff in Hok as [H1 H2].
  apply Z.leb_le in H1, H2. unfold Fetch.maxRetries in Hn.
  split_and!; auto; lia.
Qed.

Lemma fetchPageData_returns_ok_body_witness :
  exists k response,
    (k <= 3)%nat /\ [EvFetch (Fetch.endpoint "/servers")] = schedule "/servers" 0 k /\
    latency (always (answer 200 "OK") k) < Fetch.timeoutMs /\
    settles (always (answer 200 "OK") k) = Resolves response /\
    200 <= status response <= 299 /\
    json response = inr (JPage serversPage).
Proof.
  apply (fetchPageData_returns_ok_body (always (answer 200 "OK")) "/servers").
  reflexivity.
Defined.

(** X3. An exception that [fetchPageData] throws comes from the last
    attempt of the run: it is the timeout error when that attempt was
    aborted, and otherwise the very exception the attempt raised (the
    rejection of the request, the parse error of the body, or the
    [HTTP status: text] error of a response that is not ok). When retries
    were still left, that exception was an abort or its message mentions
    neither [fetch] nor [network]. *)
Theorem fetchPageData_throws_last_error (net : nat -> Attempt) (path : string)
    (evs : list Event) (name message : string) :
  Fetch.fetchPageData net path 0 = Some (evs, Thrown name message) ->
  exists k e,
    (k <= 3)%nat /\ evs = schedule path 0 k /\
    caught net k e /\
    name = err_name (surfaced e) /\ message = err_message (surfaced e) /\
    ((k < 3)%nat -> err_name e = "AbortError" \/ Fetch.looksLikeNetworkError e = false).
Proof.
  intros Hrun.
  destruct (fetchPageData_run net path 0 evs _ Hrun) as (n & Hn & -> & e & Hc & -> & -> & He).
  exists n, e. unfold Fetch.maxRetries in *. simpl in Hc, He. split_and!; auto.
Qed.

Lemma fetchPageData_throws_last_error_witness :
  exists k e,
    (k <= 3)%nat /\ [EvFetch (Fetch.endpoint "/settings")] = schedule "/settings" 0 k /\
    caught (always (answer 403 "Forbidden")) k e /\
    "Error" = err_name (surfaced e) /\ "HTTP 403: Forbidden" = err_message (surfaced e) /\
    ((k < 3)%nat -> err_name e = "AbortError" \/ Fetch.looksLikeNetworkError e = false).
Proof.
  apply (fetchPageData_throws_last_error (always (answer 403 "Forbidden")) "/settings").
  reflexivity.
Defined.

(** ** [navigate]: requests, what a success commits, and the history *)

Section NavigateOutcome.

Import Router.

Variable env : Env.
Variable path : string.

Lemma not_net_in (before after : list Effect) :
  forallb (fun e => negb (isNet e)) before = true ->
  forallb (fun e => negb (isNet e)) after = true ->
  forall ev, Net ev ∉ before ++ after.
Proof.
  intros Hb Ha ev [Hin|Hin]%elem_of_app.
  - rewrite forallb_forall in Hb. apply list_elem_of_In, Hb in Hin. discriminate.
  - rewrite forallb_forall in Ha. apply list_elem_of_In, Ha in Hin. discriminate.
Qed.

(** A proceeding call that finds the page in a cache: the world it leaves,
    and no request. *)
Lemma navigate_cached (pushHistory isInitial : bool) (w : World) (page : PageData) :
  proceeds isInitial w = true ->
  cachedPage path w = Some page ->
  exists effects,
    navigate env path pushHistory isInitial w =
    Some (with_router (set_isNavigating false)
            (with_widgets hideLoadingState
               (fst (finish env path pushHistory isInitial (JPage page)
                       (with_widgets showLoadingState
                          (with_router (set_isNavigating true) w))))),
          effects) /\
    forall ev, Net ev ∉ effects.
Proof.
  unfold proceeds, cachedPage, navigate. intros Hgo%negb_true_iff Hhit. rewrite Hgo.
  cbn [with_router with_widgets router].
  change (cache (set_isNavigating true (router w))) with (cache (router w)).
  change (preloadCache (set_isNavigating true (router w))) with (preloadCache (router w)).
  destruct (orElse _ _) as [[|page']|]; try discriminate. simplify_eq.
  eexists. split; [reflexivity|].
  cbn [fst snd]. apply not_net_in.
  - cbn [hasPersistence with_widgets with_router].
    now destruct (hasPersistence w && negb isInitial).
  - unfold finish. cbn [snd].
    destruct (pushHistory && negb isInitial); [|destruct isInitial];
      cbn [hasPersistence with_widgets with_router with_document];
      now destruct (hasPersistence w).
Qed.

(** A proceeding call that has to fetch and is given a page. *)
Lemma navigate_fetched (pushHistory isInitial : bool) (w : World) (evs : list Event)
    (page : PageData) :
  proceeds isInitial w = true ->
  cachedPage path w = None ->
  Fetch.fetchPageData (net env) path 0 = Some (evs, Returned (JPage page)) ->
  exists effects,
    navigate env path pushHistory isInitial w =
    Some (with_router (set_isNavigating false)
            (with_widgets hideLoadingState
               (fst (finish env path pushHistory isInitial (JPage page)
                       (with_widgets showLoadingState
                          (with_router (set_isNavigating true) w))))),
          effects).
Proof.
  unfold proceeds, cachedPage, navigate. intros Hgo%negb_true_iff Hmiss Hrun. rewrite Hgo.
  cbn [with_router with_widgets router].
  change (cache (set_isNavigating true (router w))) with (cache (router w)).
  change (preloadCache (set_isNavigating true (router w))) with (preloadCache (router w)).
  destruct (orElse _ _) as [[|page']|]; try discriminate; rewrite Hrun;
    eexists; reflexivity.
Qed.

Lemma navigate_resolved (pushHistory isInitial : bool) (w : World) (page : PageData) :
  proceeds isInitial w = true ->
  resolved env path w = Some page ->
  exists effects,
    navigate env path pushHistory isInitial w =
    Some (with_router (set_isNavigating false)
            (with_widgets hideLoadingState
               (fst (finish env path pushHistory isInitial (JPage page)
                       (with_widgets showLoadingState
                          (with_router (set_isNavigating true) w))))),
          effects).
Proof.
  unfold resolved. intros Hgo Hres.
  destruct (cachedPage path w) as [page'|] eqn:Hc.
  - simplify_eq. destruct (navigate_cached pushHistory isInitial w page Hgo Hc) as (e & H & _).
    eauto.
  - destruct (Fetch.fetchPageData (net env) path 0) as [[evs [[|page']|]]|] eqn:Hrun;
      try discriminate. simplify_eq.
    exact (navigate_fetched pushHistory isInitial w evs page Hgo Hc Hrun).
Qed.

(** A proceeding call without a cached page: the request is its first
    network effect. *)
Lemma navigate_uncached (pushHistory isInitial : bool) (w : World) :
  proceeds isInitial w = true ->
  cachedPage path w = None ->
  exists w' effects,
    navigate env path pushHistory isInitial w = Some (w', effects) /\
    Net (EvFetch (Fetch.endpoint path)) ∈ effects.
Proof.
  unfold proceeds, cachedPage, navigate. intros Hgo%negb_true_iff Hmiss. rewrite Hgo.
  cbn [with_router with_widgets router].
  change (cache (set_isNavigating true (router w))) with (cache (router w)).
  change (preloadCache (set_isNavigating true (router w))) with (preloadCache (router w)).
  destruct (fetchPageData_total (net env) path 0) as (evs & o & Hrun).
  destruct (fetchPageData_first_request env path 0 evs o Hrun) as [rest ->].
  destruct (orElse _ _) as [[|page']|]; try discriminate; rewrite Hrun;
    destruct o; do 2 eexists; (split; [reflexivity|]); cbn [fst snd map];
    rewrite elem_of_app; right; apply elem_of_cons; now left.
Qed.

End NavigateOutcome.

(** X4. A call of [navigate] that goes past the in-flight guard asks the
    server for the fragment exactly when neither cache holds a page for the
    path: with a cached page it makes no request and no pause at all, and
    without one the request for [/api/page-content<path>] is among its
    effects. *)
Theorem navigate_requests_iff_uncached (env : Router.Env) (path : string)
    (pushHistory isInitial : bool) (w : Router.World) :
  proceeds isInitial w = true ->
  exists w' effects,
    Router.navigate env path pushHistory isInitial w = Some (w', effects) /\
    (Router.Net (EvFetch (Fetch.endpoint path)) ∈ effects <-> cachedPage path w = None) /\
    (cachedPage path w <> None -> forall ev, Router.Net ev ∉ effects).
Proof.
  intros Hgo. destruct (cachedPage path w) as [page|] eqn:Hc.
  - destruct (navigate_cached env path pushHistory isInitial w page Hgo Hc) as (eff & H & Hno).
    do 2 eexists. split; [exact H|]. split; [|intros _; exact Hno].
    split; [intros Hin; now apply Hno in Hin|discriminate].
  - destruct (navigate_uncached env path pushHistory isInitial w Hgo Hc) as (w' & eff & H & Hin).
    exists w', eff. split; [exact H|]. split; [tauto|congruence].
Qed.

Lemma navigate_requests_iff_uncached_witness :
  exists w' effects,
    Router.navigate settingsMissing "/dashboard" true false (atDashboard false)
      = Some (w', effects) /\
    (Router.Net (EvFetch (Fetch.endpoint "/dashboard")) ∈ effects <->
     cachedPage "/dashboard" (atDashboard false) = None) /\
    (cachedPage "/dashboard" (atDashboard false) <> None ->
     forall ev, Router.Net ev ∉ effects).
Proof.
  apply (navigate_requests_iff_uncached settingsMissing "/dashboard" true false
           (atDashboard false)).
  reflexivity.
Defined.

Section NavigateCases.

Import Router.

Variable env : Env.
Variable path : string.

(** A proceeding call that reaches no page, because the fetch fails or
    returns a falsy value: document, caches and current route are the ones
    it found. *)
Lemma navigate_unresolved (pushHistory isInitial : bool) (w : World) :
  proceeds isInitial w = true ->
  resolved env path w = None ->
  exists w' effects,
    navigate env path pushHistory isInitial w = Some (w', effects) /\
    document w' = document w /\
    currentRoute (router w') = currentRoute (router w) /\
    cache (router w') = cache (router w) /\
    preloadCache (router w') = preloadCache (router w) /\
    isNavigating (router w') = false /\
    (lastFailedPath (router w') = lastFailedPath (router w) \/
     lastFailedPath (router w') = currentRoute (router w)).
Proof.
  unfold resolved. intros Hgo Hres.
  destruct (cachedPage path w) as [page|] eqn:Hc; [discriminate|].
  destruct (fetchPageData_total (net env) path 0) as (evs & o & Hrun).
  rewrite Hrun in Hres. destruct o as [[|page]|name message]; try discriminate.
  - pose proof Hgo as Hgo'. pose proof Hc as Hc'.
    unfold proceeds in Hgo'. unfold cachedPage in Hc'. apply negb_true_iff in Hgo'.
    unfold navigate. rewrite Hgo'. cbn [with_router with_widgets router].
    change (cache (set_isNavigating true (router w))) with (cache (router w)).
    change (preloadCache (set_isNavigating true (router w))) with (preloadCache (router w)).
    destruct (orElse _ _) as [[|page']|]; try discriminate; rewrite Hrun;
      do 2 eexists; (split; [reflexivity|]); cbn; split_and!; auto.
  - rewrite (navigate_failure env path pushHistory isInitial w evs name message Hgo Hc Hrun).
    do 2 eexists. split; [reflexivity|]. cbn. split_and!; auto.
Qed.

(** The document a call that reaches [page] leaves. *)
Lemma finish_document (pushHistory isInitial : bool) (w : World) (page : PageData) :
  let entry := {| h_path := path; h_timestamp := now env;
                  h_title := if truthy (pd_title page) then pd_title page
                             else title (document w) |} in
  let w' := fst (finish env path pushHistory isInitial (JPage page) w) in
  history (document w') =
    (if pushHistory && negb isInitial then entry :: history (document w)
     else if isInitial then entry :: tail (history (document w))
     else history (document w)) /\
  router w' = commit path (JPage page) (router w).
Proof.
  assert (Hentry : entryFor (now env) path page (renderPage (parser env) page (document w)) =
                   {| h_path := path; h_timestamp := now env;
                      h_title := if truthy (pd_title page) then pd_title page
                                 else title (document w) |}).
  { unfold entryFor, renderPage. f_equal.
    destruct (content (document w)); cbn [title]; now destruct (truthy (pd_title page)). }
  assert (Hh : history (renderPage (parser env) page (document w)) = history (document w)).
  { unfold renderPage. now destruct (content (document w)). }
  unfold finish. cbn [fst document with_document with_router].
  rewrite Hentry.
  destruct (pushHistory && negb isInitial); [|destruct isInitial];
    cbn [document with_document with_router router content history pushState replaceState];
    rewrite ?Hh; split_and!; reflexivity.
Qed.

(** The initial call never asks the persistence layer for a capture. *)
Lemma navigate_initial_effects (pushHistory : bool) (w w' : World) (effects : list Effect) :
  navigate env path pushHistory true w = Some (w', effects) ->
  BeforeNavigation ∉ effects.
Proof.
  unfold navigate. rewrite !andb_false_r. cbn [app fst snd].
  assert (Hnet : forall evs rest, BeforeNavigation ∉ rest ->
                   BeforeNavigation ∉ map Net evs ++ rest).
  { intros evs rest Hrest [Hm|Hr]%elem_of_app; [|tauto].
    apply list_elem_of_fmap in Hm as (e & He & _). discriminate. }
  assert (Hfin : forall data w0,
            BeforeNavigation ∉ snd (finish env path pushHistory true data w0)).
  { intros [|page] w0; cbn; [apply not_elem_of_nil|].
    destruct (pushHistory && false); cbn;
      destruct (hasPersistence w0); cbn;
      rewrite ?elem_of_cons, ?elem_of_nil; intuition discriminate. }
  destruct (orElse _ _) as [[|page]|];
    [| intros H; simplify_eq; apply Hfin |];
    (destruct (Fetch.fetchPageData (net env) path 0) as [[evs [data|name message]]|];
     intros H; simplify_eq;
     [apply Hnet, Hfin | rewrite <- (app_nil_r (map Net evs)); apply Hnet, not_elem_of_nil]).
Qed.

(** The fields of the world a call that reaches [page] leaves. *)
Lemma landed_fields (pushHistory isInitial : bool) (w : World) (page : PageData) :
  let w' :=
    with_router (set_isNavigating false)
      (with_widgets hideLoadingState
         (fst (finish env path pushHistory isInitial (JPage page)
                 (with_widgets showLoadingState
                    (with_router (set_isNavigating true) w))))) in
  currentRoute (router w') = Some path /\
  cache (router w') = <[path := JPage page]> (cache (router w)) /\
  preloadCache (router w') = delete path (preloadCache (router w)) /\
  isNavigating (router w') = false.
Proof.
  destruct (finish_document pushHistory isInitial
              (with_widgets showLoadingState (with_router (set_isNavigating true) w)) page)
    as (_ & Hr).
  cbn zeta in *.
  cbn [router document with_router with_widgets set_isNavigating
       currentRoute cache preloadCache isNavigating].
  rewrite Hr. split_and!; reflexivity.
Qed.

End NavigateCases.

(** X5. A call of [navigate] that goes past the guard and gets hold of a
    page, cached or fetched, makes [path] the current route, files the page
    in the confirmed cache, takes the path out of the speculative cache and
    clears the in-flight flag. Going to the same path again, with any
    network, then makes no request and finds the same page in the
    confirmed cache. *)
Theorem navigate_commits_page (env : Router.Env) (path : string)
    (pushHistory isInitial : bool) (w : Router.World) (page : PageData) :
  proceeds isInitial w = true ->
  resolved env path w = Some page ->
  exists w' effects,
    Router.navigate env path pushHistory isInitial w = Some (w', effects) /\
    Router.currentRoute (Router.router w') = Some path /\
    Router.cache (Router.router w') = <[path := JPage page]> (Router.cache (Router.router w)) /\
    Router.preloadCache (Router.router w') =
      delete path (Router.preloadCache (Router.router w)) /\
    Router.isNavigating (Router.router w') = false /\
    forall env' pushHistory',
      exists w'' effects',
        Router.navigate env' path pushHistory' false w' = Some (w'', effects') /\
        (forall ev, Router.Net ev ∉ effects') /\
        Router.cache (Router.router w'') !! path = Some (JPage page).
Proof.
  intros Hgo Hres.
  destruct (navigate_resolved env path pushHistory isInitial w page Hgo Hres) as (eff & Hnav).
  destruct (landed_fields env path pushHistory isInitial w page)
    as (Hroute & Hcache & Hpre & Hflag).
  match type of Hnav with _ = Some (?x, _) => set (w' := x) in * end.
  exists w', eff. split_and!; auto.
  intros env' pushHistory'.
  assert (Hgo' : proceeds false w' = true).
  { unfold proceeds. now rewrite Hflag. }
  assert (Hc' : cachedPage path w' = Some page).
  { unfold cachedPage. now rewrite Hcache, lookup_insert_eq. }
  destruct (navigate_cached env' path pushHistory' false w' page Hgo' Hc') as (eff' & H' & Hno).
  destruct (landed_fields env' path pushHistory' false w' page) as (_ & Hcache' & _ & _).
  match type of H' with _ = Some (?x, _) => set (w'' := x) in * end.
  exists w'', eff'. split_and!; auto.
  rewrite Hcache'. apply lookup_insert_eq.
Qed.

Lemma navigate_commits_page_witness :
  exists w' effects,
    Router.navigate serversFound "/servers" true false (atDashboard false)
      = Some (w', effects) /\
    Router.currentRoute (Router.router w') = Some "/servers" /\
    Router.cache (Router.router w') =
      <["/servers" := JPage serversPage]> (Router.cache (Router.router (atDashboard false))) /\
    Router.preloadCache (Router.router w') =
      delete "/servers" (Router.preloadCache (Router.router (atDashboard false))) /\
    Router.isNavigating (Router.router w') = false /\
    forall env' pushHistory',
      exists w'' effects',
        Router.navigate env' "/servers" pushHistory' false w' = Some (w'', effects') /\
        (forall ev, Router.Net ev ∉ effects') /\
        Router.cache (Router.router w'') !! "/servers" = Some (JPage serversPage).
Proof.
  apply (navigate_commits_page serversFound "/servers" true false (atDashboard false)
           serversPage); reflexivity.
Defined.

(** X6. What a call of [navigate] does to the session history, whatever
    its outcome. Only a call that goes past the guard and gets hold of a
    page touches it: with [pushState] and not on the initial load it pushes
    one entry, on the initial load it replaces the current entry, and
    otherwise (the back and forward case) it leaves the stack alone. The
    entry carries the path, the reading of the clock and the title of the
    page or, when that is empty, the title the document had. *)
Theorem navigate_history (env : Router.Env) (path : string)
    (pushHistory isInitial : bool) (w : Router.World) :
  exists w' effects,
    Router.navigate env path pushHistory isInitial w = Some (w', effects) /\
    Router.history (Router.document w') =
      match (if proceeds isInitial w then resolved env path w else None) with
      | Some page =>
          let entry :=
            {| Router.h_path := path; Router.h_timestamp := Router.now env;
               Router.h_title := if truthy (pd_title page) then pd_title page
                                 else Router.title (Router.document w) |} in
          if pushHistory && negb isInitial then entry :: Router.history (Router.document w)
          else if isInitial then entry :: tail (Router.history (Router.document w))
          else Router.history (Router.document w)
      | None => Router.history (Router.document w)
      end.
Proof.
  destruct (proceeds isInitial w) eqn:Hgo.
  - destruct (resolved env path w) as [page|] eqn:Hres.
    + destruct (navigate_resolved env path pushHistory isInitial w page Hgo Hres) as (eff & Hnav).
      destruct (finish_document env path pushHistory isInitial
                  (Router.with_widgets Router.showLoadingState
                     (Router.with_router (Router.set_isNavigating true) w)) page)
        as (Hh & _).
      do 2 eexists. split; [exact Hnav|]. exact Hh.
    + destruct (navigate_unresolved env path pushHistory isInitial w Hgo Hres)
        as (w' & eff & Hnav & Hd & _).
      exists w', eff. split; [exact Hnav|]. now rewrite Hd.
  - unfold proceeds in Hgo. apply negb_false_iff in Hgo.
    unfold Router.navigate. rewrite Hgo. now do 2 eexists.
Qed.

(** ** [loadScripts], [loadStyles] and [renderPage] *)

Section LoadUrls.

Import Router.

Variable inside : list string.

Lemma loadUrls_cons (url : string) (urls outside : list string) :
  loadUrls inside (url :: urls) outside =
  loadUrls inside urls
    (if bool_decide (url ∈ inside ++ outside) then outside else outside ++ [url]).
Proof. reflexivity. Qed.

(** What is appended: the URLs that no element carried yet, each once. *)
Lemma loadUrls_appends (urls outside : list string) :
  exists added,
    loadUrls inside urls outside = outside ++ added /\ NoDup added /\
    forall u, u ∈ added <-> u ∈ urls /\ (u ∉ outside) /\ (u ∉ inside).
Proof.
  revert outside. induction urls as [|url urls IH]; intros outside.
  - exists []. split_and!; [now rewrite app_nil_r|constructor|].
    intros u. split; [intros []%elem_of_nil|intros [[]%elem_of_nil _]].
  - rewrite loadUrls_cons. case_bool_decide as Hin.
    + destruct (IH outside) as (added & -> & Hnd & Hiff). exists added. split_and!; auto.
      intros u. rewrite Hiff, elem_of_cons. split; [tauto|].
      intros [[->|Hu] [Hn1 Hn2]]; [|tauto].
      exfalso. apply elem_of_app in Hin. tauto.
    + rewrite elem_of_app in Hin.
      destruct (IH (outside ++ [url])) as (added & -> & Hnd & Hiff).
      exists (url :: added). split_and!.
      * now rewrite <- app_assoc.
      * constructor; [|exact Hnd]. rewrite Hiff, elem_of_app, list_elem_of_singleton. tauto.
      * intros u. rewrite !elem_of_cons, Hiff, elem_of_app, list_elem_of_singleton.
        destruct (decide (u = url)) as [->|Hne]; tauto.
Qed.

(** Nothing is appended when every URL is carried already. *)
Lemma loadUrls_linked (urls outside : list string) :
  (forall u, u ∈ urls -> u ∈ inside \/ u ∈ outside) -> loadUrls inside urls outside = outside.
Proof.
  intros Hall. destruct (loadUrls_appends urls outside) as (added & -> & _ & Hiff).
  destruct added as [|u added]; [now rewrite app_nil_r|].
  destruct (proj1 (Hiff u)) as (Hu & Hn1 & Hn2); [now left|].
  apply Hall in Hu. tauto.
Qed.

Lemma loadUrls_idempotent (urls outside : list string) :
  loadUrls inside urls (loadUrls inside urls outside) = loadUrls inside urls outside.
Proof.
  apply loadUrls_linked. intros u Hu.
  destruct (loadUrls_appends urls outside) as (added & -> & _ & Hiff).
  rewrite elem_of_app, Hiff.
  destruct (decide (u ∈ outside)); destruct (decide (u ∈ inside)); tauto.
Qed.

End LoadUrls.

(** X7. [loadScripts] and [loadStyles] only ever append to the document
    head: the elements that were there stay, in their order, and the URLs
    of the page that no element of the document carries yet, inside the
    content container or outside it, are added, each once even when the
    page lists it twice. A page whose fragment holds the script tags its
    list of scripts was taken from therefore adds no script element, and
    rendering the same page a second time changes nothing. *)
Theorem renderPage_links_once (parser : Router.Parser) (page : PageData) (d : Router.Document)
    (inside urls outside : list string) :
  (exists added,
     Router.loadUrls inside urls outside = outside ++ added /\ NoDup added /\
     forall u, u ∈ added <-> u ∈ urls /\ (u ∉ outside) /\ (u ∉ inside)) /\
  ((forall u, u ∈ pd_scripts page -> u ∈ Router.scriptsIn parser (pd_content page)) ->
   Router.scriptSrcs (Router.renderPage parser page d) = Router.scriptSrcs d) /\
  Router.renderPage parser page (Router.renderPage parser page d) =
    Router.renderPage parser page d.
Proof.
  split_and!; [apply loadUrls_appends| |].
  - intros Hall. unfold Router.renderPage. destruct (Router.content d); [|reflexivity].
    cbn [Router.scriptSrcs]. apply loadUrls_linked. auto.
  - unfold Router.renderPage. destruct (Router.content d) eqn:E; cbn; [|now rewrite E].
    rewrite !loadUrls_idempotent. now destruct (truthy (pd_title page)).
Qed.

(** ** [handlePopState] and [init] *)

(** X8. A [popstate] event whose state names a path: for the current route
    the handler does nothing; for any other path it navigates even while
    another navigation is in flight, never rewrites the session history,
    leaves the in-flight flag cleared, and ends having made the path the
    current route or having requested its fragment. An event without a
    state is handled as one that names [location.pathname]. *)
Theorem handlePopState_navigates (env : Router.Env) (path pathname : string)
    (w : Router.World) :
  truthy path = true ->
  (Router.currentRoute (Router.router w) = Some path ->
   Router.handlePopState env (Some path) pathname w = Some (w, [])) /\
  (Router.currentRoute (Router.router w) <> Some path ->
   exists w' effects,
     Router.handlePopState env (Some path) pathname w = Some (w', effects) /\
     Router.history (Router.document w') = Router.history (Router.document w) /\
     Router.isNavigating (Router.router w') = false /\
     (Router.currentRoute (Router.router w') = Some path \/
      Router.Net (EvFetch (Fetch.endpoint path)) ∈ effects)) /\
  Router.handlePopState env None path w = Router.handlePopState env (Some path) pathname w.
Proof.
  intros Htruthy. unfold Router.handlePopState. rewrite Htruthy. split_and!.
  - intros ->. now rewrite bool_decide_eq_true_2.
  - intros Hne. rewrite bool_decide_eq_false_2 by exact Hne.
    set (w0 := if Router.isNavigating (Router.router w) then _ else w).
    assert (Hflag : Router.isNavigating (Router.router w0) = false).
    { unfold w0. now destruct (Router.isNavigating (Router.router w)) eqn:E. }
    assert (Hdoc : Router.document w0 = Router.document w).
    { unfold w0. now destruct (Router.isNavigating (Router.router w)). }
    assert (Hgo : proceeds false w0 = true) by (unfold proceeds; now rewrite Hflag).
    destruct (resolved env path w0) as [page|] eqn:Hres.
    + destruct (navigate_resolved env path false false w0 page Hgo Hres) as (eff & Hnav).
      destruct (landed_fields env path false false w0 page) as (Hroute & _ & _ & Hf).
      destruct (finish_document env path false false
                  (Router.with_widgets Router.showLoadingState
                     (Router.with_router (Router.set_isNavigating true) w0)) page)
        as (Hh & _).
      do 2 eexists. split; [exact Hnav|]. split_and!; [|exact Hf|left; exact Hroute].
      rewrite <- Hdoc. exact Hh.
    + destruct (navigate_unresolved env path false false w0 Hgo Hres)
        as (w' & eff & Hnav & Hd & _ & _ & _ & Hf & _).
      assert (Hc : cachedPage path w0 = None).
      { unfold resolved in Hres. now destruct (cachedPage path w0). }
      destruct (navigate_uncached env path false false w0 Hgo Hc) as (w2 & eff2 & Hnav2 & Hin).
      rewrite Hnav in Hnav2. simplify_eq.
      exists w2, eff2. split_and!; auto. now rewrite Hd, Hdoc.
  - reflexivity.
Qed.

Lemma handlePopState_navigates_witness :
  (Router.currentRoute (Router.router (atDashboard true)) = Some "/servers" ->
   Router.handlePopState serversFound (Some "/servers") "/dashboard" (atDashboard true)
     = Some (atDashboard true, [])) /\
  (Router.currentRoute (Router.router (atDashboard true)) <> Some "/servers" ->
   exists w' effects,
     Router.handlePopState serversFound (Some "/servers") "/dashboard" (atDashboard true)
       = Some (w', effects) /\
     Router.history (Router.document w') = Router.history (Router.document (atDashboard true)) /\
     Router.isNavigating (Router.router w') = false /\
     (Router.currentRoute (Router.router w') = Some "/servers" \/
      Router.Net (EvFetch (Fetch.endpoint "/servers")) ∈ effects)) /\
  Router.handlePopState serversFound None "/servers" (atDashboard true)
    = Router.handlePopState serversFound (Some "/servers") "/dashboard" (atDashboard true).
Proof.
  apply (handlePopState_navigates serversFound "/servers" "/dashboard" (atDashboard true)).
  reflexivity.
Defined.

(** X9. The start of the router. Without the content container [init]
    does nothing at all. With it, the new router always asks the server for
    the fragment of the page the browser is on, and never calls
    [beforeNavigation]; when it gets the page it replaces the current
    history entry instead of pushing one, and when it does not, no route is
    current and the retry button has no path to go to. *)
Theorem init_loads_current_page (env : Router.Env) (pathname : string)
    (d : Router.Document) (g : Router.Widgets) (persistence : bool) :
  let w := {| Router.router := Router.newFields; Router.document := d;
              Router.widgets := g; Router.hasPersistence := persistence |} in
  exists w' effects,
    Router.init env pathname w = Some (w', effects) /\
    match Router.content d with
    | None => w' = w /\ effects = []
    | Some _ =>
        Router.Net (EvFetch (Fetch.endpoint pathname)) ∈ effects /\
        (Router.BeforeNavigation ∉ effects) /\
        match resolved env pathname w with
        | Some page =>
            Router.currentRoute (Router.router w') = Some pathname /\
            exists entry, Router.h_path entry = pathname /\
                          Router.history (Router.document w') = entry :: tail (Router.history d)
        | None =>
            Router.currentRoute (Router.router w') = None /\
            Router.document w' = d /\
            Router.retryTarget w' = None
        end
    end.
Proof.
  intros w. unfold Router.init. cbn [Router.document w].
  destruct (Router.content d) as [html|] eqn:Hcontent; [|now do 2 eexists].
  assert (Hgo : proceeds true w = true).
  { unfold proceeds. now rewrite andb_false_r. }
  assert (Hmiss : cachedPage pathname w = None) by reflexivity.
  destruct (navigate_uncached env pathname false true w Hgo Hmiss) as (w' & eff & Hnav & Hin).
  exists w', eff. split; [exact Hnav|]. split; [exact Hin|].
  split; [exact (navigate_initial_effects env pathname false w w' eff Hnav)|].
  destruct (resolved env pathname w) as [page|] eqn:Hres.
  - destruct (navigate_resolved env pathname false true w page Hgo Hres) as (eff' & Hnav').
    rewrite Hnav in Hnav'. simplify_eq.
    destruct (landed_fields env pathname false true w page) as (Hroute & _ & _ & _).
    destruct (finish_document env pathname false true
                (Router.with_widgets Router.showLoadingState
                   (Router.with_router (Router.set_isNavigating true) w)) page)
      as (Hh & _).
    cbn zeta in *. split_and!.
    + exact Hroute.
    + eexists. split; [|exact Hh]. reflexivity.
  - destruct (navigate_unresolved env pathname false true w Hgo Hres)
      as (w2 & eff2 & Hnav2 & Hd & Hroute & _ & _ & _ & Hlast).
    rewrite Hnav in Hnav2. simplify_eq. split_and!; auto.
    unfold Router.retryTarget.
    assert (Hnone : Router.lastFailedPath (Router.router w2) = None)
      by (destruct Hlast as [->| ->]; reflexivity).
    rewrite Hnone. now destruct (Router.retryButton (Router.widgets w2)) as [[]|].
Qed.

(** ** The router's own preloading *)

Section RouterPreload.

Import Router.

Lemma known_false (path : string) (r : Fields) :
  known path r = false -> preloadCache r !! path = None /\ cache r !! path = None.
Proof.
  unfold known. intros [H1 H2]%orb_false_iff.
  apply bool_decide_eq_false in H1, H2.
  rewrite <- eq_None_not_Some in H1, H2. now split.
Qed.

(** A good answer files its body, whatever it is. *)
Lemma preloadAnswered_ok (a : Attempt) (path : string) (r : Fields)
    (response : Response) (data : Json) :
  settles a = Resolves response -> ok response = true -> json response = inr data ->
  preloadAnswered a path r = set_preloadCache (<[path := data]> (preloadCache r)) r.
Proof. unfold preloadAnswered. now intros -> -> ->. Qed.

Lemma known_answered (a : Attempt) (path : string) (r : Fields)
    (response : Response) (data : Json) :
  settles a = Resolves response -> ok response = true -> json response = inr data ->
  known path (preloadAnswered a path r) = true.
Proof.
  intros H1 H2 H3. rewrite (preloadAnswered_ok a path r response data H1 H2 H3).
  unfold known. cbn. rewrite lookup_insert_eq.
  rewrite bool_decide_eq_true_2 by eauto. reflexivity.
Qed.

End RouterPreload.

(** X10. The hover preloading of the router. A pointer that rests on a
    link whose fragment neither cache holds and leaves it again makes the
    router request the fragment once if it stayed more than 100 ms, and
    not at all if it left before 100 ms were over, however long one waits
    afterwards. Once the request is answered with a body, hovering the same
    link again requests nothing. *)
Theorem hover_preloads_after_delay (r : Router.Fields) (href : string) (t t' finally : Z)
    (a : Attempt) (response : Response) (data : Json) (t2 t3 t4 : Z) :
  truthy href = true ->
  Router.known href r = false ->
  settles a = Resolves response -> ok response = true -> json response = inr data ->
  (t' < t + 100 ->
   Router.hover [Router.Over t (Some href); Router.Out t'] finally (r, None) = ((r, None), [])) /\
  (t + 100 < t' ->
   Router.hover [Router.Over t (Some href); Router.Out t'] finally (r, None) =
     ((r, None), [EvFetch (Fetch.endpoint href)]) /\
   snd (Router.hover [Router.Over t (Some href); Router.Out t';
                      Router.Answer t2 href a;
                      Router.Over t3 (Some href); Router.Out t4] finally (r, None)) =
     [EvFetch (Fetch.endpoint href)]).
Proof.
  intros Htruthy Hknown Hs Hok Hj.
  assert (Hfirst : Router.hoverStep (r, None) (Router.Over t (Some href)) =
                   ((r, Some (href, t + 100)), [])).
  { unfold Router.hoverStep, Router.fireDue, Router.mouseover. cbn.
    now rewrite Htruthy, Hknown. }
  assert (Hsecond : Router.hoverStep (r, Some (href, t + 100)) (Router.Out t') =
                    ((r, None), if t + 100 <=? t' then [EvFetch (Fetch.endpoint href)] else [])).
  { unfold Router.hoverStep, Router.fireDue, Router.mouseout. cbn.
    rewrite Hknown. now destruct (t + 100 <=? t'). }
  split.
  - intros Hearly. apply Z.leb_gt in Hearly.
    cbn [Router.hover]. rewrite Hfirst. cbn [fst snd]. rewrite Hsecond, Hearly. cbn [fst snd].
    unfold Router.fireDue. reflexivity.
  - intros Hlate. assert (Hle : (t + 100 <=? t') = true) by (apply Z.leb_le; lia).
    split.
    + cbn [Router.hover]. rewrite Hfirst. cbn [fst snd]. rewrite Hsecond, Hle. cbn [fst snd].
      unfold Router.fireDue. reflexivity.
    + cbn [Router.hover]. rewrite Hfirst. cbn [fst snd]. rewrite Hsecond, Hle. cbn [fst snd].
      unfold Router.hoverStep, Router.fireDue, Router.mouseover, Router.mouseout. cbn.
      rewrite (known_answered a href r response data Hs Hok Hj), Htruthy. reflexivity.
Qed.

Lemma hover_preloads_after_delay_witness :
  (150 < 0 + 100 ->
   Router.hover [Router.Over 0 (Some "/servers"); Router.Out 150] 1000
     (Router.router (atDashboard false), None) =
     ((Router.router (atDashboard false), None), [])) /\
  (0 + 100 < 150 ->
   Router.hover [Router.Over 0 (Some "/servers"); Router.Out 150] 1000
     (Router.router (atDashboard false), None) =
     ((Router.router (atDashboard false), None), [EvFetch (Fetch.endpoint "/servers")]) /\
   snd (Router.hover [Router.Over 0 (Some "/servers"); Router.Out 150;
                      Router.Answer 190 "/servers" (answer 200 "OK");
                      Router.Over 400 (Some "/servers"); Router.Out 900] 1000
          (Router.router (atDashboard false), None)) =
     [EvFetch (Fetch.endpoint "/servers")]).
Proof.
  apply (hover_preloads_after_delay (Router.router (atDashboard false)) "/servers" 0 150 1000
           (answer 200 "OK")
           {| status := 200; statusText := "OK"; json := inr (JPage serversPage) |}
           (JPage serversPage) 190 400 900); reflexivity.
Defined.

(** X11. Preloading and then navigating. When [preloadPage(path)] asks for
    a path neither cache holds and is answered with a page, the page is
    filed in the speculative cache and nothing else of the router changes;
    a navigation to the path afterwards makes no request, makes the path
    the current route and moves the page from the speculative cache to the
    confirmed one. *)
Theorem preloadPage_then_navigate (env : Router.Env) (a : Attempt) (path : string)
    (pushHistory : bool) (w : Router.World) (response : Response) (page : PageData) :
  Router.known path (Router.router w) = false ->
  Router.isNavigating (Router.router w) = false ->
  settles a = Resolves response -> ok response = true -> json response = inr (JPage page) ->
  let r := Router.router w in
  let r' := fst (Router.preloadPage a path r) in
  snd (Router.preloadPage a path r) = [EvFetch (Fetch.endpoint path)] /\
  r' = Router.set_preloadCache (<[path := JPage page]> (Router.preloadCache r)) r /\
  exists w' effects,
    Router.navigate env path pushHistory false (Router.with_router (fun _ => r') w)
      = Some (w', effects) /\
    (forall ev, Router.Net ev ∉ effects) /\
    Router.currentRoute (Router.router w') = Some path /\
    Router.cache (Router.router w') !! path = Some (JPage page) /\
    Router.preloadCache (Router.router w') !! path = None.
Proof.
  intros Hknown Hidle Hs Hok Hj r r'.
  assert (Hr' : r' = Router.set_preloadCache (<[path := JPage page]> (Router.preloadCache r)) r).
  { subst r r'. unfold Router.preloadPage. rewrite Hknown. cbn [fst].
    exact (preloadAnswered_ok a path _ response (JPage page) Hs Hok Hj). }
  split_and!.
  - subst r. unfold Router.preloadPage. now rewrite Hknown.
  - exact Hr'.
  - set (w1 := Router.with_router (fun _ => r') w).
    destruct (known_false path _ Hknown) as [_ Hcache].
    assert (Hgo : proceeds false w1 = true).
    { unfold proceeds, w1. cbn. rewrite Hr'. subst r. cbn. now rewrite Hidle. }
    assert (Hc : cachedPage path w1 = Some page).
    { unfold cachedPage, w1. cbn. rewrite Hr'. subst r. cbn.
      rewrite Hcache, lookup_insert_eq. reflexivity. }
    destruct (navigate_cached env path pushHistory false w1 page Hgo Hc) as (eff & Hnav & Hno).
    destruct (landed_fields env path pushHistory false w1 page)
      as (Hroute & Hca & Hpre & _).
    match type of Hnav with _ = Some (?x, _) => set (w' := x) in * end.
    exists w', eff. split_and!; auto.
    + now rewrite Hca, lookup_insert_eq.
    + now rewrite Hpre, lookup_delete_eq.
Qed.

Lemma preloadPage_then_navigate_witness :
  let r := Router.router (atDashboard false) in
  let r' := fst (Router.preloadPage (answer 200 "OK") "/servers" r) in
  snd (Router.preloadPage (answer 200 "OK") "/servers" r) = [EvFetch (Fetch.endpoint "/servers")] /\
  r' = Router.set_preloadCache (<["/servers" := JPage serversPage]> (Router.preloadCache r)) r /\
  exists w' effects,
    Router.navigate settingsMissing "/servers" true false
      (Router.with_router (fun _ => r') (atDashboard false)) = Some (w', effects) /\
    (forall ev, Router.Net ev ∉ effects) /\
    Router.currentRoute (Router.router w') = Some "/servers" /\
    Router.cache (Router.router w') !! "/servers" = Some (JPage serversPage) /\
    Router.preloadCache (Router.router w') !! "/servers" = None.
Proof.
  apply (preloadPage_then_navigate settingsMissing (answer 200 "OK") "/servers" true
           (atDashboard false)
           {| status := 200; statusText := "OK"; json := inr (JPage serversPage) |}
           serversPage); reflexivity.
Defined.

(** X12. [preloadPage(path)] can only add to the speculative cache. For a
    path one of the caches knows it makes no request and changes nothing.
    Otherwise it makes one request, and unless the answer has an ok status
    and a body that parses, the router is again left exactly as it was: a
    failed preload is never reported and never recorded. In every case the
    confirmed cache, the current route and the entries of other paths are
    untouched. *)
Theorem preloadPage_only_adds (a : Attempt) (path : string) (r : Router.Fields) :
  let r' := fst (Router.preloadPage a path r) in
  (Router.known path r = true -> Router.preloadPage a path r = (r, [])) /\
  (Router.known path r = false ->
   snd (Router.preloadPage a path r) = [EvFetch (Fetch.endpoint path)] /\
   ((forall response data,
       settles a = Resolves response -> ok response = true -> json response <> inr data) ->
    r' = r)) /\
  Router.cache r' = Router.cache r /\
  Router.currentRoute r' = Router.currentRoute r /\
  Router.isNavigating r' = Router.isNavigating r /\
  forall other, other <> path ->
    Router.preloadCache r' !! other = Router.preloadCache r !! other.
Proof.
  intros r'. unfold r', Router.preloadPage.
  destruct (Router.known path r) eqn:Hknown; cbn [fst snd].
  - split_and!; auto. discriminate.
  - assert (Hcases : Router.preloadAnswered a path r = r \/
                     exists response data,
                       settles a = Resolves response /\ ok response = true /\
                       json response = inr data /\
                       Router.preloadAnswered a path r =
                       Router.set_preloadCache (<[path := data]> (Router.preloadCache r)) r).
    { unfold Router.preloadAnswered.
      destruct (settles a) as [response|e]; [|now left].
      destruct (ok response) eqn:Hok; [|now left].
      destruct (json response) as [e|data] eqn:Hj; [now left|].
      right. exists response, data. now split_and!. }
    split_and!; try discriminate.
    + intros _. split; [reflexivity|]. intros Hbad.
      destruct Hcases as [H|(response & data & Hs & Hok & Hj & _)]; [exact H|].
      now destruct (Hbad response data Hs Hok).
    + destruct Hcases as [H|(? & ? & _ & _ & _ & H)]; rewrite H; reflexivity.
    + destruct Hcases as [H|(? & ? & _ & _ & _ & H)]; rewrite H; reflexivity.
    + destruct Hcases as [H|(? & ? & _ & _ & _ & H)]; rewrite H; reflexivity.
    + intros other Hne. destruct Hcases as [H|(? & ? & _ & _ & _ & H)]; rewrite H; [reflexivity|].
      cbn. now rewrite lookup_insert_ne.
Qed.

(** ** [getElementSelector] and [getElementAttributes] *)

Section SelectorsAndAttributes.

Import Persistence.

Lemma indexOf_le {A : Type} (q : A -> bool) (l : list A) (j : nat) (x : A) :
  l !! j = Some x -> q x = true -> exists i, indexOf q l = Some i /\ (i <= j)%nat.
Proof.
  revert j. induction l as [|y l IH]; intros j Hj Hq; [discriminate|].
  simpl. destruct (q y) eqn:Hy; [exists 0%nat; split; [reflexivity|lia]|].
  destruct j as [|j]; [simpl in Hj; congruence|].
  destruct (IH j Hj Hq) as (i & -> & Hi). exists (S i). split; [reflexivity|lia].
Qed.

Lemma getElementSelector_matches (e : Element) :
  parses (getElementSelector e) = true -> matches (getElementSelector e) e = true.
Proof.
  unfold getElementSelector.
  destruct (truthy (id e)); [intros _; apply String.eqb_refl|].
  destruct (truthy (className e)); [|intros _; simpl; now rewrite String.eqb_refl].
  destruct (classList e) as [|c cs] eqn:Hcl.
  - cbn [parses forallb plainIdent]. now rewrite andb_false_r.
  - intros _. cbn [matches]. rewrite String.eqb_refl. cbn [andb].
    apply forallb_forall. intros x Hx. unfold hasClass. rewrite Hcl.
    apply bool_decide_eq_true, list_elem_of_In, Hx.
Qed.

Lemma concat_dotted (c : string) (cs : list string) :
  String.concat "" ((fun c => "." +:+ c) <$> (c :: cs)) = "." +:+ join "." (c :: cs).
Proof.
  revert c. induction cs as [|d cs IH]; intros c; [reflexivity|].
  change (String.concat "" ((fun c => "." +:+ c) <$> (c :: d :: cs)))
    with (("." +:+ c) +:+ "" +:+ String.concat "" ((fun c => "." +:+ c) <$> (d :: cs))).
  change (join "." (c :: d :: cs)) with (c +:+ "." +:+ join "." (d :: cs)).
  rewrite IH. change ("" +:+ "." +:+ join "." (d :: cs)) with ("." +:+ join "." (d :: cs)).
  now rewrite append_assoc.
Qed.

(** The text of the selector is the string the method puts together. *)
Lemma getElementSelector_text (e : Element) :
  text (getElementSelector e) =
  if truthy (id e) then "#" +:+ id e
  else if truthy (className e) then tag e +:+ "." +:+ join "." (classList e)
  else tag e.
Proof.
  unfold getElementSelector.
  destruct (truthy (id e)); [reflexivity|].
  destruct (truthy (className e)); [|cbn [text fmap list_fmap]; apply append_empty_r].
  destruct (classList e) as [|c cs]; [reflexivity|].
  cbn [text]. now rewrite concat_dotted.
Qed.

Lemma objSet_fresh {V : Type} (k : string) (v : V) (o : list (string * V)) :
  k ∉ (fst <$> o) -> objSet k v o = o ++ [(k, v)].
Proof.
  induction o as [|[k' v'] o IH]; intros Hk; [reflexivity|].
  rewrite fmap_cons, not_elem_of_cons in Hk. destruct Hk as [Hne Hk]. simpl in Hne.
  simpl. rewrite (proj2 (String.eqb_neq k k')) by exact Hne. now rewrite IH.
Qed.

Lemma collect_whitelisted (l acc : list (string * string)) :
  NoDup ((fst <$> acc) ++ (fst <$> l)) ->
  fold_left (fun attrs a => if whitelisted (fst a) then objSet (fst a) (snd a) attrs else attrs)
    l acc =
  acc ++ List.filter (fun a => whitelisted (fst a)) l.
Proof.
  revert acc. induction l as [|[n v] l IH]; intros acc Hnd; simpl.
  - now rewrite app_nil_r.
  - rewrite fmap_cons in Hnd. simpl in Hnd.
    apply NoDup_app in Hnd as (Hacc & Hdisj & Hl). apply NoDup_cons in Hl as (Hn & Hl).
    assert (Hfresh : n ∉ (fst <$> acc)) by (intros Hin; apply (Hdisj _ Hin); left).
    destruct (whitelisted n).
    + rewrite objSet_fresh by exact Hfresh. rewrite IH.
      * now rewrite <- app_assoc.
      * rewrite fmap_app. simpl. rewrite <- app_assoc. simpl.
        apply NoDup_app. split_and!; [exact Hacc| |now constructor].
        intros x Hx. apply Hdisj in Hx. exact Hx.
    + apply IH. apply NoDup_app. split_and!; [exact Hacc| |exact Hl].
      intros x Hx Hin. apply (Hdisj _ Hx). now right.
Qed.

End SelectorsAndAttributes.

(** X13. The selector that [getElementSelector] records for an element
    is the text the method puts together from the id, or else from the tag
    and the class attribute. When that text is a selector made of plain
    names, it matches the element, so a query for it in the region the
    element is in is never empty: it finds the element itself or one that
    comes earlier in document order. *)
Theorem getElementSelector_finds (forest : list Persistence.Tree) (j : nat)
    (t : Persistence.Tree) :
  Persistence.nodes forest !! j = Some t ->
  Persistence.parses (Persistence.getElementSelector (Persistence.root t)) = true ->
  let e := Persistence.root t in
  let sel := Persistence.getElementSelector e in
  Persistence.text sel =
    (if truthy (Persistence.id e) then "#" +:+ Persistence.id e
     else if truthy (Persistence.className e)
          then Persistence.tag e +:+ "." +:+ join "." (Persistence.classList e)
          else Persistence.tag e) /\
  Persistence.matches sel e = true /\
  exists i found,
    Persistence.firstIndex sel forest = Some i /\ (i <= j)%nat /\
    Persistence.querySelector (Persistence.matches sel) forest = Some found /\
    Persistence.matches sel (Persistence.root found) = true.
Proof.
  intros Hj Hparse e sel.
  pose proof (getElementSelector_matches (Persistence.root t) Hparse) as Hm.
  split; [apply getElementSelector_text|]. split; [exact Hm|].
  destruct (indexOf_le (fun u => Persistence.matches sel (Persistence.root u))
              (Persistence.nodes forest) j t Hj Hm) as (i & Hi & Hle).
  unfold Persistence.querySelector.
  destruct (find _ (Persistence.nodes forest)) as [found|] eqn:Hfind.
  - exists i, found. split_and!; auto.
    now apply find_some in Hfind as [_ Hfound].
  - exfalso. apply find_none with (x := t) in Hfind.
    + unfold sel, e in Hfind. congruence.
    + apply list_elem_of_In. now apply list_elem_of_lookup_2 in Hj.
Qed.

Lemma getElementSelector_finds_witness :
  let e := Persistence.root (anchor ["nav-link"; "active"] "/dashboard/overview") in
  let sel := Persistence.getElementSelector e in
  Persistence.text sel =
    (if truthy (Persistence.id e) then "#" +:+ Persistence.id e
     else if truthy (Persistence.className e)
          then Persistence.tag e +:+ "." +:+ join "." (Persistence.classList e)
          else Persistence.tag e) /\
  Persistence.matches sel e = true /\
  exists i found,
    Persistence.firstIndex sel (Persistence.below twoActive) = Some i /\ (i <= 1)%nat /\
    Persistence.querySelector (Persistence.matches sel) (Persistence.below twoActive)
      = Some found /\
    Persistence.matches sel (Persistence.root found) = true.
Proof.
  apply (getElementSelector_finds (Persistence.below twoActive) 1
           (anchor ["nav-link"; "active"] "/dashboard/overview"));
    reflexivity.
Defined.

(** X14. [getElementAttributes] copies exactly the attributes whose name
    starts with [data-] or is [aria-current], in the order the element has
    them and with their values; every other attribute is left out. *)
Theorem getElementAttributes_whitelist (e : Persistence.Element) :
  NoDup (fst <$> Persistence.attributes e) ->
  Persistence.getElementAttributes e =
  List.filter (fun a => startsWith "data-" (fst a) || String.eqb (fst a) "aria-current")
    (Persistence.attributes e).
Proof.
  intros Hnd. unfold Persistence.getElementAttributes.
  now rewrite collect_whitelisted.
Qed.

Lemma getElementAttributes_whitelist_witness :
  let e := plain "a" "" ["nav-link"]
             [("href", "/servers"); ("data-section", "admin"); ("title", "Servers");
              ("aria-current", "page")] in
  Persistence.getElementAttributes e =
  List.filter (fun a => startsWith "data-" (fst a) || String.eqb (fst a) "aria-current")
    (Persistence.attributes e).
Proof.
  apply (getElementAttributes_whitelist
           (plain "a" "" ["nav-link"]
              [("href", "/servers"); ("data-section", "admin"); ("title", "Servers");
               ("aria-current", "page")])).
  apply (bool_decide_unpack _). vm_compute. exact I.
Defined.

(** ** What a restore leaves alone *)

Section RestoreShape.

Import Persistence.

Lemma bare_setClassName (c : string) (e : Element) : bare (setClassName c e) = bare e.
Proof. reflexivity. Qed.

Lemma bare_setAttributes (attrs : list (string * string)) (e : Element) :
  bare (setAttributes attrs e) = bare e.
Proof.
  unfold setAttributes. revert e. induction attrs as [|a attrs IH]; intros e; [reflexivity|].
  simpl. now rewrite IH.
Qed.

Lemma bare_setCssText (c : string) (e : Element) : bare (setCssText c e) = bare e.
Proof. reflexivity. Qed.

Lemma bare_setValue (v : string) (e : Element) : bare (setValue v e) = bare e.
Proof. unfold setValue. destruct (control e) eqn:E; unfold bare; simpl; rewrite ?E; reflexivity. Qed.

Lemma skeleton_onRoot (h : Element -> Element) (t : Tree) :
  bare (h (root t)) = bare (root t) -> skeleton (onRoot h t) = skeleton t.
Proof. destruct t as [e ch]. simpl. now intros ->. Qed.

Variable p : Element -> bool.
Variable g : Tree -> Tree.

Lemma keepsShape_forest (l : list Tree) :
  Forall (keepsShape p g) l ->
  match find (fun u => p (root u)) (nodes l) with
  | None => updForest p g l = None
  | Some u =>
      exists l', updForest p g l = Some l' /\
                 (skeleton (g u) = skeleton u -> map skeleton l' = map skeleton l)
  end.
Proof.
  unfold nodes, updForest. induction 1 as [|c l Hc _ IH]; [reflexivity|].
  unfold keepsShape in Hc. simpl. rewrite find_app.
  destruct (find (fun u => p (root u)) (subtrees c)) as [u|].
  - destruct Hc as (c' & -> & Hshape). eexists. split; [reflexivity|].
    intros Hg. simpl. now rewrite Hshape.
  - rewrite Hc. destruct (find (fun u => p (root u)) (flat_map subtrees l)) as [u|].
    + destruct IH as (l' & -> & Hshape). eexists. split; [reflexivity|].
      intros Hg. simpl. now rewrite Hshape.
    + now rewrite IH.
Qed.

Lemma keepsShape_tree (t : Tree) : keepsShape p g t.
Proof.
  induction t as [e ch IH] using Tree_forall_ind.
  pose proof (keepsShape_forest ch IH) as Hch.
  unfold keepsShape. simpl. destruct (p e).
  - eexists. split; [reflexivity|]. auto.
  - fold (nodes ch). fold (updForest p g ch).
    destruct (find (fun u => p (root u)) (nodes ch)) as [u|].
    + destruct Hch as (ch' & -> & Hshape). eexists. split; [reflexivity|].
      intros Hg. simpl. now rewrite Hshape.
    + now rewrite Hch.
Qed.

(** A write through a query keeps the shape when the node found keeps
    it. *)
Lemma writeFirst_shape (forest : list Tree) :
  (forall u, querySelector p forest = Some u -> skeleton (g u) = skeleton u) ->
  map skeleton (writeFirst p g forest) = map skeleton forest.
Proof.
  intros Hg. unfold writeFirst, querySelector in *.
  assert (H := keepsShape_forest forest).
  destruct (find (fun u => p (root u)) (nodes forest)) as [u|].
  - destruct H as (l' & -> & Hshape).
    + apply Forall_forall. intros t _. apply keepsShape_tree.
    + simpl. apply Hshape, Hg. reflexivity.
  - rewrite H; [reflexivity|]. apply Forall_forall. intros t _. apply keepsShape_tree.
Qed.

End RestoreShape.

Section RestoreKeepsShape.

Import Persistence.

Lemma forEach_stuck {A X : Type} (f : X -> A -> Restored A) (xs : list X) (sel : Selector) :
  fold_left (fun acc x => andThen acc (f x)) xs (NotModelled sel) = NotModelled sel.
Proof. induction xs as [|x xs IH]; [reflexivity|exact IH]. Qed.

(** What every step of a loop keeps, the loop keeps. *)
Lemma forEach_keeps {A X B : Type} (view : A -> B) (f : X -> A -> Restored A) (xs : list X) :
  (forall x a a', f x a = Done a' -> view a' = view a) ->
  forall a a', forEach f xs a = Done a' -> view a' = view a.
Proof.
  intros Hstep. unfold forEach. induction xs as [|x xs IH]; intros a a' Hloop.
  - simpl in Hloop. now simplify_eq.
  - simpl in Hloop. destruct (f x a) as [a1|sel] eqn:Hx.
    + rewrite (IH a1 a' Hloop). exact (Hstep x a a1 Hx).
    + rewrite forEach_stuck in Hloop. discriminate.
Qed.

Lemma restoreActive_shape (info : ActiveInfo) (forest forest' : list Tree) :
  restoreActive info forest = Done forest' -> map skeleton forest' = map skeleton forest.
Proof.
  unfold restoreActive. destruct (parses (a_selector info)); [|discriminate].
  intros [= <-]. apply writeFirst_shape. intros u _. apply skeleton_onRoot.
  now rewrite bare_setAttributes, bare_setClassName.
Qed.

Lemma restoreField_shape (field : string * string) (form form' : Tree) :
  restoreField field form = Done form' -> skeleton form' = skeleton form.
Proof.
  unfold restoreField. destruct (parses (ByName (fst field))); [|discriminate].
  intros [= <-]. destruct form as [e ch]. simpl. f_equal.
  apply writeFirst_shape. intros u _. apply skeleton_onRoot, bare_setValue.
Qed.

Lemma restoreKeyed_shape (key : string) (fallback : Selector) (g : Tree -> Restored Tree)
    (forest forest' : list Tree) :
  (forall t t', g t = Done t' -> skeleton t' = skeleton t) ->
  restoreKeyed key fallback g forest = Done forest' ->
  map skeleton forest' = map skeleton forest.
Proof.
  intros Hg. unfold restoreKeyed. destruct (parses (ById key)); [|discriminate].
  set (p := if bool_decide _ then _ else _).
  destruct (querySelector p forest) as [found|] eqn:Hfound; [|now intros [= <-]].
  destruct (g found) as [found'|sel] eqn:Hfound'; [|discriminate].
  intros [= <-]. apply writeFirst_shape. intros u Hu.
  rewrite Hfound in Hu. simplify_eq. exact (Hg _ _ Hfound').
Qed.

Lemma restoreForm_shape (entry : string * list (string * string)) (forest forest' : list Tree) :
  restoreForm entry forest = Done forest' -> map skeleton forest' = map skeleton forest.
Proof.
  apply restoreKeyed_shape. intros t t'.
  apply (forEach_keeps skeleton restoreField). apply restoreField_shape.
Qed.

Lemma restoreToggle_shape (entry : string * ToggleInfo) (forest forest' : list Tree) :
  restoreToggle entry forest = Done forest' -> map skeleton forest' = map skeleton forest.
Proof.
  apply restoreKeyed_shape. intros [e ch] t' [= <-]. simpl. f_equal.
  destruct (truthy (g_style (snd entry)));
    now rewrite ?bare_setCssText, ?bare_setAttributes, ?bare_setClassName.
Qed.

End RestoreKeepsShape.



(** ** [normalizePath] and [updateActiveNavigation] *)

Section NavProperties.

Import Nav.

Lemma stripSlashes_spec (s : string) :
  exists k, s = stripSlashes s +:+ slashes k /\
            endsInSlash (stripSlashes s) = false /\
            (stripSlashes s = "" -> s = slashes k).
Proof.
  induction s as [|c rest (k & Hk & Hend & Hempty)].
  - exists 0%nat. now split_and!.
  - simpl. destruct (Ascii.eqb c "/" && String.eqb (stripSlashes rest) "") eqn:Hc.
    + apply andb_true_iff in Hc as [Hslash Hnil].
      apply Ascii.eqb_eq in Hslash. apply String.eqb_eq in Hnil. subst c.
      exists (S k). split_and!; [|reflexivity|].
      * change (String "/" rest = String "/" (slashes k)). f_equal. now apply Hempty.
      * intros _. simpl. f_equal. now apply Hempty.
    + exists k. split_and!; [|  |discriminate].
      * change (String c rest = String c (stripSlashes rest +:+ slashes k)). now f_equal.
      * simpl. destruct (stripSlashes rest) as [|d rest'] eqn:Hrest; [|exact Hend].
        rewrite String.eqb_refl, andb_true_r in Hc. exact Hc.
Qed.

Lemma findIndex_removeClasses (q : NavLink -> bool) (tokens : list string) (l : list NavLink) :
  (forall x, q (removeClasses tokens x) = q x) ->
  findIndex q (removeClasses tokens <$> l) = findIndex q l.
Proof.
  intros Hq. induction l as [|x l IH]; [reflexivity|].
  rewrite fmap_cons. cbn [findIndex]. rewrite Hq, IH. reflexivity.
Qed.

Lemma findIndex_lookup {A : Type} (q : A -> bool) (l : list A) (i : nat) :
  findIndex q l = Some i -> exists x, l !! i = Some x /\ q x = true.
Proof.
  revert i. induction l as [|y l IH]; intros i; [discriminate|].
  simpl. destruct (q y) eqn:Hy.
  - intros [= <-]. eauto.
  - destruct (findIndex q l) as [j|]; [|discriminate].
    intros [= <-]. destruct (IH j eq_refl) as (x & Hx & Hqx). eauto.
Qed.

Lemma elem_of_removed (tokens : list string) (l : NavLink) (c : string) :
  c ∈ classList (removeClasses tokens l) <-> (c ∉ tokens) /\ c ∈ classList l.
Proof.
  unfold removeClasses. cbn [classList].
  rewrite list_elem_of_In, filter_In, <- list_elem_of_In, negb_true_iff, bool_decide_eq_false.
  tauto.
Qed.

Lemma elem_of_added (tokens : list string) (l : NavLink) (c : string) :
  c ∈ classList (addClasses tokens l) <-> c ∈ tokens \/ c ∈ classList l.
Proof.
  unfold addClasses. cbn [classList].
  destruct (loadUrls_appends [] tokens (classList l)) as (added & Hadd & _ & Hiff).
  unfold Router.loadUrls in Hadd. cbn [app] in Hadd.
  rewrite Hadd, elem_of_app, Hiff. pose proof (not_elem_of_nil c).
  destruct (decide (c ∈ classList l)); tauto.
Qed.

End NavProperties.

(** X16. [normalizePath] returns the path name of its argument, as the
    URL parser gives it or, when the parser throws, as it is written,
    without the slashes it ends with; when nothing else is left it
    returns a single slash. The result is never empty and ends with a slash
    only when it is that single slash. *)
Theorem normalizePath_normal_form (pathnameOf : string -> option string) (path : string) :
  let source := default path (pathnameOf path) in
  let normal := Nav.normalizePath pathnameOf path in
  normal <> "" /\
  (normal = "/" \/ endsInSlash normal = false) /\
  exists k, source = normal +:+ slashes k \/ (normal = "/" /\ source = slashes k).
Proof.
  intros source normal.
  assert (Hnormal : normal = if truthy (Nav.stripSlashes source)
                             then Nav.stripSlashes source else "/").
  { unfold normal, source, Nav.normalizePath. now destruct (pathnameOf path). }
  destruct (stripSlashes_spec source) as (k & Hk & Hend & Hempty).
  rewrite Hnormal. unfold truthy.
  destruct (String.eqb (Nav.stripSlashes source) "") eqn:Hs; simpl.
  - apply String.eqb_eq in Hs. split_and!; [discriminate|now left|].
    exists k. right. split; [reflexivity|]. now apply Hempty.
  - apply String.eqb_neq in Hs. split_and!; [exact Hs|now right|].
    exists k. now left.
Qed.

(** X17. After [updateActiveNavigation(path)] at most one navigation link
    carries the four highlight classes: the first link whose normalised
    [href] is the normalised path, and only on a page that has the
    [#active-background] indicator. Every other link has lost them, so
    a path that no link leads to clears the highlight. No other class, no
    [href] and no link is added or removed. The call throws exactly when
    the link to be highlighted has no [ul] ancestor, after the classes are
    set; otherwise the indicator is placed on that link. *)
Theorem updateActiveNavigation_marks_first_match (pathnameOf : string -> option string)
    (path : string) (b : Nav.Bar) :
  let r := Nav.updateActiveNavigation pathnameOf path b in
  let target := activeTarget pathnameOf path b in
  length (Nav.navLinks (fst r)) = length (Nav.navLinks b) /\
  (forall j old new,
     Nav.navLinks b !! j = Some old -> Nav.navLinks (fst r) !! j = Some new ->
     Nav.href new = Nav.href old /\ Nav.insideList new = Nav.insideList old /\
     forall c, c ∈ Nav.classList new <->
               (c ∈ Nav.activeClasses /\ target = Some j) \/
               ((c ∉ Nav.activeClasses) /\ c ∈ Nav.classList old)) /\
  (snd r = Some Nav.noListAncestor <->
   exists i l, target = Some i /\ Nav.navLinks b !! i = Some l /\ Nav.insideList l = false) /\
  (snd r = None \/ snd r = Some Nav.noListAncestor) /\
  Nav.activeBackground (fst r) =
    match snd r, target with
    | None, Some i => Some (Some i)
    | _, _ => Nav.activeBackground b
    end.
Proof.
  intros r target. subst r target.
  unfold Nav.updateActiveNavigation, activeTarget.
  rewrite findIndex_removeClasses by reflexivity.
  set (cleared := Nav.removeClasses Nav.activeClasses <$> Nav.navLinks b).
  assert (Hcleared : forall j old new,
            Nav.navLinks b !! j = Some old -> cleared !! j = Some new ->
            new = Nav.removeClasses Nav.activeClasses old).
  { intros j old new Hold Hnew. unfold cleared in Hnew.
    rewrite list_lookup_fmap, Hold in Hnew. simpl in Hnew. now simplify_eq. }
  destruct (Nav.findIndex _ (Nav.navLinks b)) as [i|] eqn:Hfind.
  2: { destruct (Nav.activeBackground b) as [placed|]; cbn [fst snd Nav.navLinks Nav.activeBackground];
       (split_and!;
        [unfold cleared; now rewrite length_fmap
        |intros j old new Hold Hnew; rewrite (Hcleared j old new Hold Hnew);
         split_and!; try reflexivity; intros c; rewrite elem_of_removed;
         split; [intros [? ?]; right; tauto | intros [[_ [=]]|?]; tauto]
        |split; [discriminate|intros (? & ? & [=] & _)]
        |now left
        |reflexivity]). }
  destruct (Nav.activeBackground b) as [placed|] eqn:Hbg.
  2: { cbn [fst snd Nav.navLinks Nav.activeBackground]. split_and!.
       - unfold cleared. now rewrite length_fmap.
       - intros j old new Hold Hnew. rewrite (Hcleared j old new Hold Hnew).
         split_and!; try reflexivity. intros c. rewrite elem_of_removed.
         split; [intros [? ?]; right; tauto | intros [[_ [=]]|?]; tauto].
       - split; [discriminate|intros (? & ? & [=] & _)].
       - now left.
       - reflexivity. }
  destruct (findIndex_lookup _ _ _ Hfind) as (l & Hl & _).
  assert (Hci : cleared !! i = Some (Nav.removeClasses Nav.activeClasses l)).
  { unfold cleared. now rewrite list_lookup_fmap, Hl. }
  rewrite Hci. cbn [fmap option_fmap option_map Nav.insideList Nav.removeClasses].
  assert (Hlinks : forall j old new,
            Nav.navLinks b !! j = Some old ->
            alter (Nav.addClasses Nav.activeClasses) i cleared !! j = Some new ->
            Nav.href new = Nav.href old /\ Nav.insideList new = Nav.insideList old /\
            forall c, c ∈ Nav.classList new <->
                      (c ∈ Nav.activeClasses /\ Some i = Some j) \/
                      ((c ∉ Nav.activeClasses) /\ c ∈ Nav.classList old)).
  { intros j old new Hold Hnew. rewrite list_lookup_alter in Hnew.
    destruct (decide (i = j)) as [->|Hne].
    - rewrite Hci in Hnew. simpl in Hnew. simplify_eq. split_and!; try reflexivity.
      intros c. rewrite elem_of_added, elem_of_removed.
      destruct (decide (c ∈ Nav.activeClasses)); tauto.
    - rewrite (Hcleared j old new Hold Hnew). split_and!; try reflexivity.
      intros c. rewrite elem_of_removed.
      split; [tauto|]. intros [[_ [= Heq]]|?]; [congruence|tauto]. }
  destruct (Nav.insideList l) eqn:Hinside; cbn [fst snd Nav.navLinks Nav.activeBackground].
  - split_and!.
    + unfold cleared. now rewrite length_alter, length_fmap.
    + exact Hlinks.
    + split; [discriminate|]. intros (i' & l' & [= <-] & Hl' & Hout). congruence.
    + now left.
    + reflexivity.
  - split_and!.
    + unfold cleared. now rewrite length_alter, length_fmap.
    + exact Hlinks.
    + split; [|reflexivity]. intros _. exists i, l. now split_and!.
    + now right.
    + reflexivity.
Qed.

(** ** [navigate] and the highlighting *)

(** X19. When [updateActiveNavigation] throws, which it does after the
    page is rendered, cached, made the current route and written to the
    history, [navigate] keeps all of that and ends in the error state all
    the same: the error message of the exception is shown, the failed path
    is recorded as the path just reached, and [afterNavigation] is not
    scheduled, so the persistent components are not restored. *)
Theorem navigate_highlighting_failure (pathnameOf : string -> option string)
    (env : Router.Env) (path : string) (pushHistory isInitial : bool) (w : Page.World)
    (page : PageData) (error : JsError) :
  proceeds isInitial (Page.base w) = true ->
  resolved env path (Page.base w) = Some page ->
  snd (Nav.updateActiveNavigation pathnameOf path (Page.bar w)) = Some error ->
  exists w' effects plain plainEffects,
    Page.navigate pathnameOf env path pushHistory isInitial w = Some (w', effects) /\
    Router.navigate env path pushHistory isInitial (Page.base w) = Some (plain, plainEffects) /\
    Router.document (Page.base w') = Router.document plain /\
    Router.currentRoute (Router.router (Page.base w')) = Some path /\
    Router.cache (Router.router (Page.base w')) = Router.cache (Router.router plain) /\
    Router.preloadCache (Router.router (Page.base w'))
      = Router.preloadCache (Router.router plain) /\
    Router.isNavigating (Router.router (Page.base w')) = false /\
    Router.lastFailedPath (Router.router (Page.base w')) = Some path /\
    Router.widgets (Page.base w') =
      Router.hideLoadingState
        (Router.showErrorWidgets (err_message error)
           (Router.showLoadingState (Router.widgets (Page.base w)))) /\
    (Router.AfterNavigationIn50ms ∉ effects) /\
    Page.bar w' = fst (Nav.updateActiveNavigation pathnameOf path (Page.bar w)).
Proof.
  intros Hgo Hres Hthrows.
  destruct (navigate_resolved env path pushHistory isInitial (Page.base w) page Hgo Hres)
    as (plainEffects & Hplain).
  destruct (landed_fields env path pushHistory isInitial (Page.base w) page)
    as (Hroute & _ & _ & Hflag).
  cbn zeta in *.
  revert Hgo Hres. unfold proceeds, resolved, cachedPage, Page.navigate.
  intros Hgo%negb_true_iff Hres. rewrite Hgo.
  cbn [Router.with_router Router.with_widgets Router.router].
  change (Router.cache (Router.set_isNavigating true (Router.router (Page.base w))))
    with (Router.cache (Router.router (Page.base w))).
  change (Router.preloadCache (Router.set_isNavigating true (Router.router (Page.base w))))
    with (Router.preloadCache (Router.router (Page.base w))).
  assert (Hbefore : forall evs,
            Router.AfterNavigationIn50ms ∉
              (if Router.hasPersistence (Page.base w) && negb isInitial
               then [Router.BeforeNavigation] else []) ++ map Router.Net evs).
  { intros evs [Hin|Hin]%elem_of_app.
    - destruct (Router.hasPersistence (Page.base w) && negb isInitial);
        [apply list_elem_of_singleton in Hin; discriminate|now apply elem_of_nil in Hin].
    - apply list_elem_of_fmap in Hin as (e & He & _). discriminate. }
  set (done := Router.finish env path pushHistory isInitial (JPage page) _) in *.
  assert (Hfinal :
      let w' := {| Page.base :=
                     Router.with_router (Router.set_isNavigating false)
                       (Router.with_widgets Router.hideLoadingState
                          (Router.showErrorState (err_message error) (fst done)));
                   Page.bar := fst (Nav.updateActiveNavigation pathnameOf path (Page.bar w)) |} in
      let plain := Router.with_router (Router.set_isNavigating false)
                     (Router.with_widgets Router.hideLoadingState (fst done)) in
      Router.document (Page.base w') = Router.document plain /\
      Router.currentRoute (Router.router (Page.base w')) = Some path /\
      Router.cache (Router.router (Page.base w')) = Router.cache (Router.router plain) /\
      Router.preloadCache (Router.router (Page.base w'))
        = Router.preloadCache (Router.router plain) /\
      Router.isNavigating (Router.router (Page.base w')) = false /\
      Router.lastFailedPath (Router.router (Page.base w')) = Some path /\
      Router.widgets (Page.base w') =
        Router.hideLoadingState
          (Router.showErrorWidgets (err_message error)
             (Router.showLoadingState (Router.widgets (Page.base w)))) /\
      Page.bar w' = fst (Nav.updateActiveNavigation pathnameOf path (Page.bar w))).
  { intros w' plain. subst w' plain.
    cbn [Page.base Page.bar Router.with_router Router.with_widgets Router.showErrorState
         Router.router Router.document Router.widgets Router.set_isNavigating
         Router.set_lastFailedPath Router.currentRoute Router.cache Router.preloadCache
         Router.isNavigating Router.lastFailedPath] in *.
    rewrite Hroute. split_and!; try reflexivity.
    unfold done, Router.finish. cbn [fst].
    destruct (pushHistory && negb isInitial); [|destruct isInitial]; reflexivity. }
  destruct (Router.orElse _ _) as [[|page']|] eqn:Hcache.
  - destruct (Fetch.fetchPageData (Router.net env) path 0) as [[evs [[|page']|]]|] eqn:Hrun;
      try discriminate. simplify_eq. rewrite Hthrows.
    do 4 eexists. split; [reflexivity|]. split; [exact Hplain|].
    cbn [fst snd]. destruct Hfinal as (H1 & H2 & H3 & H4 & H5 & H6 & H7 & H8).
    split_and!; auto.
  - simplify_eq. rewrite Hthrows.
    do 4 eexists. split; [reflexivity|]. split; [exact Hplain|].
    cbn [fst snd]. destruct Hfinal as (H1 & H2 & H3 & H4 & H5 & H6 & H7 & H8).
    split_and!; auto.
  - destruct (Fetch.fetchPageData (Router.net env) path 0) as [[evs [[|page']|]]|] eqn:Hrun;
      try discriminate. simplify_eq. rewrite Hthrows.
    do 4 eexists. split; [reflexivity|]. split; [exact Hplain|].
    cbn [fst snd]. destruct Hfinal as (H1 & H2 & H3 & H4 & H5 & H6 & H7 & H8).
    split_and!; auto.
Qed.

Lemma navigate_highlighting_failure_witness :
  exists w' effects plain plainEffects,
    Page.navigate verbatim serversFound "/servers" true false
      {| Page.base := atDashboard false; Page.bar := panelBar false |} = Some (w', effects) /\
    Router.navigate serversFound "/servers" true false (atDashboard false)
      = Some (plain, plainEffects) /\
    Router.document (Page.base w') = Router.document plain /\
    Router.currentRoute (Router.router (Page.base w')) = Some "/servers" /\
    Router.cache (Router.router (Page.base w')) = Router.cache (Router.router plain) /\
    Router.preloadCache (Router.router (Page.base w'))
      = Router.preloadCache (Router.router plain) /\
    Router.isNavigating (Router.router (Page.base w')) = false /\
    Router.lastFailedPath (Router.router (Page.base w')) = Some "/servers" /\
    Router.widgets (Page.base w') =
      Router.hideLoadingState
        (Router.showErrorWidgets (err_message Nav.noListAncestor)
           (Router.showLoadingState (Router.widgets (atDashboard false)))) /\
    (Router.AfterNavigationIn50ms ∉ effects) /\
    Page.bar w' = fst (Nav.updateActiveNavigation verbatim "/servers" (panelBar false)).
Proof.
  apply (navigate_highlighting_failure verbatim serversFound "/servers" true false
           {| Page.base := atDashboard false; Page.bar := panelBar false |}
           serversPage Nav.noListAncestor); reflexivity.
Defined.

(** ** Links the router takes over and links the preloader accepts *)

(** X20. Every link whose click the router takes over is one the
    preloader accepts on hover, unless the link opts out with
    [data-no-preload]: [shouldPreload(href, link)] does not throw and
    answers [true] exactly when neither cache of the router knows the path
    and no preload of it is in progress. *)
Theorem intercepted_link_is_preloadable (origin : string) (s : Preloader.State)
    (link : Click.Link) (element : Preloader.LinkElement) :
  Click.skipped link = false ->
  Preloader.hasDownload element = Click.hasDownload link ->
  Preloader.hasDataNoPreload element = false ->
  Preloader.shouldPreload origin s (Click.href link) (Some element) =
  inr (bool_decide (Router.cache (Preloader.router s) !! Click.href link = None /\
                    Router.preloadCache (Preloader.router s) !! Click.href link = None /\
                    Click.href link ∉ Preloader.preloadingInProgress s)).
Proof.
  intros (Hhref & Hhash & Hmail & Htel & Habs & Hdown & _)%skipped_false_iff Hd Hopt.
  unfold Preloader.shouldPreload, truthy.
  rewrite (proj2 (String.eqb_neq _ _) Hhref), Habs, Hhash, Hmail, Htel, Hopt, Hd, Hdown.
  cbn [negb andb orb].
  destruct (Router.cache (Preloader.router s) !! Click.href link) as [x|] eqn:Hc.
  { rewrite bool_decide_eq_true_2 by eauto. cbn [orb].
    rewrite bool_decide_eq_false_2; [reflexivity|]. now intros [? _]. }
  rewrite (bool_decide_eq_false_2 (is_Some None)) by (intros [? ?]; discriminate).
  destruct (Router.preloadCache (Preloader.router s) !! Click.href link) as [x|] eqn:Hp.
  { rewrite bool_decide_eq_true_2 by eauto. cbn [orb].
    rewrite bool_decide_eq_false_2; [reflexivity|]. now intros (_ & ? & _). }
  rewrite (bool_decide_eq_false_2 (is_Some None)) by (intros [? ?]; discriminate).
  cbn [orb]. case_bool_decide as Hin.
  - rewrite bool_decide_eq_false_2; [reflexivity|]. now intros (_ & _ & ?).
  - now rewrite bool_decide_eq_true_2.
Qed.

Lemma intercepted_link_is_preloadable_witness :
  let link := {| Click.href := "/admin/servers"; Click.hasDownload := false;
                 Click.target := ""; Click.classList := ["nav-link"];
                 Click.hasDataNoSpa := false |} in
  Preloader.shouldPreload "https://panel.example.com" twoInFlight (Click.href link)
    (Some {| Preloader.hasDataNoPreload := false; Preloader.hasDownload := false |}) =
  inr (bool_decide (Router.cache (Preloader.router twoInFlight) !! Click.href link = None /\
                    Router.preloadCache (Preloader.router twoInFlight) !! Click.href link = None /\
                    Click.href link ∉ Preloader.preloadingInProgress twoInFlight)).
Proof.
  apply (intercepted_link_is_preloadable "https://panel.example.com" twoInFlight
           {| Click.href := "/admin/servers"; Click.hasDownload := false;
              Click.target := ""; Click.classList := ["nav-link"];
              Click.hasDataNoSpa := false |}
           {| Preloader.hasDataNoPreload := false; Preloader.hasDownload := false |});
    reflexivity.
Defined.

(** ** Generated ids within one millisecond *)

Section SameMillisecond.

Import Persistence.

Variable now : Z.

Lemma keyed_frozen {B : Type} (what : string) (p : Element -> bool) (F : Tree -> B)
    (k i : nat) (l : list Tree) :
  (forall t, t ∈ l -> p (root t) = true -> id (root t) = "") ->
  (fun x => (fst x, F (snd (snd x)))) <$> keyed what (frozen now) p k i l =
  (fun t => (generateComponentId what now, F t)) <$> List.filter (fun t => p (root t)) l.
Proof.
  revert k i. induction l as [|t l IH]; intros k i Hids; [reflexivity|].
  simpl. destruct (p (root t)) eqn:Hp.
  - rewrite (Hids t) by (auto; left). cbn [truthy String.eqb negb].
    rewrite !fmap_cons. cbn [fst snd]. change (frozen now k) with now. f_equal. apply IH.
    intros u Hu. apply Hids. now right.
  - apply IH. intros u Hu. apply Hids. now right.
Qed.

Lemma objSet_single {V : Type} (k : string) (v v' : V) : objSet k v' [(k, v)] = [(k, v')].
Proof. simpl. now rewrite String.eqb_refl. Qed.

(** Assignments to one key leave the value assigned last. *)
Lemma fromEntries_one_key {V : Type} (k : string) (vs : list V) :
  fromEntries ((fun v => (k, v)) <$> vs) =
  match last vs with
  | Some v => [(k, v)]
  | None => []
  end.
Proof.
  unfold fromEntries. destruct vs as [|v0 vs]; [reflexivity|].
  rewrite fmap_cons. cbn [fold_left fst snd objSet].
  revert v0. induction vs as [|v vs IH]; intros v0; [reflexivity|].
  rewrite fmap_cons. cbn [fold_left fst snd]. rewrite objSet_single, IH.
  now rewrite (last_cons_cons v0 v vs).
Qed.

End SameMillisecond.



(** ** The registry of persistent components *)

Section RegistryScan.

Import Registry.

Lemma keysOf_objSet {V : Type} (k k' : string) (v : V) (o : list (string * V)) :
  k ∈ keysOf (objSet k' v o) <-> k = k' \/ k ∈ keysOf o.
Proof.
  unfold keysOf. induction o as [|[k0 v0] o IH]; simpl.
  - rewrite list_elem_of_singleton, elem_of_nil. tauto.
  - destruct (String.eqb k' k0) eqn:E.
    + apply String.eqb_eq in E. subst k0. simpl. rewrite !elem_of_cons. tauto.
    + simpl. rewrite !elem_of_cons, IH. tauto.
Qed.

Lemma elem_of_objSet_other {V : Type} (k k' : string) (v v' : V) (o : list (string * V)) :
  (k, v) ∈ o -> k <> k' -> (k, v) ∈ objSet k' v' o.
Proof.
  intros Hin Hne. induction o as [|[k0 v0] o IH]; [now apply elem_of_nil in Hin|].
  simpl. apply elem_of_cons in Hin as [Heq|Hin].
  - simplify_eq. rewrite (proj2 (String.eqb_neq k' k0)) by congruence. left.
  - destruct (String.eqb k' k0); right; auto.
Qed.

Lemma elem_of_objSet_new {V : Type} (k : string) (v : V) (o : list (string * V)) :
  (k, v) ∈ objSet k v o.
Proof.
  induction o as [|[k0 v0] o IH]; simpl; [left|].
  destruct (String.eqb k k0); [left|now right].
Qed.

Lemma length_objSet {V : Type} (k : string) (v : V) (o : list (string * V)) :
  length (objSet k v o) = if has k o then length o else S (length o).
Proof.
  unfold has. induction o as [|[k0 v0] o IH]; [reflexivity|].
  simpl. destruct (String.eqb k k0) eqn:E.
  - apply String.eqb_eq in E. subst k0. simpl.
    rewrite bool_decide_eq_true_2 by left. reflexivity.
  - apply String.eqb_neq in E. simpl. rewrite IH.
    case_bool_decide as H1; case_bool_decide as H2; try reflexivity;
      rewrite elem_of_cons in H2; simpl in H2; tauto.
Qed.

Variable clock : nat -> Z.

Lemma scanned_refl (acc : nat * list (string * Component)) : scanned clock acc acc.
Proof. unfold scanned. split_and!; auto. Qed.

Lemma scanned_trans (a b c : nat * list (string * Component)) :
  scanned clock a b -> scanned clock b c -> scanned clock a c.
Proof.
  intros (Hk1 & Hkeys1 & He1) (Hk2 & Hkeys2 & He2). unfold scanned. split_and!; [lia|auto|].
  intros key x Hin. destruct (He1 key x Hin) as [Hb|(sel & j & Hj & ->)].
  - destruct (He2 key x Hb) as [Hc|(sel & j & Hj & ->)]; [now left|].
    right. exists sel, j. split; [lia|reflexivity].
  - right. exists sel, j. split; [lia|reflexivity].
Qed.

Lemma register_scanned (sel : StaticSelector) (acc : nat * list (string * Component))
    (x : nat * Node) :
  scanned clock acc (register clock sel acc x).
Proof.
  unfold register. destruct (has _ (snd acc)) eqn:Hhas; [apply scanned_refl|].
  apply bool_decide_eq_false in Hhas.
  destruct (truthy (Persistence.id (own (snd x)))) eqn:Hid; unfold scanned; cbn [fst snd].
  - split_and!; [lia| |].
    + intros key Hkey. apply keysOf_objSet. now right.
    + intros key c Hin. left. apply elem_of_objSet_other; [exact Hin|].
      intros ->. apply Hhas. apply list_elem_of_fmap. now exists (Persistence.id (own (snd x)), c).
  - split_and!; [lia| |].
    + intros key Hkey. apply keysOf_objSet. now right.
    + intros key c Hin.
      destruct (decide (key = generateComponentId (text sel) (clock (fst acc)))) as [->|Hne].
      * right. exists sel, (fst acc). split; [lia|reflexivity].
      * left. now apply elem_of_objSet_other.
Qed.

Lemma fold_scanned {X : Type} (step : nat * list (string * Component) -> X ->
                                      nat * list (string * Component)) (xs : list X) :
  (forall acc x, scanned clock acc (step acc x)) ->
  forall acc, scanned clock acc (fold_left step xs acc).
Proof.
  intros Hstep. induction xs as [|x xs IH]; intros acc; [apply scanned_refl|].
  simpl. eapply scanned_trans; [apply Hstep|apply IH].
Qed.

Lemma identify_scanned (k : nat) (d : Dom) (f : Fields) :
  scanned clock (k, staticComponents f)
    (fst (identifyStaticComponents clock k d f),
     staticComponents (snd (identifyStaticComponents clock k d f))).
Proof.
  unfold identifyStaticComponents. cbn [fst snd staticComponents].
  rewrite <- surjective_pairing.
  apply fold_scanned. intros acc sel. apply fold_scanned. intros acc' x.
  apply register_scanned.
Qed.

Lemma startsWith_append (a b : string) : startsWith a (a +:+ b) = true.
Proof.
  unfold startsWith. induction a as [|c a IH]; [now destruct b|].
  rewrite append_cons. simpl. now destruct (ascii_dec c c).
Qed.

Lemma generated_prefix (selector : string) (now : Z) :
  startsWith "component_" (generateComponentId selector now) = true.
Proof. apply startsWith_append. Qed.

End RegistryScan.

(** X22. [identifyStaticComponents] never lets go of what it registered: a
    scan loses no key, and it replaces an entry only under an id that the
    scan itself generated. In particular an entry under the id of an
    element keeps the element, selector and snapshot it was first given,
    whatever the page looks like when it is scanned again; the stored
    snapshots are not touched at all. *)
Theorem identify_never_repoints (clock : nat -> Z) (k : nat) (d : Registry.Dom)
    (f : Registry.Fields) :
  let f' := snd (Registry.identifyStaticComponents clock k d f) in
  Registry.componentStates f' = Registry.componentStates f /\
  (forall key, key ∈ Registry.getStaticComponentIds f ->
               key ∈ Registry.getStaticComponentIds f') /\
  (forall key c, (key, c) ∈ Registry.staticComponents f ->
                 (key, c) ∈ Registry.staticComponents f' \/
                 exists sel j, (k <= j)%nat /\
                               key = Registry.generateComponentId (Registry.text sel) (clock j)) /\
  (forall key c, (key, c) ∈ Registry.staticComponents f ->
                 startsWith "component_" key = false ->
                 (key, c) ∈ Registry.staticComponents f').
Proof.
  intros f'. destruct (identify_scanned clock k d f) as (_ & Hkeys & Hentries).
  cbn [fst snd] in *. split_and!; [reflexivity|exact Hkeys|exact Hentries|].
  intros key c Hin Hplain. destruct (Hentries key c Hin) as [H|(sel & j & _ & ->)]; [exact H|].
  now rewrite generated_prefix in Hplain.
Qed.

Section RegistryInvariants.

Import Registry.

Lemma get_elem_of {V : Type} (k : string) (v : V) (m : list (string * V)) :
  get k m = Some v -> (k, v) ∈ m.
Proof.
  unfold get. destruct (find _ m) as [[k' v']|] eqn:Hfind; [|discriminate].
  intros [= <-]. apply find_some in Hfind as [Hin Heq].
  apply String.eqb_eq in Heq. simpl in Heq. subst k'. now apply list_elem_of_In.
Qed.

Lemma Forall_objSet {V : Type} (P : string * V -> Prop) (k : string) (v : V)
    (o : list (string * V)) :
  Forall P o -> P (k, v) -> Forall P (objSet k v o).
Proof.
  rewrite !Forall_forall. intros Ho Hkv [k' v'] Hin.
  destruct (elem_of_objSet _ _ _ _ _ Hin) as [->|Hin']; auto.
Qed.

(** What [querySelectorAll] returns. *)
Lemma elem_of_querySelectorAll (sel : StaticSelector) (d : Dom) (x : nat * Node) :
  x ∈ querySelectorAll sel d <->
  fst x ∈ attached d /\ elements d !! fst x = Some (snd x) /\
  matchesStatic sel (own (snd x)) = true.
Proof.
  unfold querySelectorAll. rewrite list_elem_of_omap. destruct x as [ref node]. simpl. split.
  - intros (ref' & Hin & Hsome). destruct (elements d !! ref') as [node'|] eqn:Hl; [|discriminate].
    destruct (matchesStatic sel (own node')) eqn:Hm; [|discriminate]. now simplify_eq.
  - intros (Hin & Hl & Hm). exists ref. split; [exact Hin|]. now rewrite Hl, Hm.
Qed.

(** An invariant of the scan: what every registration keeps, the scan
    keeps. *)
Lemma scan_keeps (I : nat * list (string * Component) -> Prop) (clock : nat -> Z)
    (d : Dom) (sels : list StaticSelector) :
  (forall sel acc x, x ∈ querySelectorAll sel d -> I acc -> I (register clock sel acc x)) ->
  forall acc, I acc ->
    I (fold_left (fun acc sel => fold_left (register clock sel) (querySelectorAll sel d) acc)
         sels acc).
Proof.
  intros Hstep. induction sels as [|sel sels IH]; intros acc Hacc; [exact Hacc|].
  simpl. apply IH.
  assert (Hinner : forall xs, (forall x, x ∈ xs -> x ∈ querySelectorAll sel d) ->
                    forall acc, I acc -> I (fold_left (register clock sel) xs acc)).
  { induction xs as [|x xs IHxs]; intros Hxs acc' Hacc'; [exact Hacc'|].
    simpl. apply IHxs; [intros y Hy; apply Hxs; now right|].
    apply Hstep; [apply Hxs; left|exact Hacc']. }
  now apply Hinner.
Qed.

(** A new element that carries the id of a registered one is never
    registered. *)
Lemma register_skips_known_id (clock : nat -> Z) (d : Dom) (i : string) (ref : nat)
    (node : Node) (sel : StaticSelector) (acc : nat * list (string * Component))
    (x : nat * Node) :
  elements d !! ref = Some node -> Persistence.id (own node) = i -> truthy i = true ->
  x ∈ querySelectorAll sel d ->
  i ∈ keysOf (snd acc) /\ Forall (fun kc => element (snd kc) <> ref) (snd acc) ->
  i ∈ keysOf (snd (register clock sel acc x)) /\
  Forall (fun kc => element (snd kc) <> ref) (snd (register clock sel acc x)).
Proof.
  intros Hnode Hid Htruthy Hx [Hkey Hfree].
  destruct (register_scanned clock sel acc x) as (_ & Hkeys & _).
  split; [now apply Hkeys|].
  unfold register. destruct (has _ (snd acc)) eqn:Hhas; [exact Hfree|].
  cbn [snd]. apply Forall_objSet; [exact Hfree|]. cbn [snd element].
  intros Href. apply elem_of_querySelectorAll in Hx as (_ & Hl & _).
  rewrite Href, Hnode in Hl. simplify_eq.
  rewrite Htruthy in Hhas. apply bool_decide_eq_false in Hhas. now apply Hhas.
Qed.

(** Restoring an entry writes to the element of its component only. *)
Lemma restoreEntry_frame (f : Fields) (ref : nat) (entry : string * Persistence.State)
    (d d' : Dom) :
  unregistered ref f ->
  restoreEntry f entry d = Persistence.Done d' ->
  (elements d' !! ref, attached d') = (elements d !! ref, attached d).
Proof.
  intros Hfree. unfold restoreEntry.
  destruct (get (fst entry) (staticComponents f)) as [c|] eqn:Hget; [|now intros [= <-]].
  destruct (elements d !! element c) as [node|]; [|now intros [= <-]].
  destruct (Persistence.restoreComponentState _ _) as [region|]; [|discriminate].
  intros [= <-]. cbn [elements attached]. f_equal.
  apply lookup_insert_ne. apply get_elem_of in Hget.
  unfold unregistered in Hfree. rewrite Forall_forall in Hfree.
  exact (Hfree _ Hget).
Qed.

End RegistryInvariants.

(** X23. An element that takes the place of a registered one and carries
    its id is never registered: the scan of [afterNavigation] finds the id
    in the registry and passes over the new element, and the restore that
    follows writes to the elements of the registry only. So the registry
    goes on restoring the element it first saw under that id, wherever
    that element is now, and the new element is left exactly as the page
    delivered it. *)
Theorem replaced_element_is_not_restored (clock : nat -> Z) (k : nat) (d : Registry.Dom)
    (f : Registry.Fields) (i : string) (ref : nat) (node : Registry.Node) :
  i ∈ Registry.getStaticComponentIds f ->
  unregistered ref f ->
  Registry.elements d !! ref = Some node ->
  Persistence.id (Registry.own node) = i ->
  truthy i = true ->
  let r := Registry.afterNavigation clock k d f in
  unregistered ref (snd (fst r)) /\
  forall d', snd r = Persistence.Done d' ->
             Registry.elements d' !! ref = Some node /\
             Registry.attached d' = Registry.attached d.
Proof.
  intros Hkey Hfree Hnode Hid Htruthy r.
  assert (Hscan : unregistered ref (snd (fst r))).
  { unfold r, Registry.afterNavigation, Registry.identifyStaticComponents, unregistered.
    cbn [fst snd Registry.staticComponents].
    apply (scan_keeps
             (fun acc => i ∈ keysOf (snd acc) /\
                         Forall (fun kc => Registry.element (snd kc) <> ref) (snd acc))
             clock d Registry.staticSelectors).
    - intros sel acc x. now apply (register_skips_known_id clock d i ref node).
    - split; [exact Hkey|exact Hfree]. }
  split; [exact Hscan|]. intros d' Hdone.
  unfold r, Registry.afterNavigation in Hdone, Hscan. cbn [fst snd] in Hdone, Hscan.
  pose proof (forEach_keeps
                (fun d => (Registry.elements d !! ref, Registry.attached d))
                (Registry.restoreEntry (snd (Registry.identifyStaticComponents clock k d f)))
                _ (fun entry a a' => restoreEntry_frame _ ref entry a a' Hscan)
                d d' Hdone) as Hview.
  simplify_eq. rewrite Hnode in *. now split.
Qed.

Lemma replaced_element_is_not_restored_witness :
  let f := snd (Registry.init wallClock 0 firstPage) in
  let r := Registry.afterNavigation wallClock 2 secondPage f in
  unregistered 1 (snd (fst r)) /\
  forall d', snd r = Persistence.Done d' ->
             Registry.elements d' !! 1%nat = Some (sidebarNode "sidebar" sidebarChanged) /\
             Registry.attached d' = Registry.attached secondPage.
Proof.
  apply (replaced_element_is_not_restored wallClock 2 secondPage
           (snd (Registry.init wallClock 0 firstPage)) "sidebar" 1
           (sidebarNode "sidebar" sidebarChanged)).
  - apply (bool_decide_unpack _). vm_compute. exact I.
  - apply (bool_decide_unpack _). vm_compute. exact I.
  - reflexivity.
  - reflexivity.
  - reflexivity.
Defined.

Section RegistryGrowth.

Import Registry.

Variable clock : nat -> Z.
Variable d : Dom.

Lemma selector_text_is_not_generated (selector : string) (now : Z) :
  generateComponentId selector now ∉ selectorTexts.
Proof.
  intros Hin.
  assert (Hall : Forall (fun t => startsWith "component_" t = false) selectorTexts)
    by (repeat constructor).
  rewrite Forall_forall in Hall. apply Hall in Hin.
  now rewrite generated_prefix in Hin.
Qed.

(** No registration makes a key of the text of a selector. *)
Lemma register_keeps_plain (sel : StaticSelector) (acc : nat * list (string * Component))
    (x : nat * Node) :
  Forall (fun ref => match elements d !! ref with
                     | Some node => Persistence.id (own node) ∉ selectorTexts
                     | None => True
                     end) (attached d) ->
  x ∈ querySelectorAll sel d ->
  Forall (fun key => key ∉ selectorTexts) (keysOf (snd acc)) ->
  Forall (fun key => key ∉ selectorTexts) (keysOf (snd (register clock sel acc x))).
Proof.
  intros Hids Hx Hacc. apply elem_of_querySelectorAll in Hx as (Hatt & Hl & _).
  rewrite Forall_forall in Hids. specialize (Hids _ Hatt). rewrite Hl in Hids.
  rewrite Forall_forall in Hacc. apply Forall_forall. intros key Hkey.
  unfold register in Hkey. destruct (has _ (snd acc)); [now apply Hacc|].
  cbn [snd] in Hkey. apply keysOf_objSet in Hkey as [->|Hkey]; [|now apply Hacc].
  destruct (truthy (Persistence.id (own (snd x)))); [exact Hids|].
  apply selector_text_is_not_generated.
Qed.

Lemma registers_keep_plain (sel : StaticSelector) (xs : list (nat * Node))
    (acc : nat * list (string * Component)) :
  Forall (fun ref => match elements d !! ref with
                     | Some node => Persistence.id (own node) ∉ selectorTexts
                     | None => True
                     end) (attached d) ->
  (forall x, x ∈ xs -> x ∈ querySelectorAll sel d) ->
  Forall (fun key => key ∉ selectorTexts) (keysOf (snd acc)) ->
  Forall (fun key => key ∉ selectorTexts)
    (keysOf (snd (fold_left (register clock sel) xs acc))).
Proof.
  intros Hids. revert acc. induction xs as [|x xs IH]; intros acc Hxs Hacc; [exact Hacc|].
  simpl. apply IH; [intros y Hy; apply Hxs; now right|].
  apply register_keeps_plain; [exact Hids|apply Hxs; left|exact Hacc].
Qed.

Lemma registers_scanned (sel : StaticSelector) (xs : list (nat * Node))
    (acc : nat * list (string * Component)) :
  scanned clock acc (fold_left (register clock sel) xs acc).
Proof. apply fold_scanned. intros acc' x. apply register_scanned. Qed.

Lemma scan_scanned (sels : list StaticSelector) (acc : nat * list (string * Component)) :
  scanned clock acc
    (fold_left (fun acc sel => fold_left (register clock sel) (querySelectorAll sel d) acc)
       sels acc).
Proof. apply fold_scanned. intros acc' sel. apply registers_scanned. Qed.

(** The last character of a string that ends with [t]. *)
Lemma endsIn_append (c : ascii) (s t : string) :
  t <> "" -> endsIn c (s +:+ t) = endsIn c t.
Proof.
  intros Ht. induction s as [|x s IH]; [reflexivity|].
  assert (Hne : s +:+ t <> "") by (destruct s; [exact Ht | discriminate]).
  rewrite append_cons, <- IH. now destruct (s +:+ t).
Qed.

Lemma fold_left_app_cons {A B : Type} (step : A -> B -> A) (l1 l2 : list B) (x : B) (a : A) :
  fold_left step (l1 ++ x :: l2) a = fold_left step l2 (step (fold_left step l1 a) x).
Proof. now rewrite fold_left_app. Qed.

End RegistryGrowth.

(** X24. A persistent element without an id is registered again by every
    scan. The scan looks it up under the text of the selector, files it
    under a generated id, and so never finds it: when the generated id is a
    new one, which it is as soon as the clock has advanced since the last
    scan, the registry has grown by the end of the scan. *)
Theorem anonymous_element_is_registered_again (clock : nat -> Z) (k : nat)
    (d : Registry.Dom) (f : Registry.Fields) (sel : Registry.StaticSelector)
    (ref : nat) (node : Registry.Node) :
  sel ∈ Registry.staticSelectors ->
  ref ∈ Registry.attached d ->
  Registry.elements d !! ref = Some node ->
  Registry.matchesStatic sel (Registry.own node) = true ->
  Persistence.id (Registry.own node) = "" ->
  noSelectorKeys d f = true ->
  NoDup (Registry.getStaticComponentIds f) ->
  (forall sel' j, (k <= j)%nat ->
     Registry.generateComponentId (Registry.text sel') (clock j)
       ∉ Registry.getStaticComponentIds f) ->
  let f' := snd (Registry.identifyStaticComponents clock k d f) in
  (length (Registry.staticComponents f) < length (Registry.staticComponents f'))%nat /\
  exists j, (k <= j)%nat /\
            Registry.generateComponentId (Registry.text sel) (clock j)
              ∈ Registry.getStaticComponentIds f'.
Proof.
  intros Hsel Hatt Hnode Hmatch Hid Hplain Hnodup Hfresh f'.
  apply andb_true_iff in Hplain as [Hkeys Hids].
  assert (Hids' : Forall (fun ref => match Registry.elements d !! ref with
                                     | Some node =>
                                         Persistence.id (Registry.own node) ∉ selectorTexts
                                     | None => True
                                     end) (Registry.attached d)).
  { apply Forall_forall. intros ref' Hin. rewrite forallb_forall in Hids.
    apply list_elem_of_In, Hids in Hin. destruct (Registry.elements d !! ref'); [|exact I].
    now apply negb_true_iff, bool_decide_eq_false in Hin. }
  assert (Hkeys' : Forall (fun key => key ∉ selectorTexts)
                     (keysOf (Registry.staticComponents f))).
  { apply Forall_forall. intros key Hin. rewrite forallb_forall in Hkeys.
    apply list_elem_of_In, Hkeys in Hin. now apply negb_true_iff, bool_decide_eq_false in Hin. }
  destruct (list_elem_of_split _ _ Hsel) as (s1 & s2 & Hsplit).
  assert (Hx : (ref, node) ∈ Registry.querySelectorAll sel d)
    by (apply elem_of_querySelectorAll; now split_and!).
  destruct (list_elem_of_split _ _ Hx) as (m1 & m2 & Hm).
  set (scan := fun sels acc =>
         fold_left (fun acc sel => fold_left (Registry.register clock sel)
                                     (Registry.querySelectorAll sel d) acc) sels acc).
  set (acc0 := (k, Registry.staticComponents f)).
  set (acc1 := fold_left (Registry.register clock sel) m1 (scan s1 acc0)).
  set (acc2 := Registry.register clock sel acc1 (ref, node)).
  assert (Hfinal : (fst (Registry.identifyStaticComponents clock k d f),
                    Registry.staticComponents f') =
                   scan s2 (fold_left (Registry.register clock sel) m2 acc2)).
  { unfold f', Registry.identifyStaticComponents. cbn [fst snd Registry.staticComponents].
    rewrite <- surjective_pairing, Hsplit, fold_left_app_cons, Hm, fold_left_app_cons.
    reflexivity. }
  assert (H01 : scanned clock acc0 acc1).
  { eapply scanned_trans; [apply (scan_scanned clock d s1)|apply registers_scanned]. }
  assert (H2f : scanned clock acc2
                  (scan s2 (fold_left (Registry.register clock sel) m2 acc2))).
  { eapply scanned_trans; [apply (registers_scanned clock sel m2)|apply (scan_scanned clock d s2)]. }
  assert (Hplain1 : Forall (fun key => key ∉ selectorTexts) (keysOf (snd acc1))).
  { assert (Hs1 : Forall (fun key => key ∉ selectorTexts) (keysOf (snd (scan s1 acc0)))).
    { apply (scan_keeps (fun acc => Forall (fun key => key ∉ selectorTexts) (keysOf (snd acc)))
               clock d s1); [|exact Hkeys'].
      intros sel' acc x. now apply register_keeps_plain. }
    apply (registers_keep_plain clock d sel m1); [exact Hids'| |exact Hs1].
    intros x Hin. rewrite Hm. apply elem_of_app. now left. }
  assert (Hnew : Registry.generateComponentId (Registry.text sel) (clock (fst acc1))
                   ∈ keysOf (snd acc2)).
  { unfold acc2, Registry.register. cbn [fst snd]. rewrite Hid. cbn [truthy String.eqb negb].
    assert (Hmiss : Registry.has (Registry.text sel) (snd acc1) = false).
    { apply bool_decide_eq_false. intros Hin. rewrite Forall_forall in Hplain1.
      apply (Hplain1 _ Hin). unfold selectorTexts. apply list_elem_of_fmap. eauto. }
    rewrite Hmiss. cbn [snd]. apply keysOf_objSet. now left. }
  destruct H01 as (Hk01 & Hkeys01 & _). destruct H2f as (_ & Hkeys2f & _).
  rewrite <- Hfinal in Hkeys2f. cbn [fst snd] in *.
  assert (Hin' : Registry.generateComponentId (Registry.text sel) (clock (fst acc1))
                   ∈ keysOf (Registry.staticComponents f')) by now apply Hkeys2f.
  split; [|exists (fst acc1); split; [exact Hk01|exact Hin']].
  assert (Hsub : Registry.generateComponentId (Registry.text sel) (clock (fst acc1))
                   :: keysOf (Registry.staticComponents f)
                   ⊆+ keysOf (Registry.staticComponents f')).
  { apply NoDup_submseteq.
    - constructor; [apply Hfresh; exact Hk01|exact Hnodup].
    - intros key [->|Hin]%elem_of_cons; [exact Hin'|].
      apply Hkeys2f. destruct (register_scanned clock sel acc1 (ref, node)) as (_ & Hk12 & _).
      apply Hk12, Hkeys01, Hin. }
  apply submseteq_length in Hsub. unfold keysOf in Hsub.
  rewrite length_cons, !length_fmap in Hsub. lia.
Qed.

Lemma anonymous_element_is_registered_again_witness :
  let clock := aMinuteLater 2 in
  let f := snd (Registry.identifyStaticComponents clock 0 anonymousPage Registry.empty) in
  let f' := snd (Registry.identifyStaticComponents clock 2 anonymousPage f) in
  Registry.getStaticComponentIds f = ["component__sidebar_1700000000000"] /\
  (length (Registry.staticComponents f) < length (Registry.staticComponents f'))%nat /\
  exists j, (2 <= j)%nat /\
            Registry.generateComponentId (Registry.text (Registry.Class "sidebar")) (clock j)
              ∈ Registry.getStaticComponentIds f'.
Proof.
  intros clock f f'.
  assert (Hkeys : Registry.getStaticComponentIds f = ["component__sidebar_1700000000000"])
    by reflexivity.
  split; [exact Hkeys|].
  apply (anonymous_element_is_registered_again clock 2 anonymousPage f
           (Registry.Class "sidebar") 0 (sidebarNode "" sidebar)).
  - unfold Registry.staticSelectors. repeat constructor.
  - apply (bool_decide_unpack _). vm_compute. exact I.
  - reflexivity.
  - reflexivity.
  - reflexivity.
  - reflexivity.
  - rewrite Hkeys. apply NoDup_singleton.
  - intros sel' j Hj. rewrite Hkeys. intros Hin%list_elem_of_singleton.
    assert (Hlate : clock j = 1700000060001).
    { unfold clock, aMinuteLater. destruct (Nat.ltb_spec j 2); [lia | reflexivity]. }
    rewrite Hlate in Hin. apply (f_equal (endsIn "1")) in Hin.
    unfold Registry.generateComponentId in Hin.
    rewrite <- (append_assoc "component_" _ ("_" +:+ ofZ 1700000060001)) in Hin.
    rewrite endsIn_append in Hin by (vm_compute; discriminate).
    vm_compute in Hin. discriminate.
Defined.

Section RegistryRoundTrip.

Import Registry.

(** On a stable region a restore of its own snapshot changes nothing. *)
Lemma restore_capture_stable (clock : nat -> Z) (r : Persistence.Region) :
  Persistence.stable clock r = true ->
  Persistence.restoreComponentState r (Persistence.captureComponentState clock r) =
  Persistence.Done r.
Proof.
  unfold Persistence.stable. rewrite !andb_true_iff.
  intros [[[Hwf Hact] Hforms] Htoggles].
  unfold Persistence.restoreComponentState, Persistence.captureComponentState. simpl.
  rewrite forEach_same by (intros info; now apply restoreActive_same). simpl.
  rewrite forEach_same by (intros entry; now apply (restoreForm_same clock)). simpl.
  rewrite forEach_same by (intros entry; now apply (restoreToggle_same clock)). simpl.
  now destruct r.
Qed.

Lemma NoDup_keysOf_objSet {V : Type} (k : string) (v : V) (o : list (string * V)) :
  NoDup (keysOf o) -> NoDup (keysOf (objSet k v o)).
Proof.
  unfold keysOf. induction o as [|[k0 v0] o IH]; intros Hnd; simpl.
  - repeat constructor. apply not_elem_of_nil.
  - apply NoDup_cons in Hnd as [Hk0 Hnd]. simpl in Hk0.
    destruct (String.eqb k k0) eqn:E.
    + apply String.eqb_eq in E. subst k0. simpl. now constructor.
    + apply String.eqb_neq in E. simpl. constructor; [|now apply IH].
      intros Hin. apply (keysOf_objSet k0 k v o) in Hin as [?|?]; [congruence|tauto].
Qed.

Lemma NoDup_keysOf_unique {V : Type} (k : string) (v v' : V) (o : list (string * V)) :
  NoDup (keysOf o) -> (k, v) ∈ o -> (k, v') ∈ o -> v = v'.
Proof.
  unfold keysOf. induction o as [|[k0 v0] o IH]; intros Hnd H1 H2;
    [now apply elem_of_nil in H1|].
  apply NoDup_cons in Hnd as [Hk0 Hnd]. simpl in Hk0.
  assert (Hkey : forall w, (k0, w) ∈ o -> False).
  { intros w Hw. apply Hk0. apply list_elem_of_fmap. now exists (k0, w). }
  apply elem_of_cons in H1 as [E1|H1]; apply elem_of_cons in H2 as [E2|H2]; simplify_eq.
  - reflexivity.
  - now destruct (Hkey v').
  - now destruct (Hkey v).
  - now apply IH.
Qed.

Lemma objSet_value {V : Type} (k : string) (v v' : V) (o : list (string * V)) :
  NoDup (keysOf o) -> (k, v') ∈ objSet k v o -> v' = v.
Proof.
  intros Hnd Hin. apply (NoDup_keysOf_unique k v' v (objSet k v o)).
  - now apply NoDup_keysOf_objSet.
  - exact Hin.
  - apply elem_of_objSet_new.
Qed.

Variable clock : nat -> Z.
Variable d : Dom.

(** What [beforeNavigation] leaves in [componentStates]. *)
Lemma beforeNavigation_captures (k : nat) (f : Fields) :
  wellKept f ->
  let f1 := snd (beforeNavigation clock k d f) in
  staticComponents f1 = staticComponents f /\
  NoDup (keysOf (componentStates f1)) /\
  (forall key, key ∈ keysOf (componentStates f1) -> key ∈ keysOf (staticComponents f)) /\
  capturedFrom clock d (staticComponents f) (componentStates f1).
Proof.
  intros (Hcomps & Hstates & Hsub) f1. subst f1. unfold beforeNavigation.
  cbn [fst snd staticComponents componentStates]. split; [reflexivity|].
  set (step := fun (acc : nat * list (string * Persistence.State)) (kc : string * Component) =>
         match elements d !! element (snd kc) with
         | Some node =>
             ((fst acc + clockReadings (inner node))%nat,
              objSet (fst kc)
                (Persistence.captureComponentState (later clock (fst acc)) (inner node))
                (snd acc))
         | None => acc
         end).
  assert (Hfold : forall done rest acc,
            staticComponents f = done ++ rest ->
            NoDup (keysOf (snd acc)) ->
            (forall key, key ∈ keysOf (snd acc) -> key ∈ keysOf (staticComponents f)) ->
            capturedFrom clock d done (snd acc) ->
            NoDup (keysOf (snd (fold_left step rest acc))) /\
            (forall key, key ∈ keysOf (snd (fold_left step rest acc)) ->
                         key ∈ keysOf (staticComponents f)) /\
            capturedFrom clock d (staticComponents f) (snd (fold_left step rest acc))).
  { intros done rest. revert done. induction rest as [|[key0 c0] rest IH];
      intros done acc Hsplit Hnd Hkeys Hcap.
    - rewrite app_nil_r in Hsplit. subst done. now split_and!.
    - simpl. apply (IH (done ++ [(key0, c0)])).
      + now rewrite <- app_assoc.
      + unfold step. cbn [fst snd]. destruct (elements d !! element c0); [|exact Hnd].
        now apply NoDup_keysOf_objSet.
      + unfold step. cbn [fst snd]. destruct (elements d !! element c0); [|exact Hkeys].
        intros key [->|Hin]%keysOf_objSet; [|now apply Hkeys].
        rewrite Hsplit. unfold keysOf. rewrite fmap_app, elem_of_app. right. left.
      + intros key st c node Hst Hc Hnode.
        assert (Hc0 : (key0, c0) ∈ staticComponents f).
        { rewrite Hsplit, elem_of_app. right. left. }
        apply elem_of_app in Hc as [Hc|Hc%list_elem_of_singleton].
        * assert (Hne : key <> key0).
          { intros ->. assert (c = c0).
            { apply (NoDup_keysOf_unique key0 c c0 (staticComponents f)); auto.
              rewrite Hsplit, elem_of_app. now left. }
            subst c. rewrite Hsplit in Hcomps. unfold keysOf in Hcomps.
            rewrite fmap_app in Hcomps. apply NoDup_app in Hcomps as (_ & Hdisj & _).
            apply (Hdisj key0).
            - apply list_elem_of_fmap. now exists (key0, c0).
            - left. }
          apply (Hcap key st c node); [|exact Hc|exact Hnode].
          unfold step in Hst. cbn [fst snd] in Hst.
          destruct (elements d !! element c0); [|exact Hst].
          destruct (elem_of_objSet _ _ _ _ _ Hst) as [[= ? ?]|?]; [congruence|assumption].
        * simplify_eq. unfold step in Hst. cbn [fst snd] in Hst. rewrite Hnode in Hst.
          apply objSet_value in Hst; [|exact Hnd]. eauto. }
  apply (Hfold [] (staticComponents f) (k, componentStates f)); auto.
  intros key st c node _ Hc. now apply elem_of_nil in Hc.
Qed.

(** A scan keeps the registry a map. *)
Lemma identify_NoDup (k : nat) (f : Fields) :
  NoDup (keysOf (staticComponents f)) ->
  NoDup (keysOf (staticComponents (snd (identifyStaticComponents clock k d f)))).
Proof.
  intros Hnd. unfold identifyStaticComponents. cbn [snd staticComponents].
  apply (scan_keeps (fun acc => NoDup (keysOf (snd acc))) clock d staticSelectors);
    [|exact Hnd].
  intros sel acc x _ Hacc. unfold register. destruct (has _ (snd acc)); [exact Hacc|].
  cbn [snd]. now apply NoDup_keysOf_objSet.
Qed.

End RegistryRoundTrip.



(** ** Generated ids *)

Section GeneratedIds.

Import Persistence.

Lemma allChars_append (q : ascii -> bool) (a b : string) :
  allChars q (a +:+ b) = allChars q a && allChars q b.
Proof.
  induction a as [|c a IH]; [reflexivity|].
  rewrite append_cons. simpl. now rewrite IH, andb_assoc.
Qed.

Lemma allChars_digits (d : Decimal.uint) : allChars isIdentChar (NilEmpty.string_of_uint d) = true.
Proof. induction d as [|d IH|d IH|d IH|d IH|d IH|d IH|d IH|d IH|d IH|d IH]; simpl; auto. Qed.

Lemma allChars_ofZ (z : Z) : allChars isIdentChar (ofZ z) = true.
Proof.
  unfold ofZ, NilZero.string_of_int, NilZero.string_of_uint.
  destruct (Z.to_int z) as [d|d].
  - destruct d; solve [reflexivity | apply (allChars_digits (Decimal.D0 d))
                       | apply (allChars_digits (Decimal.D1 d))
                       | apply (allChars_digits (Decimal.D2 d))
                       | apply (allChars_digits (Decimal.D3 d))
                       | apply (allChars_digits (Decimal.D4 d))
                       | apply (allChars_digits (Decimal.D5 d))
                       | apply (allChars_digits (Decimal.D6 d))
                       | apply (allChars_digits (Decimal.D7 d))
                       | apply (allChars_digits (Decimal.D8 d))
                       | apply (allChars_digits (Decimal.D9 d))].
  - change (allChars isIdentChar (String "-" ?s)) with (allChars isIdentChar s).
    destruct d; solve [reflexivity | apply (allChars_digits (Decimal.D0 d))
                       | apply (allChars_digits (Decimal.D1 d))
                       | apply (allChars_digits (Decimal.D2 d))
                       | apply (allChars_digits (Decimal.D3 d))
                       | apply (allChars_digits (Decimal.D4 d))
                       | apply (allChars_digits (Decimal.D5 d))
                       | apply (allChars_digits (Decimal.D6 d))
                       | apply (allChars_digits (Decimal.D7 d))
                       | apply (allChars_digits (Decimal.D8 d))
                       | apply (allChars_digits (Decimal.D9 d))].
Qed.

Lemma allChars_sanitize (s : string) : allChars isIdentChar (Registry.sanitize s) = true.
Proof.
  induction s as [|c s IH]; [reflexivity|].
  cbn [Registry.sanitize allChars]. rewrite IH, andb_true_r.
  destruct (Registry.isAlnum c) eqn:Hc; [|reflexivity].
  unfold Registry.isAlnum in Hc. unfold isIdentChar, isLetter. cbv zeta in *.
  set (n := nat_of_ascii c) in *.
  destruct ((48 <=? n)%nat && (n <=? 57)%nat); [now rewrite orb_true_r|].
  destruct ((65 <=? n)%nat && (n <=? 90)%nat); [reflexivity|].
  cbn [orb] in Hc. rewrite Hc. reflexivity.
Qed.

End GeneratedIds.

(** X26. An id that [generateComponentId] makes consists of letters,
    digits, underscores and at most a minus sign, and begins with
    [component_], whatever the selector and the reading of the clock: the
    selector [#id] that a restore builds from it is always a well-formed id
    selector. For the two arguments [captureComponentState] passes, the
    selector is taken over unchanged. *)
Theorem generated_id_is_plain (selector : string) (now : Z) :
  Persistence.plainIdent (Registry.generateComponentId selector now) = true /\
  Persistence.parses (Persistence.ById (Registry.generateComponentId selector now)) = true /\
  startsWith "component_" (Registry.generateComponentId selector now) = true /\
  Registry.generateComponentId "form" now = Persistence.generateComponentId "form" now /\
  Registry.generateComponentId "toggle" now = Persistence.generateComponentId "toggle" now.
Proof.
  assert (Hplain : Persistence.plainIdent (Registry.generateComponentId selector now) = true).
  { unfold Registry.generateComponentId.
    change ("component_" +:+ ?s) with (String "c" ("omponent_" +:+ s)).
    unfold Persistence.plainIdent.
    rewrite !allChars_append, allChars_sanitize, allChars_ofZ. reflexivity. }
  split_and!; [exact Hplain|exact Hplain|apply generated_prefix|reflexivity|reflexivity].
Qed.

(** ** What a restore writes to a toggle element *)

Section ToggleWrites.

Import Persistence.

Variable p : Element -> bool.
Variable g : Tree -> Tree.

Lemma landsOn_forest (l : list Tree) :
  Forall (landsOn p g) l ->
  match find (fun u => p (root u)) (nodes l) with
  | None => updForest p g l = None
  | Some u =>
      p (root (g u)) = true ->
      exists l', updForest p g l = Some l' /\
                 find (fun u => p (root u)) (nodes l') = Some (g u)
  end.
Proof.
  unfold nodes, updForest. induction 1 as [|c l Hc _ IH]; [reflexivity|].
  unfold landsOn in Hc. simpl. rewrite find_app.
  destruct (find (fun u => p (root u)) (subtrees c)) as [u|] eqn:Hfind.
  - intros Hp. destruct (Hc Hp) as (c' & -> & Hfound). eexists. split; [reflexivity|].
    simpl. now rewrite find_app, Hfound.
  - rewrite Hc. destruct (find (fun u => p (root u)) (flat_map subtrees l)) as [u|].
    + intros Hp. destruct (IH Hp) as (l' & -> & Hfound). eexists. split; [reflexivity|].
      simpl. now rewrite find_app, Hfind.
    + now rewrite IH.
Qed.

Lemma landsOn_tree (t : Tree) : landsOn p g t.
Proof.
  induction t as [e ch IH] using Tree_forall_ind.
  pose proof (landsOn_forest ch IH) as Hch.
  unfold landsOn. simpl. destruct (p e) eqn:He.
  - intros Hp. eexists. split; [reflexivity|].
    destruct (g (Node e ch)) as [e' ch'] eqn:Hg. simpl in *. now rewrite Hp.
  - fold (nodes ch). fold (updForest p g ch).
    destruct (find (fun u => p (root u)) (nodes ch)) as [u|].
    + intros Hp. destruct (Hch Hp) as (ch' & -> & Hfound). eexists. split; [reflexivity|].
      simpl. rewrite He. exact Hfound.
    + now rewrite Hch.
Qed.

(** The node found by a query is where the write goes, and where the query
    finds what was written. *)
Lemma writeFirst_lands (forest : list Tree) (u : Tree) :
  querySelector p forest = Some u -> p (root (g u)) = true ->
  querySelector p (writeFirst p g forest) = Some (g u).
Proof.
  unfold querySelector, writeFirst. intros Hfind Hp.
  assert (H := landsOn_forest forest). rewrite Hfind in H.
  destruct H as (l' & -> & Hfound); [|exact Hp|exact Hfound].
  apply Forall_forall. intros t _. apply landsOn_tree.
Qed.

End ToggleWrites.

Section AttributeWrites.

Import Persistence.

Lemma getAttribute_objSet (n n' v : string) (attrs : list (string * string)) :
  snd <$> find (fun a => String.eqb n' (fst a)) (objSet n v attrs) =
  if String.eqb n' n then Some v else snd <$> find (fun a => String.eqb n' (fst a)) attrs.
Proof.
  induction attrs as [|[k w] attrs IH]; simpl.
  - now destruct (String.eqb n' n).
  - destruct (String.eqb n k) eqn:Hnk; simpl.
    + apply String.eqb_eq in Hnk. subst k. now destruct (String.eqb n' n).
    + destruct (String.eqb n' k) eqn:Hk; simpl.
      * apply String.eqb_eq in Hk. subst k.
        rewrite String.eqb_sym in Hnk. now rewrite Hnk.
      * exact IH.
Qed.

Lemma getAttribute_setAttribute (n n' v : string) (e : Element) :
  getAttribute n' (setAttribute n v e) =
  if String.eqb n' n then Some v else getAttribute n' e.
Proof. unfold getAttribute, setAttribute. cbn [attributes]. apply getAttribute_objSet. Qed.

Lemma getAttribute_setAttributes_other (n : string) (attrs : list (string * string))
    (e : Element) :
  n ∉ (fst <$> attrs) -> getAttribute n (setAttributes attrs e) = getAttribute n e.
Proof.
  unfold setAttributes. revert e. induction attrs as [|[k w] attrs IH]; intros e Hn;
    [reflexivity|].
  rewrite fmap_cons, not_elem_of_cons in Hn. destruct Hn as [Hne Hn]. simpl in Hne.
  simpl. rewrite IH by exact Hn. rewrite getAttribute_setAttribute.
  now rewrite (proj2 (String.eqb_neq n k)).
Qed.

Lemma getAttribute_setAttributes (n v : string) (attrs : list (string * string))
    (e : Element) :
  NoDup (fst <$> attrs) -> (n, v) ∈ attrs -> getAttribute n (setAttributes attrs e) = Some v.
Proof.
  unfold setAttributes. revert e. induction attrs as [|[k w] attrs IH]; intros e Hnd Hin;
    [now apply elem_of_nil in Hin|].
  rewrite fmap_cons in Hnd. apply NoDup_cons in Hnd as [Hk Hnd]. simpl in Hk.
  simpl. apply elem_of_cons in Hin as [[= -> ->]|Hin].
  - fold (setAttributes attrs (setAttribute k w e)).
    rewrite getAttribute_setAttributes_other by exact Hk.
    rewrite getAttribute_setAttribute. now rewrite String.eqb_refl.
  - now apply IH.
Qed.

End AttributeWrites.



(** ** The two maps of the registry *)

Section RegistryMaps.

Import Registry.

Lemma get_is_Some {V : Type} (k : string) (m : list (string * V)) :
  is_Some (get k m) <-> k ∈ keysOf m.
Proof.
  unfold get, keysOf. split.
  - intros [v Hv]. destruct (find _ m) as [[k' v']|] eqn:Hfind; [|discriminate].
    apply find_some in Hfind as [Hin Heq]. apply String.eqb_eq in Heq. simpl in Heq.
    subst k'. apply list_elem_of_fmap. exists (k, v'). split; [reflexivity|].
    now apply list_elem_of_In.
  - intros ([k' v] & Hk & Hin)%list_elem_of_fmap. simpl in Hk. subst k'.
    destruct (find (fun kv => String.eqb k (fst kv)) m) as [kv|] eqn:Hfind; [now eexists|].
    apply find_none with (x := (k, v)) in Hfind; [|now apply list_elem_of_In].
    simpl in Hfind. now rewrite String.eqb_refl in Hfind.
Qed.

Lemma preserve_keys (comps : list (string * Component))
    (states : list (string * Persistence.State)) :
  NoDup (keysOf states) ->
  NoDup (keysOf (fold_left (fun states kc => objSet (fst kc) (state (snd kc)) states)
                   comps states)) /\
  forall key,
    key ∈ keysOf (fold_left (fun states kc => objSet (fst kc) (state (snd kc)) states)
                    comps states) <->
    key ∈ keysOf states \/ key ∈ keysOf comps.
Proof.
  revert states. induction comps as [|[k c] comps IH]; intros states Hnd; simpl.
  - split; [exact Hnd|]. intros key. split; [now left|].
    intros [H|H]; [exact H|now apply elem_of_nil in H].
  - destruct (IH (objSet k (state c) states)) as [Hnd' Hkeys];
      [now apply NoDup_keysOf_objSet|].
    split; [exact Hnd'|]. intros key. rewrite Hkeys, keysOf_objSet.
    change (keysOf ((k, c) :: comps)) with (k :: keysOf comps). rewrite elem_of_cons. tauto.
Qed.

End RegistryMaps.

(** X28. The registry keeps its two maps in step. From the constructor
    on, and through every scan, [preserveComponentStates] and
    [beforeNavigation], a snapshot is only ever filed under the key of a
    registered component; and once [init] has run, every registered
    component has a snapshot, so [getComponentState] answers for exactly
    the ids that [getStaticComponentIds] lists. *)
Theorem registry_maps_stay_in_step (clock : nat -> Z) (k : nat) (d : Registry.Dom)
    (f : Registry.Fields) :
  wellKept (snd (Registry.init clock k d)) /\
  (forall key, key ∈ Registry.getStaticComponentIds (snd (Registry.init clock k d)) <->
               is_Some (Registry.getComponentState key (snd (Registry.init clock k d)))) /\
  (wellKept f ->
   wellKept (snd (Registry.identifyStaticComponents clock k d f)) /\
   wellKept (Registry.preserveComponentStates f) /\
   wellKept (snd (Registry.beforeNavigation clock k d f))).
Proof.
  assert (Hidentify : forall f0, wellKept f0 ->
            wellKept (snd (Registry.identifyStaticComponents clock k d f0))).
  { intros f0 (Hc & Hs & Hsub). split_and!.
    - now apply identify_NoDup.
    - exact Hs.
    - intros key Hkey. destruct (identify_scanned clock k d f0) as (_ & Hkeys & _).
      apply Hkeys, Hsub, Hkey. }
  assert (Hpreserve : forall f0, wellKept f0 -> wellKept (Registry.preserveComponentStates f0)).
  { intros f0 (Hc & Hs & Hsub). unfold Registry.preserveComponentStates.
    destruct (preserve_keys (Registry.staticComponents f0) (Registry.componentStates f0) Hs)
      as [Hnd Hkeys].
    split_and!; cbn [Registry.staticComponents Registry.componentStates]; auto.
    intros key [Hin|Hin]%Hkeys; auto. }
  assert (Hempty : wellKept Registry.empty).
  { split_and!; try constructor. intros key Hkey. exact Hkey. }
  split_and!.
  - unfold Registry.init. cbn [snd]. apply Hpreserve, Hidentify, Hempty.
  - intros key. unfold Registry.getComponentState, Registry.getStaticComponentIds.
    rewrite get_is_Some. unfold Registry.init. cbn [snd].
    unfold Registry.preserveComponentStates.
    cbn [Registry.staticComponents Registry.componentStates].
    destruct (preserve_keys
                (Registry.staticComponents
                   (snd (Registry.identifyStaticComponents clock k d Registry.empty)))
                (Registry.componentStates
                   (snd (Registry.identifyStaticComponents clock k d Registry.empty))))
      as [_ Hkeys]; [constructor|].
    rewrite Hkeys. split; [now right|]. intros [H|H]; [now apply elem_of_nil in H|exact H].
  - intros Hkept. split_and!; [now apply Hidentify|now apply Hpreserve|].
    destruct (beforeNavigation_captures clock d k f Hkept) as (Hsame & Hnd & Hsub & _).
    destruct Hkept as (Hc & _ & _). split_and!; [now rewrite Hsame|exact Hnd|].
    intros key Hkey. rewrite Hsame. now apply Hsub.
Qed.

(** ** A fragment with a falsy body *)

(** X29. When the server answers the request of [navigate] with a good
    status and a body that parses to a falsy value, such as [null], the
    call ends without a trace: nothing is rendered, no history entry is
    written, the current route stays, no error is shown or recorded, and
    [afterNavigation] is not scheduled. The value is not cached either, so
    the next navigation to the path asks the server again. *)
Theorem falsy_fragment_is_ignored (env : Router.Env) (path : string)
    (pushHistory isInitial : bool) (w : Router.World) (evs : list Event) :
  proceeds isInitial w = true ->
  cachedPage path w = None ->
  Fetch.fetchPageData (Router.net env) path 0 = Some (evs, Returned JFalsy) ->
  exists w' effects,
    Router.navigate env path pushHistory isInitial w = Some (w', effects) /\
    effects = (if Router.hasPersistence w && negb isInitial
               then [Router.BeforeNavigation] else []) ++ map Router.Net evs /\
    Router.router w' = Router.set_isNavigating false (Router.router w) /\
    Router.document w' = Router.document w /\
    Router.spaError (Router.widgets w') = Router.spaError (Router.widgets w) /\
    Router.spaErrorMessage (Router.widgets w') = Router.spaErrorMessage (Router.widgets w) /\
    cachedPage path w' = None /\
    forall env' pushHistory',
      exists w'' effects',
        Router.navigate env' path pushHistory' false w' = Some (w'', effects') /\
        Router.Net (EvFetch (Fetch.endpoint path)) ∈ effects'.
Proof.
  intros Hgo Hmiss Hrun.
  assert (Hnav : Router.navigate env path pushHistory isInitial w =
                 Some (Router.with_router (Router.set_isNavigating false)
                         (Router.with_widgets Router.hideLoadingState
                            (Router.with_widgets Router.showLoadingState
                               (Router.with_router (Router.set_isNavigating true) w))),
                       (if Router.hasPersistence w && negb isInitial
                        then [Router.BeforeNavigation] else []) ++ map Router.Net evs)).
  { pose proof Hgo as Hgo'. pose proof Hmiss as Hmiss'.
    unfold proceeds in Hgo'. unfold cachedPage in Hmiss'. apply negb_true_iff in Hgo'.
    unfold Router.navigate. rewrite Hgo'.
    cbn [Router.with_router Router.with_widgets Router.router].
    change (Router.cache (Router.set_isNavigating true (Router.router w)))
      with (Router.cache (Router.router w)).
    change (Router.preloadCache (Router.set_isNavigating true (Router.router w)))
      with (Router.preloadCache (Router.router w)).
    destruct (Router.orElse _ _) as [[|page']|]; try discriminate; rewrite Hrun;
      cbn [Router.finish fst snd Router.hasPersistence]; now rewrite app_nil_r. }
  do 2 eexists. split; [exact Hnav|].
  set (w' := Router.with_router _ _).
  assert (Hmiss' : cachedPage path w' = None) by exact Hmiss.
  split_and!; try reflexivity.
  - exact Hmiss'.
  - intros env' pushHistory'.
    apply (navigate_uncached env' path pushHistory' false w'); [reflexivity|exact Hmiss'].
Qed.

Lemma falsy_fragment_is_ignored_witness :
  exists w' effects,
    Router.navigate nullBody "/servers" true false (atDashboard false) = Some (w', effects) /\
    effects = (if Router.hasPersistence (atDashboard false) && negb false
               then [Router.BeforeNavigation] else []) ++
              map Router.Net [EvFetch (Fetch.endpoint "/servers")] /\
    Router.router w' = Router.set_isNavigating false (Router.router (atDashboard false)) /\
    Router.document w' = Router.document (atDashboard false) /\
    Router.spaError (Router.widgets w') = Router.spaError (Router.widgets (atDashboard false)) /\
    Router.spaErrorMessage (Router.widgets w')
      = Router.spaErrorMessage (Router.widgets (atDashboard false)) /\
    cachedPage "/servers" w' = None /\
    forall env' pushHistory',
      exists w'' effects',
        Router.navigate env' "/servers" pushHistory' false w' = Some (w'', effects') /\
        Router.Net (EvFetch (Fetch.endpoint "/servers")) ∈ effects'.
Proof.
  apply (falsy_fragment_is_ignored nullBody "/servers" true false (atDashboard false)
           [EvFetch (Fetch.endpoint "/servers")]); reflexivity.
Defined.

(** ** The end of every call of [navigate] *)

(** X30. However a call of [navigate] that goes past the guard ends, with
    the page shown, with a falsy body, with a failed fetch or with an
    exception of the highlighting, its [finally] block has run: the
    in-flight flag is cleared, the loading indicator and the overlay are
    hidden and the overlay timer is cancelled. The call never leaves the
    router busy. *)
Theorem navigate_always_ends_idle (pathnameOf : string -> option string) (env : Router.Env)
    (path : string) (pushHistory isInitial : bool) (w : Page.World) :
  proceeds isInitial (Page.base w) = true ->
  exists w' effects,
    Page.navigate pathnameOf env path pushHistory isInitial w = Some (w', effects) /\
    Router.isNavigating (Router.router (Page.base w')) = false /\
    Router.spaLoading (Router.widgets (Page.base w')) =
      (fun _ => true) <$> Router.spaLoading (Router.widgets (Page.base w)) /\
    Router.spaLoadingOverlay (Router.widgets (Page.base w')) =
      (fun _ => true) <$> Router.spaLoadingOverlay (Router.widgets (Page.base w)) /\
    Router.loadingTimeout (Router.widgets (Page.base w')) = false.
Proof.
  unfold proceeds, Page.navigate. intros Hgo%negb_true_iff. rewrite Hgo.
  cbn [Router.with_router Router.with_widgets Router.router].
  assert (Hfinish : forall page w0,
            Router.widgets (fst (Router.finish env path pushHistory isInitial (JPage page) w0))
            = Router.widgets w0).
  { intros page w0. unfold Router.finish. cbn [fst].
    destruct (pushHistory && negb isInitial); [|destruct isInitial]; reflexivity. }
  assert (Hshown : forall (o : option bool), (fun _ => true) <$> ((fun _ => false) <$> o)
                                             = (fun _ => true) <$> o)
    by (now intros [|]).
  destruct (fetchPageData_total (Router.net env) path 0) as (evs & o & Hrun).
  destruct (Router.orElse _ _) as [[|page]|];
    [rewrite Hrun; destruct o as [[|page']|name message]
    |
    |rewrite Hrun; destruct o as [[|page']|name message]];
    try destruct (snd (Nav.updateActiveNavigation pathnameOf path (Page.bar w)));
    do 2 eexists; (split; [reflexivity|]);
    cbn [fst snd Page.base Page.bar Router.with_router Router.with_widgets Router.router
         Router.widgets Router.set_isNavigating Router.isNavigating Router.showErrorState
         Router.hideLoadingState Router.showErrorWidgets Router.showLoadingState
         Router.spaLoading Router.spaLoadingOverlay Router.loadingTimeout];
    rewrite ?Hfinish;
    cbn [Router.with_router Router.with_widgets Router.widgets Router.showLoadingState
         Router.spaLoading Router.spaLoadingOverlay Router.loadingTimeout];
    rewrite ?Hshown; split_and!; reflexivity.
Qed.

Lemma navigate_always_ends_idle_witness :
  exists w' effects,
    Page.navigate verbatim settingsMissing "/settings" true false
      {| Page.base := atDashboard false; Page.bar := panelBar true |} = Some (w', effects) /\
    Router.isNavigating (Router.router (Page.base w')) = false /\
    Router.spaLoading (Router.widgets (Page.base w')) =
      (fun _ => true) <$> Router.spaLoading (Router.widgets (atDashboard false)) /\
    Router.spaLoadingOverlay (Router.widgets (Page.base w')) =
      (fun _ => true) <$> Router.spaLoadingOverlay (Router.widgets (atDashboard false)) /\
    Router.loadingTimeout (Router.widgets (Page.base w')) = false.
Proof.
  apply (navigate_always_ends_idle verbatim settingsMissing "/settings" true false
           {| Page.base := atDashboard false; Page.bar := panelBar true |}).
  reflexivity.
Defined.
